(** * LED Relay 2: a shallow embedding of [main.c] and its timing protocols

    The firmware drives a two-stage power relay from two sense inputs
    (ACC1, ACC2).  It consists of one polling loop ([main]) and five
    interrupt handlers that share a handful of [volatile] globals and the
    registers of timer TCC4.

    The embedding keeps the shape of the source:

    - [uint8_t] / [uint16_t] values are integers in [Z] with the
      wrap-around written out ([u8], [u16], [sub16]);
    - the [volatile] globals, the locals of [main] and the peripheral
      registers the code touches are three records gathered in [machine];
    - every interrupt handler is a function [machine -> machine];
    - one iteration of [while (TRUE)] is [loop_body], composed of the
      snapshot taken under [cli()]/[sei()], the three [switch] statements and
      the gate between them, with [continue] made explicit by [flow];
    - the environment (timer ticks, pin changes, loop iterations) is a list
      of [event]s executed by [run].

    A handler runs to completion.  The loop disables interrupts only while
    it takes the snapshot; after [sei()] the switches read the [volatile]
    levels again, so a handler served inside an iteration can change what
    they see.  [iteration] is the iteration with the handlers served inside
    it, at the statement boundaries after [sei()] and between the switches;
    [loop_body] is the iteration in which none is served, every interrupt
    being taken between two iterations. *)

From Stdlib Require Import ZArith QArith Qround List Bool Lia.
Import ListNotations.

Local Open Scope Z_scope.

(** ** Machine integers *)

Definition u8 (z : Z) : Z := z mod 256.
Definition u16 (z : Z) : Z := z mod 65536.

(** [a - b] on two [uint16_t] values, stored back into a [uint16_t]. *)
Definition sub16 (a b : Z) : Z := u16 (a - b).

(** ** Application specific definitions *)

Definition OFF : bool := false.
Definition ON : bool := true.

Definition DEBOUNCE_TIME : Q := 0.050%Q.

(** C's [round]: to the nearest integer, halfway cases away from zero. *)
Definition round (x : Q) : Z :=
  if Qle_bool 0 x then Qfloor (x + (1 # 2)) else Qceiling (x - (1 # 2)).

(** [#define MAIN_TCNT_FROM_SECONDS(sec) (uint16_t) round(sec / 0.001)],
    evaluated on exact rationals.  Every argument used by the program is a
    multiple of one millisecond, so the rounding absorbs the error of the
    double-precision division and both computations agree. *)
Definition MAIN_TCNT_FROM_SECONDS (sec : Q) : Z := u16 (round (sec / 0.001)).

(** The macro is expanded at compile time; these are its values at the
    arguments that occur in the program. *)
Definition TCNT_DEBOUNCE : Z := Eval vm_compute in MAIN_TCNT_FROM_SECONDS DEBOUNCE_TIME.
Definition TCNT_0_5 : Z := Eval vm_compute in MAIN_TCNT_FROM_SECONDS 0.5.
Definition TCNT_1_0 : Z := Eval vm_compute in MAIN_TCNT_FROM_SECONDS 1.0.
Definition TCNT_2_0 : Z := Eval vm_compute in MAIN_TCNT_FROM_SECONDS 2.0.
Definition TCNT_3_0 : Z := Eval vm_compute in MAIN_TCNT_FROM_SECONDS 3.0.
Definition TCNT_4_0 : Z := Eval vm_compute in MAIN_TCNT_FROM_SECONDS 4.0.
Definition TCNT_7_0 : Z := Eval vm_compute in MAIN_TCNT_FROM_SECONDS 7.0.
Definition TCNT_60_0 : Z := Eval vm_compute in MAIN_TCNT_FROM_SECONDS 60.0.
Definition TCNT_65_0 : Z := Eval vm_compute in MAIN_TCNT_FROM_SECONDS 65.0.

(** ** Enumerations *)

Inductive POWER_SM : Set :=
| SM_POWER_RESET
| SM_POWER_DOWN
| SM_POWER_OUT_OFF
| SM_POWER_OUT_ON
| SM_POWER_OUT_STAY_ON
| SM_POWER_TIMER.

Inductive STAYON_SM : Set :=
| SM_STAYON_RESET
| SM_STAYON_WAIT_ON
| SM_STAYON_WAIT_OFF.

Inductive PROG_SM : Set :=
| SM_PROG_RESET
| SM_PROG_FLASH_ON
| SM_PROG_FLASH_OFF
| SM_PROG_END_ON
| SM_PROG_END_OFF
| SM_PROG_IND_ON
| SM_PROG_IND_OFF.

(** ** State *)

(** The [volatile] globals shared between [main] and the handlers.
    ([acc1_debounce] and [acc2_debounce] are declared but never used.) *)
Record globals : Set := mkGlobals {
  seconds : Z;
  minutes : Z;
  acc1_last : bool;
  acc1_on_start_time : Z;
  acc1_off_start_time : Z;
  acc2_last : bool;
  acc2_on_start_time : Z;
  acc2_off_start_time : Z
}.

(** The locals of [main]. *)
Record locals : Set := mkLocals {
  power_state : POWER_SM;
  stayon_state : STAYON_SM;
  prog_state : PROG_SM;
  wait_minutes : Z;
  acc1_on_time : Z;
  acc1_off_time : Z;
  acc2_on_time : Z;
  acc2_off_time : Z;
  tick_cnt_ms : Z;
  flash_count : Z
}.

(** The peripheral state the algorithms depend on: the counter and the three
    compare channels of TCC4 with their interrupt levels (off or high), the
    high-level enable of the interrupt controller, the two sense pins, the
    pair of power switches (always driven together), the watchdog enable and
    the EEPROM byte. *)
Record periph : Set := mkPeriph {
  TCC4_CNT : Z;
  TCC4_CCA : Z;
  TCC4_CCB : Z;
  TCC4_CCC : Z;
  CCAINTLVL : bool;
  CCBINTLVL : bool;
  CCCINTLVL : bool;
  PMIC_HILVLEN : bool;
  ACC1_IN : bool;
  ACC2_IN : bool;
  V12EN : bool;
  WDT_ENABLE : bool;
  eeprom_wait_minutes : Z
}.

Record machine : Set := mkMachine {
  vars : locals;
  vol : globals;
  regs : periph
}.

(** *** Assignments *)

Definition with_vars (f : locals -> locals) (m : machine) : machine :=
  mkMachine (f (vars m)) (vol m) (regs m).
Definition with_vol (f : globals -> globals) (m : machine) : machine :=
  mkMachine (vars m) (f (vol m)) (regs m).
Definition with_regs (f : periph -> periph) (m : machine) : machine :=
  mkMachine (vars m) (vol m) (f (regs m)).

Definition set_seconds (v : Z) : machine -> machine :=
  with_vol (fun g => mkGlobals v (minutes g) (acc1_last g) (acc1_on_start_time g)
    (acc1_off_start_time g) (acc2_last g) (acc2_on_start_time g) (acc2_off_start_time g)).
Definition set_minutes (v : Z) : machine -> machine :=
  with_vol (fun g => mkGlobals (seconds g) v (acc1_last g) (acc1_on_start_time g)
    (acc1_off_start_time g) (acc2_last g) (acc2_on_start_time g) (acc2_off_start_time g)).
Definition set_acc1_last (v : bool) : machine -> machine :=
  with_vol (fun g => mkGlobals (seconds g) (minutes g) v (acc1_on_start_time g)
    (acc1_off_start_time g) (acc2_last g) (acc2_on_start_time g) (acc2_off_start_time g)).
Definition set_acc1_on_start_time (v : Z) : machine -> machine :=
  with_vol (fun g => mkGlobals (seconds g) (minutes g) (acc1_last g) v
    (acc1_off_start_time g) (acc2_last g) (acc2_on_start_time g) (acc2_off_start_time g)).
Definition set_acc1_off_start_time (v : Z) : machine -> machine :=
  with_vol (fun g => mkGlobals (seconds g) (minutes g) (acc1_last g) (acc1_on_start_time g)
    v (acc2_last g) (acc2_on_start_time g) (acc2_off_start_time g)).
Definition set_acc2_last (v : bool) : machine -> machine :=
  with_vol (fun g => mkGlobals (seconds g) (minutes g) (acc1_last g) (acc1_on_start_time g)
    (acc1_off_start_time g) v (acc2_on_start_time g) (acc2_off_start_time g)).
Definition set_acc2_on_start_time (v : Z) : machine -> machine :=
  with_vol (fun g => mkGlobals (seconds g) (minutes g) (acc1_last g) (acc1_on_start_time g)
    (acc1_off_start_time g) (acc2_last g) v (acc2_off_start_time g)).
Definition set_acc2_off_start_time (v : Z) : machine -> machine :=
  with_vol (fun g => mkGlobals (seconds g) (minutes g) (acc1_last g) (acc1_on_start_time g)
    (acc1_off_start_time g) (acc2_last g) (acc2_on_start_time g) v).

Definition set_power_state (v : POWER_SM) : machine -> machine :=
  with_vars (fun l => mkLocals v (stayon_state l) (prog_state l) (wait_minutes l)
    (acc1_on_time l) (acc1_off_time l) (acc2_on_time l) (acc2_off_time l)
    (tick_cnt_ms l) (flash_count l)).
Definition set_stayon_state (v : STAYON_SM) : machine -> machine :=
  with_vars (fun l => mkLocals (power_state l) v (prog_state l) (wait_minutes l)
    (acc1_on_time l) (acc1_off_time l) (acc2_on_time l) (acc2_off_time l)
    (tick_cnt_ms l) (flash_count l)).
Definition set_prog_state (v : PROG_SM) : machine -> machine :=
  with_vars (fun l => mkLocals (power_state l) (stayon_state l) v (wait_minutes l)
    (acc1_on_time l) (acc1_off_time l) (acc2_on_time l) (acc2_off_time l)
    (tick_cnt_ms l) (flash_count l)).
Definition set_wait_minutes (v : Z) : machine -> machine :=
  with_vars (fun l => mkLocals (power_state l) (stayon_state l) (prog_state l) v
    (acc1_on_time l) (acc1_off_time l) (acc2_on_time l) (acc2_off_time l)
    (tick_cnt_ms l) (flash_count l)).
Definition set_acc1_on_time (v : Z) : machine -> machine :=
  with_vars (fun l => mkLocals (power_state l) (stayon_state l) (prog_state l) (wait_minutes l)
    v (acc1_off_time l) (acc2_on_time l) (acc2_off_time l)
    (tick_cnt_ms l) (flash_count l)).
Definition set_acc1_off_time (v : Z) : machine -> machine :=
  with_vars (fun l => mkLocals (power_state l) (stayon_state l) (prog_state l) (wait_minutes l)
    (acc1_on_time l) v (acc2_on_time l) (acc2_off_time l)
    (tick_cnt_ms l) (flash_count l)).
Definition set_acc2_on_time (v : Z) : machine -> machine :=
  with_vars (fun l => mkLocals (power_state l) (stayon_state l) (prog_state l) (wait_minutes l)
    (acc1_on_time l) (acc1_off_time l) v (acc2_off_time l)
    (tick_cnt_ms l) (flash_count l)).
Definition set_acc2_off_time (v : Z) : machine -> machine :=
  with_vars (fun l => mkLocals (power_state l) (stayon_state l) (prog_state l) (wait_minutes l)
    (acc1_on_time l) (acc1_off_time l) (acc2_on_time l) v
    (tick_cnt_ms l) (flash_count l)).
Definition set_tick_cnt_ms (v : Z) : machine -> machine :=
  with_vars (fun l => mkLocals (power_state l) (stayon_state l) (prog_state l) (wait_minutes l)
    (acc1_on_time l) (acc1_off_time l) (acc2_on_time l) (acc2_off_time l)
    v (flash_count l)).
Definition set_flash_count (v : Z) : machine -> machine :=
  with_vars (fun l => mkLocals (power_state l) (stayon_state l) (prog_state l) (wait_minutes l)
    (acc1_on_time l) (acc1_off_time l) (acc2_on_time l) (acc2_off_time l)
    (tick_cnt_ms l) v).

Definition set_TCC4_CNT (v : Z) : machine -> machine :=
  with_regs (fun r => mkPeriph v (TCC4_CCA r) (TCC4_CCB r) (TCC4_CCC r)
    (CCAINTLVL r) (CCBINTLVL r) (CCCINTLVL r) (PMIC_HILVLEN r)
    (ACC1_IN r) (ACC2_IN r) (V12EN r) (WDT_ENABLE r) (eeprom_wait_minutes r)).
Definition set_TCC4_CCA (v : Z) : machine -> machine :=
  with_regs (fun r => mkPeriph (TCC4_CNT r) v (TCC4_CCB r) (TCC4_CCC r)
    (CCAINTLVL r) (CCBINTLVL r) (CCCINTLVL r) (PMIC_HILVLEN r)
    (ACC1_IN r) (ACC2_IN r) (V12EN r) (WDT_ENABLE r) (eeprom_wait_minutes r)).
Definition set_TCC4_CCB (v : Z) : machine -> machine :=
  with_regs (fun r => mkPeriph (TCC4_CNT r) (TCC4_CCA r) v (TCC4_CCC r)
    (CCAINTLVL r) (CCBINTLVL r) (CCCINTLVL r) (PMIC_HILVLEN r)
    (ACC1_IN r) (ACC2_IN r) (V12EN r) (WDT_ENABLE r) (eeprom_wait_minutes r)).
Definition set_TCC4_CCC (v : Z) : machine -> machine :=
  with_regs (fun r => mkPeriph (TCC4_CNT r) (TCC4_CCA r) (TCC4_CCB r) v
    (CCAINTLVL r) (CCBINTLVL r) (CCCINTLVL r) (PMIC_HILVLEN r)
    (ACC1_IN r) (ACC2_IN r) (V12EN r) (WDT_ENABLE r) (eeprom_wait_minutes r)).
Definition set_CCAINTLVL (v : bool) : machine -> machine :=
  with_regs (fun r => mkPeriph (TCC4_CNT r) (TCC4_CCA r) (TCC4_CCB r) (TCC4_CCC r)
    v (CCBINTLVL r) (CCCINTLVL r) (PMIC_HILVLEN r)
    (ACC1_IN r) (ACC2_IN r) (V12EN r) (WDT_ENABLE r) (eeprom_wait_minutes r)).
Definition set_CCBINTLVL (v : bool) : machine -> machine :=
  with_regs (fun r => mkPeriph (TCC4_CNT r) (TCC4_CCA r) (TCC4_CCB r) (TCC4_CCC r)
    (CCAINTLVL r) v (CCCINTLVL r) (PMIC_HILVLEN r)
    (ACC1_IN r) (ACC2_IN r) (V12EN r) (WDT_ENABLE r) (eeprom_wait_minutes r)).
Definition set_CCCINTLVL (v : bool) : machine -> machine :=
  with_regs (fun r => mkPeriph (TCC4_CNT r) (TCC4_CCA r) (TCC4_CCB r) (TCC4_CCC r)
    (CCAINTLVL r) (CCBINTLVL r) v (PMIC_HILVLEN r)
    (ACC1_IN r) (ACC2_IN r) (V12EN r) (WDT_ENABLE r) (eeprom_wait_minutes r)).
Definition set_PMIC_HILVLEN (v : bool) : machine -> machine :=
  with_regs (fun r => mkPeriph (TCC4_CNT r) (TCC4_CCA r) (TCC4_CCB r) (TCC4_CCC r)
    (CCAINTLVL r) (CCBINTLVL r) (CCCINTLVL r) v
    (ACC1_IN r) (ACC2_IN r) (V12EN r) (WDT_ENABLE r) (eeprom_wait_minutes r)).
Definition set_ACC1_IN (v : bool) : machine -> machine :=
  with_regs (fun r => mkPeriph (TCC4_CNT r) (TCC4_CCA r) (TCC4_CCB r) (TCC4_CCC r)
    (CCAINTLVL r) (CCBINTLVL r) (CCCINTLVL r) (PMIC_HILVLEN r)
    v (ACC2_IN r) (V12EN r) (WDT_ENABLE r) (eeprom_wait_minutes r)).
Definition set_ACC2_IN (v : bool) : machine -> machine :=
  with_regs (fun r => mkPeriph (TCC4_CNT r) (TCC4_CCA r) (TCC4_CCB r) (TCC4_CCC r)
    (CCAINTLVL r) (CCBINTLVL r) (CCCINTLVL r) (PMIC_HILVLEN r)
    (ACC1_IN r) v (V12EN r) (WDT_ENABLE r) (eeprom_wait_minutes r)).
Definition set_V12EN (v : bool) : machine -> machine :=
  with_regs (fun r => mkPeriph (TCC4_CNT r) (TCC4_CCA r) (TCC4_CCB r) (TCC4_CCC r)
    (CCAINTLVL r) (CCBINTLVL r) (CCCINTLVL r) (PMIC_HILVLEN r)
    (ACC1_IN r) (ACC2_IN r) v (WDT_ENABLE r) (eeprom_wait_minutes r)).
Definition set_WDT_ENABLE (v : bool) : machine -> machine :=
  with_regs (fun r => mkPeriph (TCC4_CNT r) (TCC4_CCA r) (TCC4_CCB r) (TCC4_CCC r)
    (CCAINTLVL r) (CCBINTLVL r) (CCCINTLVL r) (PMIC_HILVLEN r)
    (ACC1_IN r) (ACC2_IN r) (V12EN r) v (eeprom_wait_minutes r)).
Definition set_eeprom_wait_minutes (v : Z) : machine -> machine :=
  with_regs (fun r => mkPeriph (TCC4_CNT r) (TCC4_CCA r) (TCC4_CCB r) (TCC4_CCC r)
    (CCAINTLVL r) (CCBINTLVL r) (CCCINTLVL r) (PMIC_HILVLEN r)
    (ACC1_IN r) (ACC2_IN r) (V12EN r) (WDT_ENABLE r) v).

(** *** Inferred definitions and library calls *)

Definition V12EN_ON : machine -> machine := set_V12EN true.
Definition V12EN_OFF : machine -> machine := set_V12EN false.
Definition IS_ACC1_ON (m : machine) : bool := ACC1_IN (regs m).
Definition IS_ACC2_ON (m : machine) : bool := ACC2_IN (regs m).

(** avr-libc's watchdog interface: [wdt_enable] and [wdt_disable] switch the
    watchdog on and off; [wdt_reset] is the [wdr] instruction, which restarts
    the watchdog's count and does not touch its enable bit. *)
Definition wdt_enable : machine -> machine := set_WDT_ENABLE true.
Definition wdt_disable : machine -> machine := set_WDT_ENABLE false.
Definition wdt_reset (m : machine) : machine := m.

(** [sleep_mode()] returns when an interrupt wakes the processor; the
    iteration it ends is the unit of execution here. *)
Inductive SLEEP_SMODE : Set := SLEEP_SMODE_IDLE | SLEEP_SMODE_PDOWN.
Definition sleep_mode (mode : SLEEP_SMODE) (m : machine) : machine := m.

Definition eeprom_read_byte (m : machine) : Z := eeprom_wait_minutes (regs m).
Definition eeprom_write_byte (v : Z) : machine -> machine := set_eeprom_wait_minutes v.

(** ** Interrupt handlers *)

(** [ISR(PORTD_INT_vect)]: ACC1 input sense interrupt, any edge. *)
Definition ISR_PORTD_INT (m : machine) : machine :=
  let m := set_TCC4_CCA (u16 (TCC4_CNT (regs m) + TCNT_DEBOUNCE)) m in
  let m := set_CCAINTLVL true m in
  if negb (acc1_last (vol m)) then
    let m := set_acc1_last ON m in
    set_acc1_on_start_time (TCC4_CNT (regs m)) m
  else m.

(** [ISR(PORTA_INT_vect)]: ACC2 input sense interrupt, any edge. *)
Definition ISR_PORTA_INT (m : machine) : machine :=
  let m := set_TCC4_CCB (u16 (TCC4_CNT (regs m) + TCNT_DEBOUNCE)) m in
  let m := set_CCBINTLVL true m in
  if negb (acc2_last (vol m)) then
    let m := set_acc2_last ON m in
    set_acc2_on_start_time (TCC4_CNT (regs m)) m
  else m.

(** [ISR(TCC4_CCA_vect)]: ACC1 de-bounce timer. *)
Definition ISR_TCC4_CCA (m : machine) : machine :=
  let m :=
    if acc1_last (vol m) then
      if negb (IS_ACC1_ON m) then
        let m := set_acc1_last OFF m in
        set_acc1_off_start_time (TCC4_CNT (regs m)) m
      else m
    else m in
  set_CCAINTLVL false m.

(** [ISR(TCC4_CCB_vect)]: ACC2 de-bounce timer. *)
Definition ISR_TCC4_CCB (m : machine) : machine :=
  let m :=
    if acc2_last (vol m) then
      if negb (IS_ACC2_ON m) then
        let m := set_acc2_last OFF m in
        set_acc2_off_start_time (TCC4_CNT (regs m)) m
      else m
    else m in
  set_CCBINTLVL false m.

(** [ISR(TCC4_CCC_vect)]: counts seconds and minutes. *)
Definition ISR_TCC4_CCC (m : machine) : machine :=
  let m := set_TCC4_CCC (u16 (TCC4_CNT (regs m) + TCNT_1_0)) m in
  let m := set_seconds (u8 (seconds (vol m) + 1)) m in
  if seconds (vol m) =? 60 then
    let m := set_seconds 0 m in
    let m := set_minutes (u8 (minutes (vol m) + 1)) m in
    if minutes (vol m) >? 60 then set_minutes 60 m else m
  else m.

(** ** The polling loop *)

(** How a [switch] of the loop body is left: by [break] (execution goes on
    below it) or by [continue] (the iteration ends). *)
Inductive flow : Set := Break | Continue.

(** Lines 129-175: the ON/OFF times, computed with interrupts disabled. *)
Definition snapshot (m : machine) : machine :=
  let m := set_tick_cnt_ms (TCC4_CNT (regs m)) m in
  let m :=
    if acc1_last (vol m) then
      let m := set_acc1_on_time (sub16 (tick_cnt_ms (vars m)) (acc1_on_start_time (vol m))) m in
      if acc1_on_time (vars m) >? TCNT_65_0 then
        let m := set_acc1_on_time TCNT_65_0 m in
        set_acc1_on_start_time (sub16 (tick_cnt_ms (vars m)) TCNT_65_0) m
      else m
    else
      let m := set_acc1_off_time (sub16 (tick_cnt_ms (vars m)) (acc1_off_start_time (vol m))) m in
      if acc1_off_time (vars m) >? TCNT_65_0 then
        let m := set_acc1_off_time TCNT_65_0 m in
        set_acc1_off_start_time (sub16 (tick_cnt_ms (vars m)) TCNT_65_0) m
      else m in
  if acc2_last (vol m) then
    let m := set_acc2_on_time (sub16 (tick_cnt_ms (vars m)) (acc2_on_start_time (vol m))) m in
    if acc2_on_time (vars m) >? TCNT_65_0 then
      let m := set_acc2_on_time TCNT_65_0 m in
      set_acc2_on_start_time (sub16 (tick_cnt_ms (vars m)) TCNT_65_0) m
    else m
  else
    let m := set_acc2_off_time (sub16 (tick_cnt_ms (vars m)) (acc2_off_start_time (vol m))) m in
    if acc2_off_time (vars m) >? TCNT_65_0 then
      let m := set_acc2_off_time TCNT_65_0 m in
      set_acc2_off_start_time (sub16 (tick_cnt_ms (vars m)) TCNT_65_0) m
    else m.

(** Lines 332-437, the [default] case of the power switch: bring-up.  Clock,
    pin-direction and power-reduction settings are outside the modelled
    state; what remains is the switch outputs driven low, the three compare
    interrupts set to high level, the first one-second compare, the
    high-level interrupt enable, and the initial dispatch. *)
Definition power_reset (m : machine) : machine :=
  let m := set_V12EN false m in
  let m := set_CCAINTLVL true m in
  let m := set_CCBINTLVL true m in
  let m := set_CCCINTLVL true m in
  let m := set_TCC4_CCC (u16 (TCC4_CNT (regs m) + TCNT_1_0)) m in
  let m := set_PMIC_HILVLEN true m in
  let m :=
    if IS_ACC1_ON m then
      let m := set_acc1_last ON m in
      if IS_ACC2_ON m then set_power_state SM_POWER_OUT_ON m
      else set_power_state SM_POWER_OUT_OFF m
    else
      let m := set_acc1_last OFF m in
      set_power_state SM_POWER_DOWN m in
  let m := set_seconds 0 m in
  let m := set_minutes 0 m in
  let m := set_wait_minutes (eeprom_read_byte m) m in
  wdt_enable m.

(** Lines 179-438: the power state machine. *)
Definition power_sm (m : machine) : machine * flow :=
  match power_state (vars m) with
  | SM_POWER_DOWN =>
      let m := V12EN_OFF m in
      if acc1_last (vol m) then
        if acc2_last (vol m) then (set_power_state SM_POWER_OUT_ON m, Break)
        else (set_power_state SM_POWER_OUT_OFF m, Break)
      else
        let m := wdt_disable m in
        let m := sleep_mode SLEEP_SMODE_PDOWN m in
        let m := wdt_enable m in
        (m, Continue)
  | SM_POWER_OUT_OFF =>
      let m := V12EN_OFF m in
      if negb (acc1_last (vol m)) then (set_power_state SM_POWER_DOWN m, Break)
      else if acc2_last (vol m) then (set_power_state SM_POWER_OUT_ON m, Break)
      else (m, Break)
  | SM_POWER_OUT_ON =>
      let m :=
        match prog_state (vars m) with
        | SM_PROG_IND_OFF => V12EN_OFF m
        | _ => V12EN_ON m
        end in
      if negb (acc1_last (vol m)) then (set_power_state SM_POWER_DOWN m, Break)
      else if negb (acc2_last (vol m)) then (set_power_state SM_POWER_OUT_OFF m, Break)
      else (m, Break)
  | SM_POWER_OUT_STAY_ON =>
      let m :=
        match prog_state (vars m) with
        | SM_PROG_IND_OFF => V12EN_OFF m
        | _ => V12EN_ON m
        end in
      if negb (acc1_last (vol m)) then
        let m := set_power_state SM_POWER_TIMER m in
        let m := set_minutes 0 m in
        let m := set_seconds 0 m in
        let m := set_TCC4_CCC (u16 (TCC4_CNT (regs m) + TCNT_1_0)) m in
        (m, Break)
      else if negb (acc2_last (vol m)) then
        if acc2_off_time (vars m) >? TCNT_0_5 then (set_power_state SM_POWER_OUT_OFF m, Break)
        else (m, Break)
      else (m, Break)
  | SM_POWER_TIMER =>
      let m := V12EN_ON m in
      if acc1_last (vol m) then
        if acc2_last (vol m) then (set_power_state SM_POWER_OUT_ON m, Break)
        else (set_power_state SM_POWER_OUT_OFF m, Break)
      else if minutes (vol m) >=? wait_minutes (vars m) then
        (set_power_state SM_POWER_DOWN m, Break)
      else
        let m := wdt_disable m in
        let m := sleep_mode SLEEP_SMODE_IDLE m in
        (m, Continue)
  | SM_POWER_RESET => (power_reset m, Continue)
  end.

(** Lines 449-495: the stay-on state machine. *)
Definition stayon_sm (m : machine) : machine :=
  match stayon_state (vars m) with
  | SM_STAYON_WAIT_ON =>
      if acc2_on_time (vars m) >? TCNT_3_0 then set_stayon_state SM_STAYON_RESET m
      else if negb (acc2_last (vol m)) then set_stayon_state SM_STAYON_WAIT_OFF m
      else m
  | SM_STAYON_WAIT_OFF =>
      if acc2_off_time (vars m) >? TCNT_3_0 then set_stayon_state SM_STAYON_RESET m
      else if acc2_last (vol m) then
        let m := set_stayon_state SM_STAYON_RESET m in
        set_power_state SM_POWER_OUT_STAY_ON m
      else m
  | SM_STAYON_RESET =>
      if acc1_last (vol m) then
        if acc2_last (vol m) then set_stayon_state SM_STAYON_WAIT_ON m else m
      else m
  end.

(** Lines 498-635: the programming state machine. *)
Definition prog_sm (m : machine) : machine :=
  match prog_state (vars m) with
  | SM_PROG_FLASH_ON =>
      if acc2_on_time (vars m) >? TCNT_3_0 then set_prog_state SM_PROG_RESET m
      else if negb (acc2_last (vol m)) then
        let m := set_flash_count (u8 (flash_count (vars m) + 1)) m in
        set_prog_state SM_PROG_FLASH_OFF m
      else m
  | SM_PROG_FLASH_OFF =>
      if acc2_off_time (vars m) >? TCNT_7_0 then set_prog_state SM_PROG_RESET m
      else if acc2_last (vol m) then
        if acc2_off_time (vars m) >? TCNT_4_0 then set_prog_state SM_PROG_END_ON m
        else if acc2_off_time (vars m) >? TCNT_3_0 then set_prog_state SM_PROG_RESET m
        else set_prog_state SM_PROG_FLASH_ON m
      else m
  | SM_PROG_END_ON =>
      if acc2_on_time (vars m) >? TCNT_7_0 then set_prog_state SM_PROG_RESET m
      else if negb (acc2_last (vol m)) then
        if acc2_on_time (vars m) >? TCNT_4_0 then set_prog_state SM_PROG_END_OFF m
        else set_prog_state SM_PROG_RESET m
      else m
  | SM_PROG_END_OFF =>
      if acc2_off_time (vars m) >? TCNT_7_0 then set_prog_state SM_PROG_RESET m
      else if acc2_last (vol m) then
        if acc2_off_time (vars m) >? TCNT_4_0 then
          let m := if flash_count (vars m) >? 25 then set_flash_count 25 m else m in
          let m := set_flash_count (u8 (flash_count (vars m) * 10)) m in
          let m := eeprom_write_byte (flash_count (vars m)) m in
          let m := set_wait_minutes (flash_count (vars m)) m in
          set_prog_state SM_PROG_IND_ON m
        else set_prog_state SM_PROG_RESET m
      else m
  | SM_PROG_IND_ON =>
      if negb (acc2_last (vol m)) then set_prog_state SM_PROG_RESET m
      else if acc2_on_time (vars m) >? TCNT_2_0 then set_prog_state SM_PROG_IND_OFF m
      else m
  | SM_PROG_IND_OFF =>
      if negb (acc2_last (vol m)) then set_prog_state SM_PROG_RESET m
      else if acc2_on_time (vars m) >? TCNT_3_0 then set_prog_state SM_PROG_RESET m
      else m
  | SM_PROG_RESET =>
      if acc1_on_time (vars m) <=? TCNT_60_0 then
        if acc2_last (vol m) then
          let m := set_flash_count 0 m in
          set_prog_state SM_PROG_FLASH_ON m
        else m
      else m
  end.

(** Lines 439-446: the two sequence machines do not run while ACC1 is OFF. *)
Definition acc1_gate (m : machine) : machine * flow :=
  if negb (acc1_last (vol m)) then
    let m := set_stayon_state SM_STAYON_RESET m in
    let m := set_prog_state SM_PROG_RESET m in
    (m, Continue)
  else (m, Break).

(** One iteration of [while (TRUE)] in which no interrupt is served between
    [sei()] (line 175) and the end of the iteration. *)
Definition loop_body (m : machine) : machine :=
  let m := wdt_reset m in
  let m := snapshot m in
  let (m, f) := power_sm m in
  match f with
  | Continue => m
  | Break =>
      let (m, f) := acc1_gate m in
      match f with
      | Continue => m
      | Break =>
          let m := stayon_sm m in
          prog_sm m
      end
  end.

(** ** The environment *)

(** What can happen to the machine: the 1 ms event that clocks TCC4, a level
    change on either sense pin, and one iteration of the polling loop. *)
Inductive event : Set :=
| Tick
| ACC1_edge
| ACC2_edge
| Poll.

(** A compare interrupt of TCC4 is taken when the counter reaches the compare
    value while the channel's interrupt level and the controller's high level
    are enabled. *)
Definition TCC4_count (m : machine) : machine :=
  set_TCC4_CNT (u16 (TCC4_CNT (regs m) + 1)) m.

Definition CCA_interrupt (m : machine) : machine :=
  if PMIC_HILVLEN (regs m) && CCAINTLVL (regs m) && (TCC4_CNT (regs m) =? TCC4_CCA (regs m))
  then ISR_TCC4_CCA m else m.

Definition CCB_interrupt (m : machine) : machine :=
  if PMIC_HILVLEN (regs m) && CCBINTLVL (regs m) && (TCC4_CNT (regs m) =? TCC4_CCB (regs m))
  then ISR_TCC4_CCB m else m.

Definition CCC_interrupt (m : machine) : machine :=
  if PMIC_HILVLEN (regs m) && CCCINTLVL (regs m) && (TCC4_CNT (regs m) =? TCC4_CCC (regs m))
  then ISR_TCC4_CCC m else m.

(** One tick of the 1 ms event: the counter advances, then the compare
    channels are served. *)
Definition tick (m : machine) : machine :=
  CCC_interrupt (CCB_interrupt (CCA_interrupt (TCC4_count m))).

(** A pin change raises the port interrupt (both edges are sensed) once
    bring-up has enabled high-level interrupts. *)
Definition acc1_edge (m : machine) : machine :=
  let m := set_ACC1_IN (negb (ACC1_IN (regs m))) m in
  if PMIC_HILVLEN (regs m) then ISR_PORTD_INT m else m.

Definition acc2_edge (m : machine) : machine :=
  let m := set_ACC2_IN (negb (ACC2_IN (regs m))) m in
  if PMIC_HILVLEN (regs m) then ISR_PORTA_INT m else m.

Definition step (e : event) (m : machine) : machine :=
  match e with
  | Tick => tick m
  | ACC1_edge => acc1_edge m
  | ACC2_edge => acc2_edge m
  | Poll => loop_body m
  end.

(** Events in chronological order. *)
Fixpoint run (evs : list event) (m : machine) : machine :=
  match evs with
  | [] => m
  | e :: evs' => run evs' (step e m)
  end.

(** ** Interrupts inside an iteration

    [sei()] at line 175 re-enables interrupts before the switches run, and
    the switches read [acc1_last] and [acc2_last] again.  [serve] runs the
    handlers of the ticks and edges that are served at one such point (a
    poll cycle does not nest, [Poll] is skipped). *)
Fixpoint serve (evs : list event) (m : machine) : machine :=
  match evs with
  | [] => m
  | Poll :: evs' => serve evs' m
  | e :: evs' => serve evs' (step e m)
  end.

(** One iteration of [while (TRUE)] with the events [a] served after the
    snapshot's [sei()], [b] after the power switch and [c] after the stay-on
    switch. *)
Definition iteration (a b c : list event) (m : machine) : machine :=
  let m := wdt_reset m in
  let m := snapshot m in
  let m := serve a m in
  let (m, f) := power_sm m in
  match f with
  | Continue => m
  | Break =>
      let m := serve b m in
      let (m, f) := acc1_gate m in
      match f with
      | Continue => m
      | Break =>
          let m := stayon_sm m in
          let m := serve c m in
          prog_sm m
      end
  end.

(** The machine on entry to [while (TRUE)]: statics and the initialised
    locals are zero, registers hold their reset values, the watchdog has just
    been disabled.  The pin levels [a1], [a2], the EEPROM byte [ee] and the
    indeterminate initial [wait_minutes] [w0] are free. *)
Definition boot (a1 a2 : bool) (ee w0 : Z) : machine :=
  mkMachine
    (mkLocals SM_POWER_RESET SM_STAYON_RESET SM_PROG_RESET w0 0 0 0 0 0 0)
    (mkGlobals 0 0 false 0 0 false 0 0)
    (mkPeriph 0 0 0 0 false false false false a1 a2 false false ee).

Inductive reachable : machine -> Prop :=
| reach_boot (a1 a2 : bool) (ee w0 : Z) :
    0 <= ee < 256 -> reachable (boot a1 a2 ee w0)
| reach_step (e : event) (m : machine) :
    reachable m -> reachable (step e m).

(** * Vocabulary of the statements *)

(** ** What a stage may assign

    A list of assignments stands for the set of fields a stage of the loop
    body or a handler may write; [clear] overwrites them all, so that two
    machines that agree after [clear] differ at most on those fields. *)

Definition clear (ws : list (machine -> machine)) (m : machine) : machine :=
  fold_right (fun w x => w x) m ws.

Definition snapshot_writes : list (machine -> machine) :=
  [set_tick_cnt_ms 0; set_acc1_on_time 0; set_acc1_off_time 0;
   set_acc2_on_time 0; set_acc2_off_time 0;
   set_acc1_on_start_time 0; set_acc1_off_start_time 0;
   set_acc2_on_start_time 0; set_acc2_off_start_time 0].

Definition power_sm_writes : list (machine -> machine) :=
  [set_power_state SM_POWER_RESET; set_seconds 0; set_minutes 0;
   set_V12EN false; set_WDT_ENABLE false; set_TCC4_CCC 0].

Definition power_reset_writes : list (machine -> machine) :=
  power_sm_writes ++
  [set_wait_minutes 0; set_acc1_last false; set_CCAINTLVL false;
   set_CCBINTLVL false; set_CCCINTLVL false; set_PMIC_HILVLEN false].

Definition acc1_gate_writes : list (machine -> machine) :=
  [set_stayon_state SM_STAYON_RESET; set_prog_state SM_PROG_RESET].

Definition stayon_sm_writes : list (machine -> machine) :=
  [set_stayon_state SM_STAYON_RESET; set_power_state SM_POWER_RESET].

Definition prog_sm_writes : list (machine -> machine) :=
  [set_prog_state SM_PROG_RESET; set_flash_count 0; set_wait_minutes 0;
   set_eeprom_wait_minutes 0].

Definition PORTD_INT_writes : list (machine -> machine) :=
  [set_TCC4_CCA 0; set_CCAINTLVL false; set_acc1_last false; set_acc1_on_start_time 0].

Definition PORTA_INT_writes : list (machine -> machine) :=
  [set_TCC4_CCB 0; set_CCBINTLVL false; set_acc2_last false; set_acc2_on_start_time 0].

Definition TCC4_CCA_writes : list (machine -> machine) :=
  [set_acc1_last false; set_acc1_off_start_time 0; set_CCAINTLVL false].

Definition TCC4_CCB_writes : list (machine -> machine) :=
  [set_acc2_last false; set_acc2_off_start_time 0; set_CCBINTLVL false].

Definition TCC4_CCC_writes : list (machine -> machine) :=
  [set_TCC4_CCC 0; set_seconds 0; set_minutes 0].

Definition acc1_edge_writes : list (machine -> machine) :=
  set_ACC1_IN false :: PORTD_INT_writes.

Definition acc2_edge_writes : list (machine -> machine) :=
  set_ACC2_IN false :: PORTA_INT_writes.

(** ** The paths through one iteration *)

(** The machine handed to the sequence machines: after the snapshot and the
    power switch. *)
Definition after_power (m : machine) : machine := fst (power_sm (snapshot m)).

(** The iterations that end inside the power switch: bring-up, the
    power-down sleep and the idle sleep. *)
Definition ends_in_power_sm (m : machine) : Prop :=
  power_state (vars m) = SM_POWER_RESET \/
  (power_state (vars m) = SM_POWER_DOWN /\ acc1_last (vol m) = false) \/
  (power_state (vars m) = SM_POWER_TIMER /\ acc1_last (vol m) = false /\
   minutes (vol m) < wait_minutes (vars m)).

(** ** Durations *)

(** What the snapshot does with one anchor: [d'] is the duration it stores
    and [a'] the anchor it leaves, from the tick [now] and the anchor [a]. *)
Definition measured (now a d' a' : Z) : Prop :=
  0 <= d' <= TCNT_65_0 /\
  (sub16 now a > TCNT_65_0 -> d' = TCNT_65_0 /\ a' = sub16 now TCNT_65_0) /\
  (sub16 now a <= TCNT_65_0 -> d' = sub16 now a /\ a' = a).

(** The duration a poll cycle computes for input 1 and for input 2: the ON
    time when the level is ON, the OFF time when it is OFF. *)
Definition acc1_active_time (level : bool) (m : machine) : Z :=
  if level then acc1_on_time (vars m) else acc1_off_time (vars m).

Definition acc2_active_time (level : bool) (m : machine) : Z :=
  if level then acc2_on_time (vars m) else acc2_off_time (vars m).

Definition acc1_active_anchor (level : bool) (m : machine) : Z :=
  if level then acc1_on_start_time (vol m) else acc1_off_start_time (vol m).

Definition acc2_active_anchor (level : bool) (m : machine) : Z :=
  if level then acc2_on_start_time (vol m) else acc2_off_start_time (vol m).

(** ** Invariants of the reachable machines *)

(** Until bring-up has run nothing has happened yet: interrupts are off,
    both latched levels and both sequence machines are at their initial
    values.  Afterwards high-level interrupts stay enabled.  The sequence
    machines are in reset whenever the power machine is in
    [SM_POWER_DOWN] or [SM_POWER_TIMER], and the clock counters stay in
    range. *)
Definition inv (m : machine) : Prop :=
  (power_state (vars m) = SM_POWER_RESET ->
     acc1_last (vol m) = false /\ acc2_last (vol m) = false /\
     PMIC_HILVLEN (regs m) = false /\
     stayon_state (vars m) = SM_STAYON_RESET /\ prog_state (vars m) = SM_PROG_RESET) /\
  (power_state (vars m) <> SM_POWER_RESET -> PMIC_HILVLEN (regs m) = true) /\
  (power_state (vars m) = SM_POWER_DOWN \/ power_state (vars m) = SM_POWER_TIMER ->
     stayon_state (vars m) = SM_STAYON_RESET /\ prog_state (vars m) = SM_PROG_RESET) /\
  0 <= minutes (vol m) <= 60 /\
  0 <= seconds (vol m) < 60.

(** ** The end of the programming sequence *)

(** The byte the end sequence stores for a flash count [fc]. *)
Definition minutes_of_flashes (fc : Z) : Z :=
  u8 ((if fc >? 25 then 25 else fc) * 10).

(** ** Runs *)

(** [n] milliseconds of operation: every timer tick is followed by one
    iteration of the polling loop. *)
Fixpoint ms (n : nat) : list event :=
  match n with
  | O => []
  | S n' => Tick :: Poll :: ms n'
  end.

(** ACC2 changes level and keeps the new level for [n] milliseconds. *)
Definition acc2_for (n : nat) : list event := ACC2_edge :: Poll :: ms n.

(** One flash: ACC2 ON for 100 ms, then OFF for [gap] milliseconds. *)
Definition flash (gap : nat) : list event := acc2_for 100 ++ acc2_for gap.

(** [n] flashes, 100 ms ON and 100 ms OFF each. *)
Fixpoint flashes (n : nat) : list event :=
  match n with
  | O => []
  | S n' => flash 100 ++ flashes n'
  end.

(** The end of a programming sequence: ON 5 s, OFF 5 s, ON. *)
Definition confirm : list event :=
  acc2_for 5000 ++ acc2_for 5000 ++ [ACC2_edge; Poll].

(** A whole programming session of [n + 1] flashes, from power-up with ACC1
    already ON and ACC2 OFF: bring-up, [n] flashes 100 ms apart, a last flash
    followed by 5 s of OFF, and the end sequence. *)
Definition program (n : nat) : list event :=
  Poll :: flashes n ++ flash 5000 ++ confirm.

Definition programmed (n : nat) : machine :=
  run (program n) (boot true false 30 0).

(** A session that ends in [SM_POWER_OUT_STAY_ON]: bring-up with ACC1 ON,
    then the stay-on gesture on ACC2. *)
Definition stay_on_session : list event :=
  Poll :: acc2_for 100 ++ acc2_for 100 ++ acc2_for 100.

(** A stay-on gesture with an OFF phase of 1 s, ACC2 then ON for 4 s, and a
    fall of its pin that is 49 ms old and not yet de-bounced. *)
Definition stay_on_dropout : list event :=
  Poll :: acc2_for 100 ++ acc2_for 1000 ++ acc2_for 4000 ++ ACC2_edge :: ms 49.

Definition POWER_SM_eqb (a b : POWER_SM) : bool :=
  match a, b with
  | SM_POWER_RESET, SM_POWER_RESET
  | SM_POWER_DOWN, SM_POWER_DOWN
  | SM_POWER_OUT_OFF, SM_POWER_OUT_OFF
  | SM_POWER_OUT_ON, SM_POWER_OUT_ON
  | SM_POWER_OUT_STAY_ON, SM_POWER_OUT_STAY_ON
  | SM_POWER_TIMER, SM_POWER_TIMER => true
  | _, _ => false
  end.

(** Whether the power machine is in state [p] after some event of a run. *)
Fixpoint visits (p : POWER_SM) (evs : list event) (m : machine) : bool :=
  match evs with
  | [] => false
  | e :: evs' =>
      POWER_SM_eqb (power_state (vars (step e m))) p || visits p evs' (step e m)
  end.

(** ** The watchdog *)

(** The poll cycles that call [wdt_enable]: bring-up and the wake-up from
    the power-down sleep. *)
Definition enables_wdt (e : event) (m : machine) : bool :=
  match e with
  | Poll =>
      match power_state (vars m) with
      | SM_POWER_RESET => true
      | SM_POWER_DOWN => negb (acc1_last (vol m))
      | _ => false
      end
  | _ => false
  end.

(** The poll cycles that take the idle sleep of [SM_POWER_TIMER]. *)
Definition idle_sleeps (m : machine) : Prop :=
  power_state (vars m) = SM_POWER_TIMER /\ acc1_last (vol m) = false /\
  minutes (vol m) < wait_minutes (vars m).

(** No event of the run is a cycle that calls [wdt_enable]. *)
Fixpoint no_wdt_enable (evs : list event) (m : machine) : bool :=
  match evs with
  | [] => true
  | e :: evs' => negb (enables_wdt e m) && no_wdt_enable evs' (step e m)
  end.

(** ** The input channels *)

(** The two input channels and, for each, its part of the machine: the
    latched level and its two anchors, the raw pin, and the compare channel of
    TCC4 that serves as its de-bounce timer. *)
Inductive input : Set := ACC1 | ACC2.

Definition level (i : input) (m : machine) : bool :=
  match i with ACC1 => acc1_last (vol m) | ACC2 => acc2_last (vol m) end.

Definition on_start (i : input) (m : machine) : Z :=
  match i with ACC1 => acc1_on_start_time (vol m) | ACC2 => acc2_on_start_time (vol m) end.

Definition off_start (i : input) (m : machine) : Z :=
  match i with ACC1 => acc1_off_start_time (vol m) | ACC2 => acc2_off_start_time (vol m) end.

Definition pin (i : input) (m : machine) : bool :=
  match i with ACC1 => IS_ACC1_ON m | ACC2 => IS_ACC2_ON m end.

Definition compare (i : input) (m : machine) : Z :=
  match i with ACC1 => TCC4_CCA (regs m) | ACC2 => TCC4_CCB (regs m) end.

Definition armed (i : input) (m : machine) : bool :=
  match i with ACC1 => CCAINTLVL (regs m) | ACC2 => CCBINTLVL (regs m) end.

Definition edge (i : input) : event :=
  match i with ACC1 => ACC1_edge | ACC2 => ACC2_edge end.

Definition port_ISR (i : input) : machine -> machine :=
  match i with ACC1 => ISR_PORTD_INT | ACC2 => ISR_PORTA_INT end.

Definition debounce_ISR (i : input) : machine -> machine :=
  match i with ACC1 => ISR_TCC4_CCA | ACC2 => ISR_TCC4_CCB end.

(** Whether the tick that has just advanced the counter of [x] raises the
    de-bounce interrupt of channel [i]. *)
Definition debounce_fires (i : input) (x : machine) : bool :=
  PMIC_HILVLEN (regs x) && armed i x && (TCC4_CNT (regs x) =? compare i x).

Definition debounce_interrupt (i : input) : machine -> machine :=
  match i with ACC1 => CCA_interrupt | ACC2 => CCB_interrupt end.

(** The number of ticks since the last level change of input [i], if there
    has been one: how one event changes it, its value after a list of
    events, and its value after a whole run. *)
Definition advance (i : input) (q : option nat) (e : event) : option nat :=
  match e with
  | Tick => option_map S q
  | ACC1_edge => match i with ACC1 => Some O | ACC2 => q end
  | ACC2_edge => match i with ACC1 => q | ACC2 => Some O end
  | Poll => q
  end.

Fixpoint since_edge (i : input) (q : option nat) (evs : list event) : option nat :=
  match evs with
  | [] => q
  | e :: evs' => since_edge i (advance i q e) evs'
  end.

Definition quiet_ticks (i : input) (evs : list event) : option nat :=
  since_edge i None evs.

(** While the latched level is ON and the pin reads low, an edge has
    occurred, and for 50 ticks after it the de-bounce compare is armed at the
    tick of that edge plus 50. *)
Definition pending (i : input) (m : machine) (q : option nat) : Prop :=
  level i m = true -> pin i m = false ->
  exists k, q = Some k /\
    ((k < 50)%nat ->
       PMIC_HILVLEN (regs m) = true /\ armed i m = true /\
       compare i m = u16 (TCC4_CNT (regs m) + TCNT_DEBOUNCE - Z.of_nat k)).

(** ** Bring-up *)

(** The number of poll cycles of a run that execute bring-up. *)
Fixpoint bring_ups (evs : list event) (m : machine) : nat :=
  match evs with
  | [] => O
  | e :: evs' =>
      (match e, power_state (vars m) with
       | Poll, SM_POWER_RESET => 1
       | _, _ => 0
       end + bring_ups evs' (step e m))%nat
  end.

(** ** The power machine *)

(** Where the initial dispatch and every wake-up send the power machine:
    by the two latched levels. *)
Definition dispatch (l1 l2 : bool) : POWER_SM :=
  if l1 then if l2 then SM_POWER_OUT_ON else SM_POWER_OUT_OFF else SM_POWER_DOWN.

(** Whether the stay-on machine of [m] completes the gesture on the levels
    and durations of [m]. *)
Definition gesture_completes (m : machine) : bool :=
  match stayon_state (vars m) with
  | SM_STAYON_WAIT_OFF =>
      negb (acc2_off_time (vars m) >? TCNT_3_0) && acc2_last (vol m)
  | _ => false
  end.

(** ** The stay-on timer *)

(** A run without edges on input [i]. *)
Definition is_edge (i : input) (e : event) : bool :=
  match i, e with
  | ACC1, ACC1_edge | ACC2, ACC2_edge => true
  | _, _ => false
  end.

Definition quiet (i : input) (evs : list event) : bool :=
  forallb (fun e => negb (is_edge i e)) evs.

(** A run without poll cycles. *)
Definition is_Poll (e : event) : bool :=
  match e with Poll => true | _ => false end.

Definition unpolled (evs : list event) : bool :=
  forallb (fun e => negb (is_Poll e)) evs.

(** The number of timer ticks in a list of events. *)
Fixpoint ticks (evs : list event) : Z :=
  match evs with
  | [] => 0
  | Tick :: evs' => 1 + ticks evs'
  | _ :: evs' => ticks evs'
  end.

(** The machine is timing a stay-on period of [w] minutes, [s] whole seconds
    and [r] further ticks after it began: ACC1 is OFF, the clock shows [s]
    (saturated at 60 minutes), and the one-second compare is due [1000 - r]
    ticks from now. *)
Definition timing (w : Z) (m : machine) (s r : Z) : Prop :=
  power_state (vars m) = SM_POWER_TIMER /\ acc1_last (vol m) = false /\
  PMIC_HILVLEN (regs m) = true /\ CCCINTLVL (regs m) = true /\
  wait_minutes (vars m) = w /\
  0 <= s /\ 0 <= r < 1000 /\
  seconds (vol m) = s mod 60 /\ minutes (vol m) = Z.min 60 (s / 60) /\
  TCC4_CCC (regs m) = u16 (TCC4_CNT (regs m) + TCNT_1_0 - r).

(** The machine has powered down and ACC1 is still OFF. *)
Definition down_idle (m : machine) : Prop :=
  power_state (vars m) = SM_POWER_DOWN /\ acc1_last (vol m) = false.

(** ** Durations *)

(** The anchor of the current level of input [i], and the duration the last
    poll cycle computed for it. *)
Definition anchor (i : input) (m : machine) : Z :=
  if level i m then on_start i m else off_start i m.

Definition duration (i : input) (m : machine) : Z :=
  match i with
  | ACC1 => acc1_active_time (acc1_last (vol m)) m
  | ACC2 => acc2_active_time (acc2_last (vol m)) m
  end.

(** ** De-bouncing *)

(** Input [i] is being de-bounced: latched ON with the pin reading low, [k]
    ticks after the edge, the de-bounce compare armed and due [50 - k] ticks
    from now. *)
Definition debouncing (i : input) (m : machine) (k : Z) : Prop :=
  power_state (vars m) <> SM_POWER_RESET /\
  level i m = true /\ pin i m = false /\
  armed i m = true /\ PMIC_HILVLEN (regs m) = true /\
  0 <= k < TCNT_DEBOUNCE /\
  compare i m = u16 (TCC4_CNT (regs m) + TCNT_DEBOUNCE - k).

(** ** The de-bounce timer *)

(** Input [i] has seen an edge [k] ticks ago and none since: it is latched
    ON, and its de-bounce compare is armed and due [50 - k] ticks from
    now. *)
Definition rearmed (i : input) (m : machine) (k : Z) : Prop :=
  power_state (vars m) <> SM_POWER_RESET /\
  level i m = true /\ armed i m = true /\ PMIC_HILVLEN (regs m) = true /\
  0 <= k < TCNT_DEBOUNCE /\
  compare i m = u16 (TCC4_CNT (regs m) + TCNT_DEBOUNCE - k).

(** The de-bounce compare of input [i] has expired and is disarmed; the
    level is what the pin read at the expiry. *)
Definition settled (i : input) (m : machine) : Prop :=
  power_state (vars m) <> SM_POWER_RESET /\
  armed i m = false /\ level i m = pin i m.

(** * Verification *)

Arguments u8 : simpl never.
Arguments u16 : simpl never.
Arguments sub16 : simpl never.

(** ** The tick counts of the program's durations *)

Lemma MAIN_TCNT_values :
  MAIN_TCNT_FROM_SECONDS DEBOUNCE_TIME = 50 /\
  MAIN_TCNT_FROM_SECONDS 0.5 = 500 /\
  MAIN_TCNT_FROM_SECONDS 1.0 = 1000 /\
  MAIN_TCNT_FROM_SECONDS 2.0 = 2000 /\
  MAIN_TCNT_FROM_SECONDS 3.0 = 3000 /\
  MAIN_TCNT_FROM_SECONDS 4.0 = 4000 /\
  MAIN_TCNT_FROM_SECONDS 7.0 = 7000 /\
  MAIN_TCNT_FROM_SECONDS 60.0 = 60000 /\
  MAIN_TCNT_FROM_SECONDS 65.0 = 65000.
Proof. vm_compute. repeat split. Qed.

Lemma TCNT_values :
  TCNT_DEBOUNCE = 50 /\ TCNT_0_5 = 500 /\ TCNT_1_0 = 1000 /\ TCNT_2_0 = 2000 /\
  TCNT_3_0 = 3000 /\ TCNT_4_0 = 4000 /\ TCNT_7_0 = 7000 /\
  TCNT_60_0 = 60000 /\ TCNT_65_0 = 65000.
Proof. repeat split. Qed.

(** ** Proof tools *)

Ltac destruct_machine m :=
  destruct m as [[ps ss gs wm a1on a1off a2on a2off tk fc]
                 [sec mn l1 s1on s1off l2 s2on s2off]
                 [cnt cca ccb ccc ea eb ec hi p1 p2 v wd ee]].

(** Case analysis on every [if] and on every [match] over a variable that
    the goal is stuck on. *)
Ltac split_matches :=
  repeat match goal with
         | |- context [if ?b then _ else _] => destruct b eqn:?; cbn in *
         | |- context [match ?x with _ => _ end] => is_var x; destruct x; cbn in *
         end.

(** Bring-up in one piece: the fields of the machine after [power_reset]. *)
Lemma power_reset_eq m :
  power_reset m =
  mkMachine
    (mkLocals
       (if ACC1_IN (regs m)
        then if ACC2_IN (regs m) then SM_POWER_OUT_ON else SM_POWER_OUT_OFF
        else SM_POWER_DOWN)
       (stayon_state (vars m)) (prog_state (vars m)) (eeprom_wait_minutes (regs m))
       (acc1_on_time (vars m)) (acc1_off_time (vars m))
       (acc2_on_time (vars m)) (acc2_off_time (vars m))
       (tick_cnt_ms (vars m)) (flash_count (vars m)))
    (mkGlobals 0 0 (ACC1_IN (regs m))
       (acc1_on_start_time (vol m)) (acc1_off_start_time (vol m))
       (acc2_last (vol m)) (acc2_on_start_time (vol m)) (acc2_off_start_time (vol m)))
    (mkPeriph (TCC4_CNT (regs m)) (TCC4_CCA (regs m)) (TCC4_CCB (regs m))
       (u16 (TCC4_CNT (regs m) + TCNT_1_0)) true true true true
       (ACC1_IN (regs m)) (ACC2_IN (regs m)) false true (eeprom_wait_minutes (regs m))).
Proof.
  destruct_machine m. destruct p1, p2; reflexivity.
Qed.

Arguments power_reset : simpl never.

(** ** Frames

    What each stage of the loop body and each handler may assign.  A frame
    lemma says that two machines agree once the assigned fields are
    overwritten ([clear]) on both sides; the tactic [frame] uses them to
    carry the value of an untouched field across a stage. *)

Ltac frame_tac f :=
  intros;
  match goal with m : machine |- _ => destruct_machine m end;
  unfold f; rewrite ?power_reset_eq; cbn in *; split_matches;
  try reflexivity; try congruence.

Lemma snapshot_frame m :
  clear snapshot_writes (snapshot m) = clear snapshot_writes m.
Proof. frame_tac snapshot. Qed.

Lemma power_sm_frame m :
  power_state (vars m) <> SM_POWER_RESET ->
  clear power_sm_writes (fst (power_sm m)) = clear power_sm_writes m.
Proof. frame_tac power_sm. Qed.

Lemma power_reset_frame m :
  clear power_reset_writes (fst (power_sm m)) = clear power_reset_writes m.
Proof. frame_tac power_sm. Qed.

Lemma acc1_gate_frame m :
  clear acc1_gate_writes (fst (acc1_gate m)) = clear acc1_gate_writes m.
Proof. frame_tac acc1_gate. Qed.

Lemma stayon_sm_frame m :
  clear stayon_sm_writes (stayon_sm m) = clear stayon_sm_writes m.
Proof. frame_tac stayon_sm. Qed.

Lemma prog_sm_frame m :
  clear prog_sm_writes (prog_sm m) = clear prog_sm_writes m.
Proof. frame_tac prog_sm. Qed.

Lemma ISR_PORTD_INT_frame m :
  clear PORTD_INT_writes (ISR_PORTD_INT m) = clear PORTD_INT_writes m.
Proof. frame_tac ISR_PORTD_INT. Qed.

Lemma ISR_PORTA_INT_frame m :
  clear PORTA_INT_writes (ISR_PORTA_INT m) = clear PORTA_INT_writes m.
Proof. frame_tac ISR_PORTA_INT. Qed.

Lemma ISR_TCC4_CCA_frame m :
  clear TCC4_CCA_writes (ISR_TCC4_CCA m) = clear TCC4_CCA_writes m.
Proof. frame_tac ISR_TCC4_CCA. Qed.

Lemma ISR_TCC4_CCB_frame m :
  clear TCC4_CCB_writes (ISR_TCC4_CCB m) = clear TCC4_CCB_writes m.
Proof. frame_tac ISR_TCC4_CCB. Qed.

Lemma ISR_TCC4_CCC_frame m :
  clear TCC4_CCC_writes (ISR_TCC4_CCC m) = clear TCC4_CCC_writes m.
Proof. frame_tac ISR_TCC4_CCC. Qed.

(** [frame] rewrites [p (g (stage x))] to [p (g x)] wherever the frame lemma
    of the stage shows that field [p] of component [g] is not assigned.  The
    equation is first proved for a variable in place of [x]. *)
Ltac frame_rw p g S x L :=
  let E := fresh "E" in
  assert (E : forall y, p (g (S y)) = p (g y))
    by (let y := fresh "y" in intro y; exact (f_equal (fun z => p (g z)) (L y)));
  cbv beta in E; rewrite (E x); clear E.

Ltac frame_rw_if p g S x L H :=
  let E := fresh "E" in
  assert (E : forall y, power_state (vars y) <> SM_POWER_RESET -> p (g (S y)) = p (g y))
    by (let y := fresh "y" in let Hy := fresh "Hy" in
        intros y Hy; exact (f_equal (fun z => p (g z)) (L y Hy)));
  cbv beta in E; rewrite (E x H); clear E.

Ltac frame_at S x L :=
  let t := eval cbv beta in (S x) in
  match goal with
  | |- context [?p (vars t)] => frame_rw p vars S x L
  | |- context [?p (vol t)] => frame_rw p vol S x L
  | |- context [?p (regs t)] => frame_rw p regs S x L
  end.

Ltac frame_at_if S x L H :=
  let t := eval cbv beta in (S x) in
  match goal with
  | |- context [?p (vars t)] => frame_rw_if p vars S x L H
  | |- context [?p (vol t)] => frame_rw_if p vol S x L H
  | |- context [?p (regs t)] => frame_rw_if p regs S x L H
  end.

Ltac frame1 :=
  match goal with
  | |- context [snapshot ?x] => frame_at snapshot x snapshot_frame
  | |- context [prog_sm ?x] => frame_at prog_sm x prog_sm_frame
  | |- context [stayon_sm ?x] => frame_at stayon_sm x stayon_sm_frame
  | |- context [acc1_gate ?x] =>
      frame_at (fun y => fst (acc1_gate y)) x acc1_gate_frame
  | H : power_state (vars ?x) <> SM_POWER_RESET |- context [power_sm ?x] =>
      frame_at_if (fun y => fst (power_sm y)) x power_sm_frame H
  | |- context [power_sm ?x] =>
      frame_at (fun y => fst (power_sm y)) x power_reset_frame
  | |- context [ISR_PORTD_INT ?x] => frame_at ISR_PORTD_INT x ISR_PORTD_INT_frame
  | |- context [ISR_PORTA_INT ?x] => frame_at ISR_PORTA_INT x ISR_PORTA_INT_frame
  | |- context [ISR_TCC4_CCA ?x] => frame_at ISR_TCC4_CCA x ISR_TCC4_CCA_frame
  | |- context [ISR_TCC4_CCB ?x] => frame_at ISR_TCC4_CCB x ISR_TCC4_CCB_frame
  | |- context [ISR_TCC4_CCC ?x] => frame_at ISR_TCC4_CCC x ISR_TCC4_CCC_frame
  end.

Ltac frame := repeat frame1.

(** ** The paths through one iteration *)

Lemma power_sm_flow m :
  snd (power_sm m) = Continue <-> ends_in_power_sm m.
Proof.
  unfold ends_in_power_sm. destruct_machine m. unfold power_sm. cbn.
  destruct ps; cbn; split_matches; split; intros H;
    try discriminate; try reflexivity; try tauto;
    try (destruct H as [H | [[H1 H2] | [H1 [H2 H3]]]]; try discriminate; lia);
    right; right; repeat split; lia.
Qed.

Lemma loop_body_continue m :
  ends_in_power_sm m -> loop_body m = after_power m.
Proof.
  intros H. unfold loop_body, after_power, wdt_reset.
  assert (Hs : ends_in_power_sm (snapshot m)).
  { unfold ends_in_power_sm in *. frame. exact H. }
  apply power_sm_flow in Hs.
  destruct (power_sm (snapshot m)) as [p f]. cbn in *. subst f. reflexivity.
Qed.

Lemma loop_body_gate m :
  ~ ends_in_power_sm m -> acc1_last (vol m) = false ->
  loop_body m = fst (acc1_gate (after_power m)).
Proof.
  intros H Hl. unfold loop_body, after_power, wdt_reset.
  assert (Hs : snd (power_sm (snapshot m)) = Break).
  { destruct (snd (power_sm (snapshot m))) eqn:E; [reflexivity|].
    apply power_sm_flow in E. exfalso. apply H.
    unfold ends_in_power_sm in *. revert E. frame. auto. }
  assert (Hr : power_state (vars (snapshot m)) <> SM_POWER_RESET).
  { frame. intros E. apply H. left. exact E. }
  assert (Ha : acc1_last (vol (fst (power_sm (snapshot m)))) = false).
  { frame. exact Hl. }
  destruct (power_sm (snapshot m)) as [p f]. cbn [fst snd] in *. subst f.
  unfold acc1_gate. rewrite Ha. reflexivity.
Qed.

Lemma loop_body_sms m :
  power_state (vars m) <> SM_POWER_RESET -> acc1_last (vol m) = true ->
  loop_body m = prog_sm (stayon_sm (after_power m)).
Proof.
  intros H Hl. unfold loop_body, after_power, wdt_reset.
  assert (Hs : snd (power_sm (snapshot m)) = Break).
  { destruct (snd (power_sm (snapshot m))) eqn:E; [reflexivity|].
    apply power_sm_flow in E. exfalso. revert E. unfold ends_in_power_sm. frame.
    intros [E | [[_ E] | [_ [E _]]]]; congruence. }
  assert (Hr : power_state (vars (snapshot m)) <> SM_POWER_RESET).
  { frame. exact H. }
  assert (Ha : acc1_last (vol (fst (power_sm (snapshot m)))) = true).
  { frame. exact Hl. }
  destruct (power_sm (snapshot m)) as [p f]. cbn in *. subst f.
  unfold acc1_gate. rewrite Ha. reflexivity.
Qed.

Lemma loop_body_cases m :
  (ends_in_power_sm m /\ loop_body m = after_power m) \/
  (~ ends_in_power_sm m /\ acc1_last (vol m) = false /\
   loop_body m = fst (acc1_gate (after_power m))) \/
  (power_state (vars m) <> SM_POWER_RESET /\ acc1_last (vol m) = true /\
   loop_body m = prog_sm (stayon_sm (after_power m))).
Proof.
  destruct (snd (power_sm m)) eqn:E.
  - assert (H : ~ ends_in_power_sm m).
    { intros H. apply power_sm_flow in H. congruence. }
    destruct (acc1_last (vol m)) eqn:Hl.
    + assert (Hr : power_state (vars m) <> SM_POWER_RESET).
      { intros Hr. apply H. left. exact Hr. }
      right; right. auto using loop_body_sms.
    + right; left. auto using loop_body_gate.
  - apply power_sm_flow in E. left. auto using loop_body_continue.
Qed.

(** ** The power switch outputs *)

Lemma loop_body_V12EN m :
  V12EN (regs (loop_body m)) = V12EN (regs (after_power m)).
Proof.
  destruct (loop_body_cases m) as [[_ ->] | [(_ & _ & ->) | (_ & _ & ->)]];
    frame; reflexivity.
Qed.

Lemma power_sm_V12EN_out_on m :
  power_state (vars m) = SM_POWER_OUT_ON \/
  power_state (vars m) = SM_POWER_OUT_STAY_ON ->
  V12EN (regs (fst (power_sm m))) =
    match prog_state (vars m) with SM_PROG_IND_OFF => false | _ => true end.
Proof.
  intros H. destruct_machine m. cbn in H. unfold power_sm. cbn.
  destruct H as [-> | ->]; destruct gs; cbn; split_matches; reflexivity.
Qed.

(** C1. In a poll cycle that starts in [SM_POWER_OUT_ON] or
    [SM_POWER_OUT_STAY_ON] the power switches are driven ON when the
    programming phase is not [SM_PROG_IND_OFF] and OFF when it is; no other
    phase ([SM_PROG_IND_ON] included) turns them OFF. *)
Theorem relay_follows_prog_phase (m : machine) :
  power_state (vars m) = SM_POWER_OUT_ON \/
  power_state (vars m) = SM_POWER_OUT_STAY_ON ->
  (prog_state (vars m) <> SM_PROG_IND_OFF -> V12EN (regs (loop_body m)) = true) /\
  (prog_state (vars m) = SM_PROG_IND_OFF -> V12EN (regs (loop_body m)) = false) /\
  (V12EN (regs (loop_body m)) = false -> prog_state (vars m) = SM_PROG_IND_OFF).
Proof.
  intros H. rewrite loop_body_V12EN. unfold after_power.
  rewrite power_sm_V12EN_out_on by (frame; exact H). frame.
  destruct (prog_state (vars m)); repeat split; congruence.
Qed.
(** Right after bring-up with both pins high the machine is in
    [SM_POWER_OUT_ON] and the next poll cycle drives the outputs ON. *)
Lemma relay_follows_prog_phase_witness :
  let m := run [Poll] (boot true true 30 0) in
  (power_state (vars m) = SM_POWER_OUT_ON \/
   power_state (vars m) = SM_POWER_OUT_STAY_ON) /\
  V12EN (regs (loop_body m)) = true.
Proof.
  intro m. split.
  - left. reflexivity.
  - apply (relay_follows_prog_phase m); [left; reflexivity | discriminate].
Defined.

(** ** Durations *)

Lemma loop_body_times m :
  acc1_on_time (vars (loop_body m)) = acc1_on_time (vars (snapshot m)) /\
  acc1_off_time (vars (loop_body m)) = acc1_off_time (vars (snapshot m)) /\
  acc2_on_time (vars (loop_body m)) = acc2_on_time (vars (snapshot m)) /\
  acc2_off_time (vars (loop_body m)) = acc2_off_time (vars (snapshot m)).
Proof.
  destruct (loop_body_cases m) as [[_ ->] | [(_ & _ & ->) | (_ & _ & ->)]];
    unfold after_power; frame; auto.
Qed.

Lemma loop_body_anchors m :
  acc1_on_start_time (vol (loop_body m)) = acc1_on_start_time (vol (snapshot m)) /\
  acc1_off_start_time (vol (loop_body m)) = acc1_off_start_time (vol (snapshot m)) /\
  acc2_on_start_time (vol (loop_body m)) = acc2_on_start_time (vol (snapshot m)) /\
  acc2_off_start_time (vol (loop_body m)) = acc2_off_start_time (vol (snapshot m)).
Proof.
  destruct (loop_body_cases m) as [[_ ->] | [(_ & _ & ->) | (_ & _ & ->)]];
    unfold after_power; frame; auto.
Qed.

Lemma sub16_range a b : 0 <= sub16 a b < 65536.
Proof. unfold sub16, u16. apply Z.mod_pos_bound. lia. Qed.

Lemma measured_intro now a :
  measured now a
    (if sub16 now a >? TCNT_65_0 then TCNT_65_0 else sub16 now a)
    (if sub16 now a >? TCNT_65_0 then sub16 now TCNT_65_0 else a).
Proof.
  unfold measured. pose proof (sub16_range now a) as R. unfold TCNT_65_0 in *.
  destruct (sub16 now a >? 65000) eqn:E; lia.
Qed.

Lemma snapshot_acc1 m :
  if acc1_last (vol m)
  then measured (TCC4_CNT (regs m)) (acc1_on_start_time (vol m))
         (acc1_on_time (vars (snapshot m))) (acc1_on_start_time (vol (snapshot m)))
  else measured (TCC4_CNT (regs m)) (acc1_off_start_time (vol m))
         (acc1_off_time (vars (snapshot m))) (acc1_off_start_time (vol (snapshot m))).
Proof.
  destruct_machine m. unfold snapshot. cbn.
  destruct l1, l2; cbn;
  match goal with |- measured ?n ?a _ _ => pose proof (measured_intro n a) as M end;
  revert M; split_matches; auto; congruence.
Qed.

Lemma snapshot_acc2 m :
  if acc2_last (vol m)
  then measured (TCC4_CNT (regs m)) (acc2_on_start_time (vol m))
         (acc2_on_time (vars (snapshot m))) (acc2_on_start_time (vol (snapshot m)))
  else measured (TCC4_CNT (regs m)) (acc2_off_start_time (vol m))
         (acc2_off_time (vars (snapshot m))) (acc2_off_start_time (vol (snapshot m))).
Proof.
  destruct_machine m. unfold snapshot. cbn.
  destruct l1, l2; cbn;
  match goal with |- measured ?n ?a _ _ => pose proof (measured_intro n a) as M end;
  revert M; split_matches; auto; congruence.
Qed.

Lemma sub16_rewritten_anchor now :
  sub16 now (sub16 now TCNT_65_0) = TCNT_65_0.
Proof.
  unfold sub16, u16, TCNT_65_0.
  rewrite Zminus_mod_idemp_r. replace (now - (now - 65000)) with 65000 by lia.
  reflexivity.
Qed.

Lemma loop_body_measures m :
  let now := TCC4_CNT (regs m) in
  let l1 := acc1_last (vol m) in
  let l2 := acc2_last (vol m) in
  measured now (acc1_active_anchor l1 m)
    (acc1_active_time l1 (loop_body m)) (acc1_active_anchor l1 (loop_body m)) /\
  measured now (acc2_active_anchor l2 m)
    (acc2_active_time l2 (loop_body m)) (acc2_active_anchor l2 (loop_body m)).
Proof.
  cbv zeta.
  unfold acc1_active_time, acc2_active_time, acc1_active_anchor, acc2_active_anchor.
  destruct (loop_body_times m) as (-> & -> & -> & ->).
  destruct (loop_body_anchors m) as (-> & -> & -> & ->).
  pose proof (snapshot_acc1 m) as H1. pose proof (snapshot_acc2 m) as H2.
  destruct (acc1_last (vol m)), (acc2_last (vol m)); auto.
Qed.

(** C3. Every duration a poll cycle computes (the ON or OFF time of either
    input, by wrap-around subtraction of the active anchor from the snapshot
    tick) lies in [0, 65000]; when the raw difference exceeds 65000 the
    duration is 65000 and the active anchor becomes [now - 65000] (which is
    then exactly 65000 ticks back); otherwise both are left as computed; and
    whatever happens in between, the next poll cycle again computes
    durations of at most 65000. *)
Theorem poll_durations_bounded (m : machine) :
  let now := TCC4_CNT (regs m) in
  let l1 := acc1_last (vol m) in
  let l2 := acc2_last (vol m) in
  let m' := loop_body m in
  measured now (acc1_active_anchor l1 m)
    (acc1_active_time l1 m') (acc1_active_anchor l1 m') /\
  measured now (acc2_active_anchor l2 m)
    (acc2_active_time l2 m') (acc2_active_anchor l2 m') /\
  sub16 now (sub16 now TCNT_65_0) = TCNT_65_0 /\
  forall evs : list event,
    let m1 := run evs m' in
    0 <= acc1_active_time (acc1_last (vol m1)) (loop_body m1) <= TCNT_65_0 /\
    0 <= acc2_active_time (acc2_last (vol m1)) (loop_body m1) <= TCNT_65_0.
Proof.
  cbv zeta. destruct (loop_body_measures m) as [H1 H2].
  split; [exact H1 | split; [exact H2 | split; [apply sub16_rewritten_anchor |]]].
  intros evs.
  destruct (loop_body_measures (run evs (loop_body m))) as [[K1 _] [K2 _]].
  split; assumption.
Qed.

(** ** Events other than a poll *)

Lemma TCC4_count_frame m :
  clear [set_TCC4_CNT 0] (TCC4_count m) = clear [set_TCC4_CNT 0] m.
Proof. reflexivity. Qed.

Lemma CCA_interrupt_frame m :
  clear TCC4_CCA_writes (CCA_interrupt m) = clear TCC4_CCA_writes m.
Proof.
  unfold CCA_interrupt. destruct (_ && _); [apply ISR_TCC4_CCA_frame | reflexivity].
Qed.

Lemma CCB_interrupt_frame m :
  clear TCC4_CCB_writes (CCB_interrupt m) = clear TCC4_CCB_writes m.
Proof.
  unfold CCB_interrupt. destruct (_ && _); [apply ISR_TCC4_CCB_frame | reflexivity].
Qed.

Lemma CCC_interrupt_frame m :
  clear TCC4_CCC_writes (CCC_interrupt m) = clear TCC4_CCC_writes m.
Proof.
  unfold CCC_interrupt. destruct (_ && _); [apply ISR_TCC4_CCC_frame | reflexivity].
Qed.

Lemma acc1_edge_frame m : clear acc1_edge_writes (acc1_edge m) = clear acc1_edge_writes m.
Proof.
  destruct_machine m. unfold acc1_edge, ISR_PORTD_INT. cbn. split_matches; reflexivity.
Qed.

Lemma acc2_edge_frame m : clear acc2_edge_writes (acc2_edge m) = clear acc2_edge_writes m.
Proof.
  destruct_machine m. unfold acc2_edge, ISR_PORTA_INT. cbn. split_matches; reflexivity.
Qed.

(** [frame_ev] carries an untouched field across an event; a tick is taken
    apart into its stages. *)
Ltac frame_ev :=
  unfold tick;
  repeat match goal with
  | |- context [CCC_interrupt ?x] => frame_at CCC_interrupt x CCC_interrupt_frame
  | |- context [CCB_interrupt ?x] => frame_at CCB_interrupt x CCB_interrupt_frame
  | |- context [CCA_interrupt ?x] => frame_at CCA_interrupt x CCA_interrupt_frame
  | |- context [TCC4_count ?x] => frame_at TCC4_count x TCC4_count_frame
  | |- context [acc1_edge ?x] => frame_at acc1_edge x acc1_edge_frame
  | |- context [acc2_edge ?x] => frame_at acc2_edge x acc2_edge_frame
  end.

(** Before bring-up has enabled high-level interrupts no handler runs. *)
Lemma tick_masked m :
  PMIC_HILVLEN (regs m) = false -> tick m = TCC4_count m.
Proof. intros H. destruct_machine m. cbn in H. subst hi. reflexivity. Qed.

Lemma acc1_edge_masked m :
  PMIC_HILVLEN (regs m) = false ->
  acc1_edge m = set_ACC1_IN (negb (ACC1_IN (regs m))) m.
Proof. intros H. destruct_machine m. cbn in H. subst hi. reflexivity. Qed.

Lemma acc2_edge_masked m :
  PMIC_HILVLEN (regs m) = false ->
  acc2_edge m = set_ACC2_IN (negb (ACC2_IN (regs m))) m.
Proof. intros H. destruct_machine m. cbn in H. subst hi. reflexivity. Qed.

Lemma CCC_interrupt_clock m :
  0 <= minutes (vol m) <= 60 -> 0 <= seconds (vol m) < 60 ->
  0 <= minutes (vol (CCC_interrupt m)) <= 60 /\
  0 <= seconds (vol (CCC_interrupt m)) < 60.
Proof.
  destruct_machine m. unfold CCC_interrupt, ISR_TCC4_CCC. cbn. intros Hm Hs.
  assert (u8 (sec + 1) = sec + 1) by (unfold u8; apply Z.mod_small; lia).
  assert (u8 (mn + 1) = mn + 1) by (unfold u8; apply Z.mod_small; lia).
  split_matches; lia.
Qed.

Lemma tick_clock m :
  0 <= minutes (vol m) <= 60 -> 0 <= seconds (vol m) < 60 ->
  0 <= minutes (vol (tick m)) <= 60 /\ 0 <= seconds (vol (tick m)) < 60.
Proof.
  intros Hm Hs. unfold tick. apply CCC_interrupt_clock; frame_ev; assumption.
Qed.

(** ** Invariants of the reachable machines *)

Lemma inv_boot a1 a2 ee w0 : inv (boot a1 a2 ee w0).
Proof. unfold inv. cbn. repeat split; auto; try lia; try congruence. Qed.

Lemma inv_snapshot m : inv m -> inv (snapshot m).
Proof. unfold inv. frame. auto. Qed.

(** The power switch on a machine that satisfies the invariant. *)
Lemma power_sm_post m :
  inv m ->
  power_state (vars (fst (power_sm m))) <> SM_POWER_RESET /\
  PMIC_HILVLEN (regs (fst (power_sm m))) = true /\
  0 <= minutes (vol (fst (power_sm m))) <= 60 /\
  0 <= seconds (vol (fst (power_sm m))) < 60 /\
  (power_state (vars (fst (power_sm m))) = SM_POWER_DOWN \/
   power_state (vars (fst (power_sm m))) = SM_POWER_TIMER ->
     acc1_last (vol (fst (power_sm m))) = false) /\
  (snd (power_sm m) = Continue ->
     stayon_state (vars (fst (power_sm m))) = SM_STAYON_RESET /\
     prog_state (vars (fst (power_sm m))) = SM_PROG_RESET).
Proof.
  unfold inv. destruct_machine m. unfold power_sm. rewrite power_reset_eq. cbn.
  intros (I1 & I2 & I3 & I4 & I5).
  destruct ps; cbn; split_matches;
    repeat match goal with |- _ /\ _ => split end;
    try lia; try congruence; try tauto;
    try (intros [E | E]; discriminate E);
    try (apply I2; discriminate);
    try (intros _; apply I3; auto);
    try (intros _; destruct l1; cbn in *; congruence).
Qed.

Lemma after_power_post m :
  inv m ->
  power_state (vars (after_power m)) <> SM_POWER_RESET /\
  PMIC_HILVLEN (regs (after_power m)) = true /\
  0 <= minutes (vol (after_power m)) <= 60 /\
  0 <= seconds (vol (after_power m)) < 60 /\
  (power_state (vars (after_power m)) = SM_POWER_DOWN \/
   power_state (vars (after_power m)) = SM_POWER_TIMER ->
     acc1_last (vol (after_power m)) = false) /\
  (ends_in_power_sm m ->
     stayon_state (vars (after_power m)) = SM_STAYON_RESET /\
     prog_state (vars (after_power m)) = SM_PROG_RESET).
Proof.
  intros I. unfold after_power.
  destruct (power_sm_post (snapshot m) (inv_snapshot m I))
    as (P1 & P2 & P3 & P4 & P5 & P6).
  repeat split; try assumption; try apply P3; try apply P4;
    apply P6; apply power_sm_flow; revert H; unfold ends_in_power_sm; frame; auto.
Qed.

Lemma acc1_gate_resets m :
  acc1_last (vol m) = false ->
  stayon_state (vars (fst (acc1_gate m))) = SM_STAYON_RESET /\
  prog_state (vars (fst (acc1_gate m))) = SM_PROG_RESET.
Proof. intros H. unfold acc1_gate. rewrite H. cbn. auto. Qed.

Lemma stayon_sm_power_state m :
  power_state (vars (stayon_sm m)) = power_state (vars m) \/
  power_state (vars (stayon_sm m)) = SM_POWER_OUT_STAY_ON.
Proof. destruct_machine m. unfold stayon_sm. cbn. split_matches; auto. Qed.

Lemma inv_loop_body m : inv m -> inv (loop_body m).
Proof.
  intros I. destruct (after_power_post m I) as (P1 & P2 & P3 & P4 & P5 & P6).
  unfold inv.
  destruct (loop_body_cases m) as [[E ->] | [(N & L & ->) | (R & L & ->)]].
  - tauto.
  - assert (R : power_state (vars (snapshot m)) <> SM_POWER_RESET).
    { frame. intros R. apply N. left. exact R. }
    assert (A : acc1_last (vol (after_power m)) = false).
    { unfold after_power. frame. exact L. }
    destruct (acc1_gate_resets _ A) as [G1 G2]. rewrite G1, G2. frame. tauto.
  - assert (R' : power_state (vars (snapshot m)) <> SM_POWER_RESET).
    { frame. exact R. }
    assert (A : acc1_last (vol (after_power m)) = true).
    { unfold after_power. frame. exact L. }
    frame.
    destruct (stayon_sm_power_state (after_power m)) as [-> | ->];
      repeat split; try tauto; try lia; try congruence;
      match goal with
      | H : _ \/ _ |- _ =>
          solve [ destruct H; discriminate
                | exfalso; rewrite (P5 H) in A; discriminate A ]
      end.
Qed.

Lemma inv_tick m : inv m -> inv (tick m).
Proof.
  intros I. destruct (tick_clock m) as [C1 C2]; try apply I.
  revert I. unfold inv. intros (I1 & I2 & I3 & I4 & I5).
  destruct (PMIC_HILVLEN (regs m)) eqn:Hhi.
  - frame_ev. repeat split; try tauto; try lia.
    all: match goal with
         | R : power_state _ = SM_POWER_RESET |- _ =>
             apply I1 in R; destruct R as (_ & _ & R & _); discriminate R
         end.
  - rewrite tick_masked by exact Hhi. cbn. rewrite Hhi. tauto.
Qed.

Lemma inv_acc1_edge m : inv m -> inv (acc1_edge m).
Proof.
  unfold inv. intros (I1 & I2 & I3 & I4 & I5).
  destruct (PMIC_HILVLEN (regs m)) eqn:Hhi.
  - frame_ev. repeat split; try tauto; try lia.
    all: match goal with
         | R : power_state _ = SM_POWER_RESET |- _ =>
             apply I1 in R; destruct R as (_ & _ & R & _); discriminate R
         end.
  - rewrite acc1_edge_masked by exact Hhi. cbn. rewrite Hhi. tauto.
Qed.

Lemma inv_acc2_edge m : inv m -> inv (acc2_edge m).
Proof.
  unfold inv. intros (I1 & I2 & I3 & I4 & I5).
  destruct (PMIC_HILVLEN (regs m)) eqn:Hhi.
  - frame_ev. repeat split; try tauto; try lia.
    all: match goal with
         | R : power_state _ = SM_POWER_RESET |- _ =>
             apply I1 in R; destruct R as (_ & _ & R & _); discriminate R
         end.
  - rewrite acc2_edge_masked by exact Hhi. cbn. rewrite Hhi. tauto.
Qed.

Lemma inv_step e m : inv m -> inv (step e m).
Proof.
  destruct e; cbn;
    auto using inv_tick, inv_acc1_edge, inv_acc2_edge, inv_loop_body.
Qed.

Lemma reachable_inv m : reachable m -> inv m.
Proof.
  induction 1; auto using inv_boot, inv_step.
Qed.

Lemma reachable_run evs m : reachable m -> reachable (run evs m).
Proof.
  revert m. induction evs as [| e evs IH]; cbn; intros m H; [exact H |].
  apply IH. constructor. exact H.
Qed.
(** ** The programming sequence: the flash phase *)


(** The machine the programming switch runs on, in an iteration that gets
    that far: its inputs are those of the iteration. *)
Lemma prog_sm_entry m :
  power_state (vars m) <> SM_POWER_RESET -> acc1_last (vol m) = true ->
  let x := stayon_sm (after_power m) in
  loop_body m = prog_sm x /\
  prog_state (vars x) = prog_state (vars m) /\
  flash_count (vars x) = flash_count (vars m) /\
  acc2_last (vol x) = acc2_last (vol m).
Proof.
  intros R L. cbv zeta. split; [apply loop_body_sms; assumption |].
  assert (R' : power_state (vars (snapshot m)) <> SM_POWER_RESET) by (frame; exact R).
  unfold after_power. frame. auto.
Qed.




(** ** The end of the programming sequence *)

Lemma minutes_of_flashes_range fc :
  0 <= fc < 256 ->
  exists k, 0 <= k <= 25 /\ minutes_of_flashes fc = 10 * k.
Proof.
  intros H. unfold minutes_of_flashes, u8.
  destruct (fc >? 25) eqn:E.
  - exists 25. split; [lia | reflexivity].
  - exists fc. split; [lia |]. rewrite Z.mod_small; lia.
Qed.

Lemma prog_sm_end_off x :
  prog_state (vars x) = SM_PROG_END_OFF ->
  (acc2_off_time (vars x) > TCNT_7_0 ->
     prog_state (vars (prog_sm x)) = SM_PROG_RESET /\
     eeprom_wait_minutes (regs (prog_sm x)) = eeprom_wait_minutes (regs x)) /\
  (acc2_last (vol x) = true ->
     (TCNT_4_0 < acc2_off_time (vars x) <= TCNT_7_0 ->
        prog_state (vars (prog_sm x)) = SM_PROG_IND_ON /\
        eeprom_wait_minutes (regs (prog_sm x)) = minutes_of_flashes (flash_count (vars x)) /\
        wait_minutes (vars (prog_sm x)) = minutes_of_flashes (flash_count (vars x))) /\
     (acc2_off_time (vars x) <= TCNT_4_0 ->
        prog_state (vars (prog_sm x)) = SM_PROG_RESET /\
        eeprom_wait_minutes (regs (prog_sm x)) = eeprom_wait_minutes (regs x))) /\
  (acc2_last (vol x) = false -> acc2_off_time (vars x) <= TCNT_7_0 ->
     prog_sm x = x).
Proof.
  destruct_machine x. unfold prog_sm, minutes_of_flashes. cbn.
  unfold TCNT_4_0, TCNT_7_0.
  intros ->. cbn. split_matches;
    repeat split; intros; try reflexivity; try congruence; try lia.
Qed.

(** The programming switch stores a byte only in the end sequence. *)
Lemma prog_sm_eeprom x :
  eeprom_wait_minutes (regs (prog_sm x)) = eeprom_wait_minutes (regs x) \/
  (prog_state (vars x) = SM_PROG_END_OFF /\
   prog_state (vars (prog_sm x)) = SM_PROG_IND_ON /\
   eeprom_wait_minutes (regs (prog_sm x)) = minutes_of_flashes (flash_count (vars x))).
Proof.
  destruct_machine x. unfold prog_sm, minutes_of_flashes. cbn.
  destruct gs; cbn; split_matches; auto.
Qed.

Lemma prog_sm_flash_count_range x :
  0 <= flash_count (vars x) < 256 -> 0 <= flash_count (vars (prog_sm x)) < 256.
Proof.
  destruct_machine x. unfold prog_sm. cbn. intros H.
  pose proof (Z.mod_pos_bound (fc + 1) 256 ltac:(lia)).
  pose proof (Z.mod_pos_bound (fc * 10) 256 ltac:(lia)).
  destruct gs; cbn; split_matches; unfold u8; cbn; lia.
Qed.

Lemma reachable_flash_count m :
  reachable m -> 0 <= flash_count (vars m) < 256.
Proof.
  induction 1 as [a1 a2 ee w0 H | e m H IH]; [cbn; lia |].
  destruct e; cbn [step]; try (frame_ev; exact IH).
  destruct (loop_body_cases m) as [[_ ->] | [(_ & _ & ->) | (_ & _ & ->)]].
  - unfold after_power. frame. exact IH.
  - unfold after_power. frame. exact IH.
  - apply prog_sm_flash_count_range. unfold after_power. frame. exact IH.
Qed.

(** Every byte a poll cycle stores is ten times a number between 0 and 25. *)
Lemma persisted_values m :
  reachable m ->
  eeprom_wait_minutes (regs (loop_body m)) = eeprom_wait_minutes (regs m) \/
  exists k, 0 <= k <= 25 /\ eeprom_wait_minutes (regs (loop_body m)) = 10 * k.
Proof.
  intros Hr. pose proof (reachable_flash_count m Hr) as F.
  destruct (loop_body_cases m) as [[_ ->] | [(_ & _ & ->) | (R & _ & ->)]].
  - left. unfold after_power. frame. reflexivity.
  - left. unfold after_power. frame. reflexivity.
  - assert (R' : power_state (vars (snapshot m)) <> SM_POWER_RESET) by (frame; exact R).
    destruct (prog_sm_eeprom (stayon_sm (after_power m))) as [E | (_ & _ & E)].
    + left. rewrite E. unfold after_power. frame. reflexivity.
    + right. rewrite E. apply minutes_of_flashes_range.
      unfold after_power. frame. exact F.
Qed.

(** ** Programming sessions *)

(** The example of the source's header comment: ON 1 s, OFF 1 s, ON 1 s,
    OFF 5 s, ON 5 s, OFF 5 s, ON programs 20 minutes. *)
Example program_20_minutes :
  let m := run (Poll :: acc2_for 1000 ++ acc2_for 1000 ++ acc2_for 1000 ++
                acc2_for 5000 ++ confirm) (boot true false 30 0) in
  prog_state (vars m) = SM_PROG_IND_ON /\
  eeprom_wait_minutes (regs m) = 20 /\ wait_minutes (vars m) = 20.
Proof. vm_compute. auto. Qed.

Example program_25_flashes :
  eeprom_wait_minutes (regs (programmed 24)) = 250.
Proof. vm_compute. reflexivity. Qed.

Example program_30_flashes :
  eeprom_wait_minutes (regs (programmed 29)) = 250.
Proof. vm_compute. reflexivity. Qed.

(** C5, at the input where the code departs from it.  The end sequence
    stores [minutes_of_flashes flash_count], and [flash_count] is a
    [uint8_t] incremented without a bound: a session of 256 flashes wraps it
    to 0, the end sequence is accepted, and the byte stored (and the
    in-RAM [wait_minutes]) is 0, outside the documented 10..250. *)
Theorem program_256_flashes :
  prog_state (vars (programmed 255)) = SM_PROG_IND_ON /\
  eeprom_wait_minutes (regs (programmed 255)) = 0 /\
  wait_minutes (vars (programmed 255)) = 0.
Proof. vm_compute. auto. Qed.

(** ** The stay-on gesture *)





(** ** The power machine *)

Lemma loop_body_power_state m :
  power_state (vars m) <> SM_POWER_RESET -> acc1_last (vol m) = true ->
  power_state (vars (loop_body m)) = power_state (vars (stayon_sm (after_power m))).
Proof.
  intros R L. rewrite loop_body_sms by assumption. frame. reflexivity.
Qed.

Lemma stayon_sm_forces x :
  power_state (vars (stayon_sm x)) <> power_state (vars x) ->
  acc2_last (vol x) = true /\ power_state (vars (stayon_sm x)) = SM_POWER_OUT_STAY_ON.
Proof.
  destruct_machine x. unfold stayon_sm. cbn.
  destruct ss; cbn; split_matches; intros H; try congruence; auto.
Qed.

Lemma power_sm_stay_on x :
  power_state (vars x) = SM_POWER_OUT_STAY_ON -> acc1_last (vol x) = true ->
  power_state (vars (fst (power_sm x))) =
    if negb (acc2_last (vol x)) && (acc2_off_time (vars x) >? TCNT_0_5)
    then SM_POWER_OUT_OFF else SM_POWER_OUT_STAY_ON.
Proof.
  destruct_machine x. unfold power_sm. cbn. intros -> ->.
  destruct gs; cbn; split_matches; reflexivity.
Qed.

(** The grace rule in an iteration in which no handler is served after the
    snapshot.  In [SM_POWER_OUT_STAY_ON] with ACC1 still ON, the poll cycle
    moves to [SM_POWER_OUT_OFF] exactly when ACC2 is OFF with an OFF time
    above 500, and otherwise stays in [SM_POWER_OUT_STAY_ON]: it stays at an
    OFF time of 300 and moves at an OFF time of 600. *)
Theorem stay_on_grace (m : machine) :
  power_state (vars m) = SM_POWER_OUT_STAY_ON -> acc1_last (vol m) = true ->
  let m' := loop_body m in
  (power_state (vars m') = SM_POWER_OUT_OFF <->
     acc2_last (vol m) = false /\ acc2_off_time (vars m') > TCNT_0_5) /\
  (power_state (vars m') <> SM_POWER_OUT_OFF ->
     power_state (vars m') = SM_POWER_OUT_STAY_ON) /\
  (acc2_last (vol m) = false -> acc2_off_time (vars m') = 300 ->
     power_state (vars m') = SM_POWER_OUT_STAY_ON) /\
  (acc2_last (vol m) = false -> acc2_off_time (vars m') = 600 ->
     power_state (vars m') = SM_POWER_OUT_OFF).
Proof.
  intros P L. cbv zeta.
  assert (R : power_state (vars m) <> SM_POWER_RESET) by congruence.
  assert (R' : power_state (vars (snapshot m)) <> SM_POWER_RESET) by (frame; exact R).
  destruct (loop_body_times m) as (_ & _ & _ & ->).
  rewrite (loop_body_power_state m R L).
  assert (T : acc2_off_time (vars (snapshot m)) = acc2_off_time (vars (after_power m))).
  { unfold after_power. frame. reflexivity. }
  assert (A : acc2_last (vol m) = acc2_last (vol (after_power m))).
  { unfold after_power. frame. reflexivity. }
  assert (Q : power_state (vars (after_power m)) =
              if negb (acc2_last (vol m)) &&
                 (acc2_off_time (vars (snapshot m)) >? TCNT_0_5)
              then SM_POWER_OUT_OFF else SM_POWER_OUT_STAY_ON).
  { unfold after_power. rewrite power_sm_stay_on by (frame; assumption).
    frame. reflexivity. }
  pose proof (stayon_sm_forces (after_power m)) as F.
  rewrite <- A in F. unfold TCNT_0_5 in *.
  destruct (acc2_last (vol m)) eqn:L2; cbn [negb andb] in Q.
  - destruct (stayon_sm_power_state (after_power m)) as [E | E]; rewrite E, ?Q;
      repeat split; intros; try congruence; try tauto;
      try (destruct H; discriminate).
  - assert (E : power_state (vars (stayon_sm (after_power m))) =
                power_state (vars (after_power m))).
    { destruct (stayon_sm_power_state (after_power m)) as [E | E]; [exact E |].
      rewrite E, Q. destruct (_ >? _); [| reflexivity].
      destruct F as [F _]; [rewrite E, Q; discriminate | discriminate F]. }
    rewrite E, Q.
    destruct (acc2_off_time (vars (snapshot m)) >? 500) eqn:C;
      repeat split; intros; try congruence; try lia.
Qed.

(** In stay-on, the poll cycle that finds ACC2 OFF for 300 ticks stays; the
    one that finds it OFF for 600 ticks moves to [SM_POWER_OUT_OFF]. *)
Lemma stay_on_grace_witness :
  let m300 := run (stay_on_session ++ ACC2_edge :: ms 349 ++ [Tick])
                  (boot true false 30 0) in
  let m600 := run (stay_on_session ++ ACC2_edge :: repeat Tick 650)
                  (boot true false 30 0) in
  (power_state (vars m300) = SM_POWER_OUT_STAY_ON /\
   acc2_off_time (vars (loop_body m300)) = 300 /\
   power_state (vars (loop_body m300)) = SM_POWER_OUT_STAY_ON) /\
  (power_state (vars m600) = SM_POWER_OUT_STAY_ON /\
   acc2_off_time (vars (loop_body m600)) = 600 /\
   power_state (vars (loop_body m600)) = SM_POWER_OUT_OFF).
Proof.
  intros m300 m600. split.
  - assert (P : power_state (vars m300) = SM_POWER_OUT_STAY_ON) by (vm_compute; reflexivity).
    assert (L : acc1_last (vol m300) = true) by (vm_compute; reflexivity).
    assert (T : acc2_off_time (vars (loop_body m300)) = 300) by (vm_compute; reflexivity).
    split; [exact P | split; [exact T |]].
    destruct (stay_on_grace m300 P L) as (_ & _ & W & _).
    apply W; [vm_compute; reflexivity | exact T].
  - assert (P : power_state (vars m600) = SM_POWER_OUT_STAY_ON) by (vm_compute; reflexivity).
    assert (L : acc1_last (vol m600) = true) by (vm_compute; reflexivity).
    assert (T : acc2_off_time (vars (loop_body m600)) = 600) by (vm_compute; reflexivity).
    split; [exact P | split; [exact T |]].
    destruct (stay_on_grace m600 P L) as (_ & _ & _ & W).
    apply W; [vm_compute; reflexivity | exact T].
Defined.

(** With the polling loop running every millisecond: ACC2 low for 0.35 s
    (debounced OFF for 0.3 s) and back ON never leaves stay-on for
    [SM_POWER_OUT_OFF]; ACC2 low for 0.65 s does. *)
Example dropout_300ms :
  let m := run stay_on_session (boot true false 30 0) in
  power_state (vars m) = SM_POWER_OUT_STAY_ON /\
  visits SM_POWER_OUT_OFF (acc2_for 350 ++ acc2_for 1000) m = false /\
  power_state (vars (run (acc2_for 350 ++ acc2_for 1000) m)) = SM_POWER_OUT_STAY_ON.
Proof. vm_compute. auto. Qed.

Example dropout_600ms :
  let m := run stay_on_session (boot true false 30 0) in
  visits SM_POWER_OUT_OFF (acc2_for 650) m = true.
Proof. vm_compute. auto. Qed.

Lemma iteration_atomic m : iteration [] [] [] m = loop_body m.
Proof. reflexivity. Qed.

(** C8, at the input where the code departs from it.  The switch tests
    [acc2_off_time] as the snapshot left it, but reads [acc2_last] again
    after [sei()].  Take stay-on entered by a gesture whose OFF phase lasted
    1 s, ACC2 back ON for 4 s, and its pin falling.  In the iteration in
    which the 50th tick after the fall is served right after the snapshot,
    the snapshot still sees ACC2 ON and leaves [acc2_off_time] at the 950 of
    the gesture; the de-bounce handler then latches ACC2 OFF (OFF since 0
    ticks), and the switch leaves [SM_POWER_OUT_STAY_ON] for
    [SM_POWER_OUT_OFF] on the stale 950.  With the same tick taken before the
    iteration the OFF time is 0 and stay-on is kept.  When ACC2 comes back
    after a dropout of 0.3 s the machine is in [SM_POWER_OUT_ON], stay-on
    lost, where the iteration without the interrupt inside keeps
    [SM_POWER_OUT_STAY_ON]. *)
Theorem stay_on_lost_on_stale_off_time :
  let m := run stay_on_dropout (boot true false 30 0) in
  let m' := iteration [Tick] [] [] m in
  (power_state (vars m) = SM_POWER_OUT_STAY_ON /\
   acc1_last (vol m) = true /\ acc2_last (vol m) = true /\
   IS_ACC2_ON m = false /\ acc2_off_time (vars m) = 950) /\
  (acc1_last (vol m') = true /\ acc2_last (vol m') = false /\
   acc2_off_start_time (vol m') = TCC4_CNT (regs m') /\
   acc2_off_time (vars m') = 950 /\
   power_state (vars m') = SM_POWER_OUT_OFF) /\
  (power_state (vars (loop_body (step Tick m))) = SM_POWER_OUT_STAY_ON /\
   acc2_off_time (vars (loop_body (step Tick m))) = 0) /\
  (power_state (vars (run (ms 250 ++ acc2_for 100) m')) = SM_POWER_OUT_ON /\
   power_state (vars (run (ms 250 ++ acc2_for 100) (loop_body (step Tick m))))
     = SM_POWER_OUT_STAY_ON).
Proof. vm_compute. repeat split. Qed.

(** C9. The minutes counter of a reachable machine never exceeds 60, and so
    with [wait_minutes > 60] the test [minutes >= wait_minutes] fails and
    no poll cycle takes [SM_POWER_TIMER] to [SM_POWER_DOWN]. *)
Theorem timer_never_expires (m : machine) :
  reachable m ->
  minutes (vol m) <= 60 /\
  (wait_minutes (vars m) > 60 ->
     (minutes (vol m) >=? wait_minutes (vars m)) = false /\
     (power_state (vars m) = SM_POWER_TIMER ->
        power_state (vars (loop_body m)) <> SM_POWER_DOWN)).
Proof.
  intros Hr. apply reachable_inv in Hr.
  assert (M : minutes (vol m) <= 60) by (destruct Hr as (_ & _ & _ & M & _); lia).
  split; [exact M |]. intros W. split; [lia |]. intros P.
  assert (Q : power_state (vars (after_power m)) <> SM_POWER_DOWN).
  { unfold after_power.
    assert (P' : power_state (vars (snapshot m)) = SM_POWER_TIMER) by (frame; exact P).
    assert (M' : (minutes (vol (snapshot m)) >=? wait_minutes (vars (snapshot m))) = false)
      by (frame; lia).
    revert P' M'. generalize (snapshot m). intros x. destruct_machine x.
    unfold power_sm. cbn. intros -> ->. split_matches; discriminate. }
  destruct (loop_body_cases m) as [[_ ->] | [(_ & _ & ->) | (R & _ & ->)]].
  - exact Q.
  - frame. exact Q.
  - frame. destruct (stayon_sm_power_state (after_power m)) as [-> | ->];
      [exact Q | discriminate].
Qed.

(** Stay-on with 250 minutes stored, then ACC1 drops: the machine is in
    [SM_POWER_TIMER] and the next poll cycle does not time out. *)
Lemma timer_never_expires_witness :
  let m := run (stay_on_session ++ ACC1_edge :: ms 60) (boot true false 250 0) in
  reachable m /\ power_state (vars m) = SM_POWER_TIMER /\
  wait_minutes (vars m) > 60 /\
  power_state (vars (loop_body m)) <> SM_POWER_DOWN.
Proof.
  intro m.
  assert (Hr : reachable m).
  { apply reachable_run. constructor. lia. }
  assert (P : power_state (vars m) = SM_POWER_TIMER) by (vm_compute; reflexivity).
  assert (W : wait_minutes (vars m) > 60) by (vm_compute; reflexivity).
  split; [exact Hr | split; [exact P | split; [exact W |]]].
  destruct (timer_never_expires m Hr) as [_ T].
  destruct (T W) as [_ T']. exact (T' P).
Defined.

(** ** The watchdog *)

Lemma power_sm_WDT_ENABLE x :
  WDT_ENABLE (regs (fst (power_sm x))) =
    match power_state (vars x) with
    | SM_POWER_RESET => true
    | SM_POWER_DOWN => if acc1_last (vol x) then WDT_ENABLE (regs x) else true
    | SM_POWER_TIMER =>
        if acc1_last (vol x) then WDT_ENABLE (regs x)
        else if minutes (vol x) >=? wait_minutes (vars x) then WDT_ENABLE (regs x)
        else false
    | _ => WDT_ENABLE (regs x)
    end.
Proof.
  destruct_machine x. unfold power_sm. rewrite power_reset_eq. cbn.
  destruct ps; cbn; split_matches; reflexivity.
Qed.

Lemma loop_body_WDT_ENABLE m :
  WDT_ENABLE (regs (loop_body m)) =
    match power_state (vars m) with
    | SM_POWER_RESET => true
    | SM_POWER_DOWN => if acc1_last (vol m) then WDT_ENABLE (regs m) else true
    | SM_POWER_TIMER =>
        if acc1_last (vol m) then WDT_ENABLE (regs m)
        else if minutes (vol m) >=? wait_minutes (vars m) then WDT_ENABLE (regs m)
        else false
    | _ => WDT_ENABLE (regs m)
    end.
Proof.
  assert (E : WDT_ENABLE (regs (loop_body m)) = WDT_ENABLE (regs (after_power m))).
  { destruct (loop_body_cases m) as [[_ ->] | [(_ & _ & ->) | (_ & _ & ->)]];
      frame; reflexivity. }
  rewrite E. unfold after_power. rewrite power_sm_WDT_ENABLE.
  destruct (power_state (vars m)) eqn:P.
  all: assert (P' : power_state (vars (snapshot m)) = power_state (vars m))
         by (frame; reflexivity);
       rewrite P' , P; frame; try reflexivity.
  all: assert (W : wait_minutes (vars (snapshot m)) = wait_minutes (vars m))
         by (frame; reflexivity);
       rewrite W; reflexivity.
Qed.

Lemma step_WDT_ENABLE e m :
  enables_wdt e m = false -> WDT_ENABLE (regs m) = false ->
  WDT_ENABLE (regs (step e m)) = false.
Proof.
  destruct e; cbn [step enables_wdt]; intros E W; try (frame_ev; exact W).
  rewrite loop_body_WDT_ENABLE.
  destruct (power_state (vars m)); try discriminate E; try exact W.
  - destruct (acc1_last (vol m)); [exact W | discriminate E].
  - destruct (acc1_last (vol m)); [exact W |].
    destruct (_ >=? _); [exact W | reflexivity].
Qed.

(** C10. A poll cycle that takes the idle sleep of [SM_POWER_TIMER] leaves
    the watchdog disabled, and it stays disabled through every later event,
    whatever the power state becomes, as long as no poll cycle runs
    bring-up or the power-down sleep (which both enable it); [wdt_reset]
    does not change the enable. *)
Theorem watchdog_stays_disabled (m : machine) (evs : list event) :
  idle_sleeps m ->
  no_wdt_enable evs (loop_body m) = true ->
  WDT_ENABLE (regs (loop_body m)) = false /\
  WDT_ENABLE (regs (run evs (loop_body m))) = false /\
  (forall x, WDT_ENABLE (regs (wdt_reset x)) = WDT_ENABLE (regs x)) /\
  (forall x, enables_wdt Poll x = true -> WDT_ENABLE (regs (loop_body x)) = true).
Proof.
  intros (P & L & M) Q.
  assert (W : WDT_ENABLE (regs (loop_body m)) = false).
  { rewrite loop_body_WDT_ENABLE, P, L.
    destruct (minutes (vol m) >=? wait_minutes (vars m)) eqn:C; [lia | reflexivity]. }
  split; [exact W | split; [| split; [reflexivity |]]];
    [| intros x E; rewrite loop_body_WDT_ENABLE; cbn in E;
       destruct (power_state (vars x)); try discriminate E; try reflexivity;
       destruct (acc1_last (vol x)); [discriminate E | reflexivity]].
  revert Q W. generalize (loop_body m). clear. intros x.
  revert x. induction evs as [| e evs IH]; cbn; intros x Q W; [exact W |].
  apply andb_prop in Q. destruct Q as [E Q]. apply negb_true_iff in E.
  apply IH; [exact Q |]. apply step_WDT_ENABLE; assumption.
Qed.

(** In [SM_POWER_TIMER] the loop takes the idle sleep; 0.1 s later ACC1
    comes back and the machine moves to [SM_POWER_OUT_ON] with the watchdog
    still disabled. *)
Lemma watchdog_stays_disabled_witness :
  let m := run (stay_on_session ++ ACC1_edge :: ms 60) (boot true false 250 0) in
  let evs := ms 100 ++ ACC1_edge :: ms 100 in
  idle_sleeps m /\
  no_wdt_enable evs (loop_body m) = true /\
  power_state (vars (run evs (loop_body m))) = SM_POWER_OUT_ON /\
  WDT_ENABLE (regs (run evs (loop_body m))) = false.
Proof.
  intros m evs.
  assert (I : idle_sleeps m).
  { unfold idle_sleeps. repeat split; vm_compute; reflexivity. }
  assert (Q : no_wdt_enable evs (loop_body m) = true) by (vm_compute; reflexivity).
  split; [exact I | split; [exact Q | split; [vm_compute; reflexivity |]]].
  destruct (watchdog_stays_disabled m evs I Q) as (_ & W & _). exact W.
Defined.

(** ** The debounce engine *)

(** The edge handler: it always re-arms the de-bounce compare 50 ticks
    ahead, and latches ON with a fresh anchor if the level was OFF. *)
Lemma port_ISR_spec i m :
  compare i (port_ISR i m) = u16 (TCC4_CNT (regs m) + TCNT_DEBOUNCE) /\
  armed i (port_ISR i m) = true /\
  level i (port_ISR i m) = true /\
  on_start i (port_ISR i m) =
    (if level i m then on_start i m else TCC4_CNT (regs m)) /\
  off_start i (port_ISR i m) = off_start i m.
Proof.
  destruct i; destruct_machine m; cbn;
    [destruct l1 | destruct l2]; cbn; auto.
Qed.

(** The de-bounce handler: it latches OFF, anchored at the current tick,
    only from ON with the pin reading low; it disarms itself. *)
Lemma debounce_ISR_spec i m :
  level i (debounce_ISR i m) = level i m && pin i m /\
  off_start i (debounce_ISR i m) =
    (if level i m && negb (pin i m) then TCC4_CNT (regs m) else off_start i m) /\
  on_start i (debounce_ISR i m) = on_start i m /\
  armed i (debounce_ISR i m) = false.
Proof.
  destruct i; destruct_machine m; cbn;
    [destruct l1, p1 | destruct l2, p2]; cbn; auto.
Qed.

Lemma debounce_interrupt_eq i x :
  debounce_interrupt i x = if debounce_fires i x then debounce_ISR i x else x.
Proof. destruct i; reflexivity. Qed.

Lemma ISR_CCB_CCA_commute x :
  ISR_TCC4_CCB (ISR_TCC4_CCA x) = ISR_TCC4_CCA (ISR_TCC4_CCB x).
Proof.
  destruct_machine x. unfold ISR_TCC4_CCA, ISR_TCC4_CCB, IS_ACC1_ON, IS_ACC2_ON.
  cbn. destruct l1, l2, p1, p2; reflexivity.
Qed.

Lemma CCB_CCA_commute x :
  CCB_interrupt (CCA_interrupt x) = CCA_interrupt (CCB_interrupt x).
Proof.
  set (cA := fun y => PMIC_HILVLEN (regs y) && CCAINTLVL (regs y) &&
                      (TCC4_CNT (regs y) =? TCC4_CCA (regs y))).
  set (cB := fun y => PMIC_HILVLEN (regs y) && CCBINTLVL (regs y) &&
                      (TCC4_CNT (regs y) =? TCC4_CCB (regs y))).
  assert (EA : cA (CCB_interrupt x) = cA x).
  { unfold cA. repeat frame_at CCB_interrupt x CCB_interrupt_frame. reflexivity. }
  assert (EB : cB (CCA_interrupt x) = cB x).
  { unfold cB. repeat frame_at CCA_interrupt x CCA_interrupt_frame. reflexivity. }
  change (CCB_interrupt (CCA_interrupt x))
    with (if cB (CCA_interrupt x) then ISR_TCC4_CCB (CCA_interrupt x)
          else CCA_interrupt x).
  change (CCA_interrupt (CCB_interrupt x))
    with (if cA (CCB_interrupt x) then ISR_TCC4_CCA (CCB_interrupt x)
          else CCB_interrupt x).
  rewrite EA, EB.
  change (CCA_interrupt x) with (if cA x then ISR_TCC4_CCA x else x).
  change (CCB_interrupt x) with (if cB x then ISR_TCC4_CCB x else x).
  destruct (cA x), (cB x); auto using ISR_CCB_CCA_commute.
Qed.

(** A tick, seen from channel [i]. *)
Lemma tick_channel i m :
  level i (tick m) = level i (debounce_interrupt i (TCC4_count m)) /\
  on_start i (tick m) = on_start i (debounce_interrupt i (TCC4_count m)) /\
  off_start i (tick m) = off_start i (debounce_interrupt i (TCC4_count m)) /\
  armed i (tick m) = armed i (debounce_interrupt i (TCC4_count m)) /\
  compare i (tick m) = compare i m /\
  pin i (tick m) = pin i m /\
  TCC4_CNT (regs (tick m)) = u16 (TCC4_CNT (regs m) + 1) /\
  PMIC_HILVLEN (regs (tick m)) = PMIC_HILVLEN (regs m).
Proof.
  assert (C : TCC4_CNT (regs (tick m)) = u16 (TCC4_CNT (regs m) + 1)).
  { frame_ev. reflexivity. }
  assert (H : PMIC_HILVLEN (regs (tick m)) = PMIC_HILVLEN (regs m)).
  { frame_ev. reflexivity. }
  destruct i; unfold level, on_start, off_start, armed, compare, pin,
    IS_ACC1_ON, IS_ACC2_ON, debounce_interrupt; repeat split; try assumption;
    try (frame_ev; reflexivity);
    unfold tick; rewrite ?CCB_CCA_commute;
    repeat match goal with
    | |- context [CCC_interrupt ?x] => frame_at CCC_interrupt x CCC_interrupt_frame
    | |- context [CCA_interrupt (CCB_interrupt ?x)] =>
        frame_at CCA_interrupt (CCB_interrupt x) CCA_interrupt_frame
    | |- context [CCB_interrupt (CCA_interrupt ?x)] =>
        frame_at CCB_interrupt (CCA_interrupt x) CCB_interrupt_frame
    end;
    reflexivity.
Qed.

(** *** A poll cycle, seen from one channel *)

(** A poll cycle, seen from channel [i]: after bring-up it leaves the
    latched level, the pin and the de-bounce timer alone. *)
Lemma loop_body_channel i m :
  power_state (vars m) <> SM_POWER_RESET ->
  level i (loop_body m) = level i m /\
  pin i (loop_body m) = pin i m /\
  compare i (loop_body m) = compare i m /\
  armed i (loop_body m) = armed i m /\
  TCC4_CNT (regs (loop_body m)) = TCC4_CNT (regs m) /\
  PMIC_HILVLEN (regs (loop_body m)) = PMIC_HILVLEN (regs m).
Proof.
  intros R.
  assert (R' : power_state (vars (snapshot m)) <> SM_POWER_RESET) by (frame; exact R).
  destruct i; unfold level, pin, compare, armed, IS_ACC1_ON, IS_ACC2_ON;
    destruct (loop_body_cases m) as [[_ ->] | [(_ & _ & ->) | (_ & _ & ->)]];
    unfold after_power; frame; auto 10.
Qed.

(** Bring-up, seen from the two channels: the level of ACC1 is read from its
    pin; the level of ACC2 is not assigned. *)
Lemma loop_body_bring_up m :
  power_state (vars m) = SM_POWER_RESET ->
  loop_body m = power_reset (snapshot m) /\
  acc1_last (vol (loop_body m)) = ACC1_IN (regs m) /\
  acc2_last (vol (loop_body m)) = acc2_last (vol m) /\
  ACC1_IN (regs (loop_body m)) = ACC1_IN (regs m) /\
  ACC2_IN (regs (loop_body m)) = ACC2_IN (regs m).
Proof.
  intros R.
  assert (E : loop_body m = power_reset (snapshot m)).
  { rewrite loop_body_continue by (left; exact R).
    unfold after_power, power_sm.
    assert (R' : power_state (vars (snapshot m)) = SM_POWER_RESET) by (frame; exact R).
    rewrite R'. reflexivity. }
  split; [exact E |]. rewrite E, power_reset_eq. cbn. frame. auto.
Qed.

(** *** Ticks since the last edge *)

Lemma since_edge_app i q evs e :
  since_edge i q (evs ++ [e]) = advance i (since_edge i q evs) e.
Proof.
  revert q. induction evs as [| e' evs IH]; cbn; intros q; [reflexivity | apply IH].
Qed.

Lemma u16_shift c d : u16 (u16 (c + 1) + d - 1) = u16 (c + d).
Proof.
  unfold u16. rewrite <- Z.add_sub_assoc, Zplus_mod_idemp_l. f_equal. lia.
Qed.

Lemma u16_no_early_match c (k : nat) :
  (k < 50)%nat ->
  u16 (c + 1) = u16 (c + TCNT_DEBOUNCE - Z.of_nat k) -> k = 49%nat.
Proof.
  unfold u16, TCNT_DEBOUNCE. intros Hk E.
  assert (D : (c + 50 - Z.of_nat k - (c + 1)) mod 65536 = 0).
  { rewrite Zminus_mod, <- E, Z.sub_diag. reflexivity. }
  replace (c + 50 - Z.of_nat k - (c + 1)) with (49 - Z.of_nat k) in D by lia.
  rewrite Z.mod_small in D by lia. lia.
Qed.

(** *** Events, seen from one channel *)

Lemma edge_own i m :
  PMIC_HILVLEN (regs m) = true ->
  level i (step (edge i) m) = true /\
  armed i (step (edge i) m) = true /\
  compare i (step (edge i) m) = u16 (TCC4_CNT (regs m) + TCNT_DEBOUNCE) /\
  on_start i (step (edge i) m) =
    (if level i m then on_start i m else TCC4_CNT (regs m)) /\
  off_start i (step (edge i) m) = off_start i m /\
  pin i (step (edge i) m) = negb (pin i m) /\
  TCC4_CNT (regs (step (edge i) m)) = TCC4_CNT (regs m) /\
  PMIC_HILVLEN (regs (step (edge i) m)) = true.
Proof.
  destruct i; destruct_machine m; cbn; intros ->; cbn;
    [destruct l1 | destruct l2]; cbn; auto 10.
Qed.

Lemma edge_own_masked i m :
  PMIC_HILVLEN (regs m) = false ->
  level i (step (edge i) m) = level i m.
Proof. destruct i; destruct_machine m; cbn; intros ->; reflexivity. Qed.

Lemma edge_other i j m :
  i <> j ->
  level i (step (edge j) m) = level i m /\
  on_start i (step (edge j) m) = on_start i m /\
  off_start i (step (edge j) m) = off_start i m /\
  pin i (step (edge j) m) = pin i m /\
  compare i (step (edge j) m) = compare i m /\
  armed i (step (edge j) m) = armed i m /\
  TCC4_CNT (regs (step (edge j) m)) = TCC4_CNT (regs m) /\
  PMIC_HILVLEN (regs (step (edge j) m)) = PMIC_HILVLEN (regs m).
Proof.
  intros N.
  destruct i, j; try congruence;
    unfold level, on_start, off_start, pin, compare, armed, edge, step,
      IS_ACC1_ON, IS_ACC2_ON;
    frame_ev; auto 10.
Qed.

Lemma inv_masked i m :
  inv m -> PMIC_HILVLEN (regs m) = false -> level i m = false.
Proof.
  intros (I1 & I2 & _) H.
  assert (R : power_state (vars m) = SM_POWER_RESET).
  { destruct (power_state (vars m)) eqn:P; try reflexivity;
      (rewrite I2 in H by discriminate; discriminate H). }
  destruct (I1 R) as (L1 & L2 & _). destruct i; assumption.
Qed.

Lemma inv_reset_level i m :
  inv m -> power_state (vars m) = SM_POWER_RESET -> level i m = false.
Proof.
  intros (I1 & _) R. destruct (I1 R) as (L1 & L2 & _). destruct i; assumption.
Qed.

(** A tick changes the latched level of channel [i] only by latching OFF,
    when its de-bounce interrupt fires with the pin low. *)
Lemma tick_level i m :
  level i (tick m) =
    if debounce_fires i (TCC4_count m) then level i m && pin i m else level i m.
Proof.
  destruct (tick_channel i m) as (-> & _).
  rewrite debounce_interrupt_eq.
  destruct (debounce_fires i (TCC4_count m)).
  - destruct (debounce_ISR_spec i (TCC4_count m)) as (-> & _).
    destruct i; reflexivity.
  - destruct i; reflexivity.
Qed.

Lemma debounce_fires_eq i m :
  debounce_fires i (TCC4_count m) =
    PMIC_HILVLEN (regs m) && armed i m && (u16 (TCC4_CNT (regs m) + 1) =? compare i m).
Proof. destruct i; reflexivity. Qed.

Lemma pending_step i e m q :
  inv m -> pending i m q -> pending i (step e m) (advance i q e).
Proof.
  intros I Pd.
  assert (Own : forall j, j = i ->
            pending i (step (edge j) m) (Some O)).
  { intros j -> L' P'. exists O. split; [reflexivity |]. intros _.
    destruct (PMIC_HILVLEN (regs m)) eqn:H.
    - destruct (edge_own i m H) as (_ & A & C & _ & _ & _ & T & H').
      rewrite H', A, C, T. repeat split. f_equal. cbn. lia.
    - rewrite (edge_own_masked i m H), (inv_masked i m I H) in L'. discriminate L'. }
  assert (Other : forall j, i <> j -> pending i (step (edge j) m) q).
  { intros j N. destruct (edge_other i j m N) as (L & _ & _ & P & C & A & T & H).
    unfold pending. rewrite L, P, C, A, T, H. exact Pd. }
  destruct e; cbn [advance].
  - (* Tick *)
    intros L' P'. destruct (tick_channel i m) as (_ & _ & _ & A & C & P & T & H).
    cbn [step] in *. rewrite P in P'. rewrite tick_level in L'.
    destruct (debounce_fires i (TCC4_count m)) eqn:F.
    + rewrite P' in L'. rewrite andb_false_r in L'. discriminate L'.
    + destruct (Pd L' P') as (k & -> & Hk). exists (S k). split; [reflexivity |].
      intros K. assert (K' : (k < 50)%nat) by lia.
      destruct (Hk K') as (Hh & Ha & Hc).
      rewrite H, A, C, T, debounce_interrupt_eq, F, Hc.
      repeat split; try assumption.
      replace (u16 (TCC4_CNT (regs m) + 1) + TCNT_DEBOUNCE - Z.of_nat (S k))
        with (u16 (TCC4_CNT (regs m) + 1) + (TCNT_DEBOUNCE - Z.of_nat k) - 1) by lia.
      rewrite u16_shift. f_equal. lia.
  - destruct i; [apply (Own ACC1 eq_refl) | apply (Other ACC1); discriminate].
  - destruct i; [apply (Other ACC2); discriminate | apply (Own ACC2 eq_refl)].
  - (* Poll *)
    cbn [step]. destruct (power_state (vars m)) eqn:R.
    + destruct (loop_body_bring_up m R) as (_ & L1 & L2 & P1 & P2).
      intros L' P'. exfalso. destruct i; cbn in L', P'; unfold IS_ACC1_ON, IS_ACC2_ON in P'.
      * congruence.
      * rewrite L2 in L'. pose proof (inv_reset_level ACC2 m I R) as Z. cbn in Z. congruence.
    + assert (N : power_state (vars m) <> SM_POWER_RESET) by congruence.
      destruct (loop_body_channel i m N) as (L & P & C & A & T & H).
      unfold pending. rewrite L, P, C, A, T, H. exact Pd.
    + assert (N : power_state (vars m) <> SM_POWER_RESET) by congruence.
      destruct (loop_body_channel i m N) as (L & P & C & A & T & H).
      unfold pending. rewrite L, P, C, A, T, H. exact Pd.
    + assert (N : power_state (vars m) <> SM_POWER_RESET) by congruence.
      destruct (loop_body_channel i m N) as (L & P & C & A & T & H).
      unfold pending. rewrite L, P, C, A, T, H. exact Pd.
    + assert (N : power_state (vars m) <> SM_POWER_RESET) by congruence.
      destruct (loop_body_channel i m N) as (L & P & C & A & T & H).
      unfold pending. rewrite L, P, C, A, T, H. exact Pd.
    + assert (N : power_state (vars m) <> SM_POWER_RESET) by congruence.
      destruct (loop_body_channel i m N) as (L & P & C & A & T & H).
      unfold pending. rewrite L, P, C, A, T, H. exact Pd.
Qed.

Lemma TCC4_count_channel i m :
  level i (TCC4_count m) = level i m /\
  pin i (TCC4_count m) = pin i m /\
  on_start i (TCC4_count m) = on_start i m /\
  off_start i (TCC4_count m) = off_start i m /\
  TCC4_CNT (regs (TCC4_count m)) = u16 (TCC4_CNT (regs m) + 1).
Proof. destruct i; cbn; auto. Qed.

(** A tick with the pin reading high leaves level and anchors as they are. *)
Lemma tick_pin_high i m :
  pin i m = true ->
  level i (tick m) = level i m /\
  on_start i (tick m) = on_start i m /\
  off_start i (tick m) = off_start i m.
Proof.
  intros P.
  destruct (tick_channel i m) as (_ & -> & -> & _).
  rewrite tick_level, debounce_interrupt_eq.
  destruct (TCC4_count_channel i m) as (L & P' & On & Off & _).
  destruct (debounce_fires i (TCC4_count m)).
  - destruct (debounce_ISR_spec i (TCC4_count m)) as (_ & -> & -> & _).
    rewrite L, P', P, On, Off, andb_true_r, andb_false_r. auto.
  - rewrite On, Off. auto.
Qed.

(** The latched level goes from ON to OFF only in a tick whose de-bounce
    interrupt fires with the pin low, at least 50 ticks after the last
    edge. *)
Lemma level_drop i e m q :
  inv m -> pending i m q ->
  level i m = true -> level i (step e m) = false ->
  e = Tick /\ pin i m = false /\
  debounce_fires i (TCC4_count m) = true /\
  off_start i (step e m) = TCC4_CNT (regs (step e m)) /\
  on_start i (step e m) = on_start i m /\
  exists k, advance i q e = Some k /\ (50 <= k)%nat.
Proof.
  intros I Pd L L'.
  assert (Own : level i (step (edge i) m) = false -> False).
  { intros D. destruct (PMIC_HILVLEN (regs m)) eqn:H.
    - destruct (edge_own i m H) as (E & _). congruence.
    - rewrite (edge_own_masked i m H) in D. congruence. }
  assert (Other : forall j, i <> j -> level i (step (edge j) m) = false -> False).
  { intros j N D. destruct (edge_other i j m N) as (E & _). congruence. }
  destruct e.
  - (* Tick *)
    cbn [step advance] in *. rewrite tick_level, L in L'.
    destruct (debounce_fires i (TCC4_count m)) eqn:F; [| discriminate L'].
    cbn in L'.
    destruct (tick_channel i m) as (_ & On & Off & _ & _ & _ & T & _).
    destruct (TCC4_count_channel i m) as (Lx & Px & Onx & Offx & Tx).
    destruct (debounce_ISR_spec i (TCC4_count m)) as (_ & Off' & On' & _).
    rewrite debounce_interrupt_eq, F in On, Off.
    rewrite On, Off, On', Off', Lx, Px, L, L', Onx, Tx, T.
    repeat split; try reflexivity.
    destruct (Pd L L') as (k & -> & Hk). exists (S k). split; [reflexivity |].
    destruct (Nat.lt_ge_cases k 49) as [K | K]; [exfalso | lia].
    destruct Hk as (Hh & Ha & Hc); [lia |].
    rewrite debounce_fires_eq, Hh, Ha, Hc in F. cbn in F.
    apply Z.eqb_eq in F. apply u16_no_early_match in F; lia.
  - exfalso. destruct i; [apply Own; exact L' | apply (Other ACC1); [discriminate | exact L']].
  - exfalso. destruct i; [apply (Other ACC2); [discriminate | exact L'] | apply Own; exact L'].
  - exfalso. cbn [step] in L'. destruct (power_state (vars m)) eqn:R;
      try (assert (N : power_state (vars m) <> SM_POWER_RESET) by congruence;
           destruct (loop_body_channel i m N) as (E & _); congruence).
    rewrite (inv_reset_level i m I R) in L. discriminate L.
Qed.

Lemma run_pending i evs m q :
  inv m -> pending i m q ->
  inv (run evs m) /\ pending i (run evs m) (since_edge i q evs).
Proof.
  revert m q. induction evs as [| e evs IH]; cbn; intros m q I Pd; [auto |].
  apply IH; [apply inv_step; exact I | apply pending_step; assumption].
Qed.

Lemma pending_boot i a1 a2 ee w0 : pending i (boot a1 a2 ee w0) None.
Proof. intros L. destruct i; discriminate L. Qed.

(** ** Bring-up *)

(** The initial dispatch reads both pins. *)
Lemma bring_up_dispatch m :
  power_state (vars m) = SM_POWER_RESET ->
  power_state (vars (loop_body m)) =
    if ACC1_IN (regs m)
    then if ACC2_IN (regs m) then SM_POWER_OUT_ON else SM_POWER_OUT_OFF
    else SM_POWER_DOWN.
Proof.
  intros R. destruct (loop_body_bring_up m R) as (-> & _).
  rewrite power_reset_eq. cbn. frame. reflexivity.
Qed.

Lemma step_power_state_reset e m :
  inv m -> power_state (vars (step e m)) = SM_POWER_RESET ->
  e <> Poll /\ power_state (vars m) = SM_POWER_RESET.
Proof.
  intros I. destruct e; cbn [step].
  - frame_ev. split; [discriminate | assumption].
  - frame_ev. split; [discriminate | assumption].
  - frame_ev. split; [discriminate | assumption].
  - intros R. pose proof (inv_loop_body m I) as I'.
    destruct (after_power_post m I) as (P1 & _).
    destruct (loop_body_cases m) as [[_ E] | [(_ & _ & E) | (_ & _ & E)]];
      rewrite E in R; revert R; frame; try contradiction.
    destruct (stayon_sm_power_state (after_power m)) as [-> | ->];
      [contradiction | discriminate].
Qed.

Lemma bring_ups_done evs m :
  inv m -> power_state (vars m) <> SM_POWER_RESET -> bring_ups evs m = O.
Proof.
  revert m. induction evs as [| e evs IH]; cbn; intros m I R; [reflexivity |].
  rewrite IH.
  - destruct e; try reflexivity.
    destruct (power_state (vars m)) eqn:P; try reflexivity. congruence.
  - apply inv_step. exact I.
  - intros R'. apply step_power_state_reset in R'; [| exact I]. tauto.
Qed.

(** Bring-up runs in the first poll cycle after power-up and never again. *)
Lemma bring_up_once evs a1 a2 ee w0 :
  bring_ups evs (boot a1 a2 ee w0) =
    if existsb (fun e => match e with Poll => true | _ => false end) evs
    then 1%nat else O.
Proof.
  assert (G : forall m, inv m -> power_state (vars m) = SM_POWER_RESET ->
            bring_ups evs m =
            if existsb (fun e => match e with Poll => true | _ => false end) evs
            then 1%nat else O).
  { induction evs as [| e evs IH]; cbn; intros m I R; [reflexivity |].
    destruct e; cbn [orb]; rewrite ?R.
    - apply IH; [apply inv_step; exact I | cbn; frame_ev; exact R].
    - apply IH; [apply inv_step; exact I | cbn; frame_ev; exact R].
    - apply IH; [apply inv_step; exact I | cbn; frame_ev; exact R].
    - rewrite bring_ups_done; [reflexivity | apply inv_step; exact I |].
      cbn [step]. rewrite (bring_up_dispatch m R).
      destruct (ACC1_IN (regs m)), (ACC2_IN (regs m)); discriminate. }
  apply G; [apply inv_boot | reflexivity].
Qed.

(** C7, at the input where the code departs from it.  Power-up with both
    pins high: bring-up primes the level of ACC1 from its pin and dispatches
    to [SM_POWER_OUT_ON] on the two raw reads, but it never assigns
    [acc2_last], which keeps its initial OFF although the pin reads high.
    The next poll cycle therefore leaves [SM_POWER_OUT_ON] for
    [SM_POWER_OUT_OFF], and the one after switches the outputs OFF. *)
Theorem bring_up_leaves_acc2_unprimed (ee w0 : Z) :
  let m := loop_body (boot true true ee w0) in
  power_state (vars m) = SM_POWER_OUT_ON /\
  acc1_last (vol m) = IS_ACC1_ON m /\
  IS_ACC2_ON m = true /\ acc2_last (vol m) = false /\
  power_state (vars (loop_body m)) = SM_POWER_OUT_OFF /\
  V12EN (regs (loop_body (loop_body m))) = false.
Proof. cbv zeta. repeat split. Qed.

(** * Further properties of the code *)

(** ** The power machine, state by state *)

(** The state the power switch leaves, for every state it starts in. *)
Lemma power_sm_next x :
  power_state (vars (fst (power_sm x))) =
    match power_state (vars x) with
    | SM_POWER_RESET => dispatch (IS_ACC1_ON x) (IS_ACC2_ON x)
    | SM_POWER_DOWN | SM_POWER_OUT_OFF | SM_POWER_OUT_ON =>
        dispatch (acc1_last (vol x)) (acc2_last (vol x))
    | SM_POWER_OUT_STAY_ON =>
        if acc1_last (vol x) then
          if negb (acc2_last (vol x)) && (acc2_off_time (vars x) >? TCNT_0_5)
          then SM_POWER_OUT_OFF else SM_POWER_OUT_STAY_ON
        else SM_POWER_TIMER
    | SM_POWER_TIMER =>
        if acc1_last (vol x) then dispatch true (acc2_last (vol x))
        else if minutes (vol x) >=? wait_minutes (vars x) then SM_POWER_DOWN
        else SM_POWER_TIMER
    end.
Proof.
  destruct_machine x. unfold power_sm, dispatch. rewrite power_reset_eq. cbn.
  destruct ps, gs; cbn; destruct l1, l2; cbn; split_matches; reflexivity.
Qed.

(** The power state the stay-on switch leaves. *)
Lemma stayon_sm_next x :
  power_state (vars (stayon_sm x)) =
    if gesture_completes x then SM_POWER_OUT_STAY_ON else power_state (vars x).
Proof.
  destruct_machine x. unfold stayon_sm, gesture_completes. cbn.
  destruct ss; cbn; split_matches; try reflexivity; discriminate.
Qed.

(** The power state a poll cycle leaves, by the path it takes. *)
Lemma loop_body_next m :
  power_state (vars (loop_body m)) =
    if acc1_last (vol m) && gesture_completes (after_power m)
       && negb (POWER_SM_eqb (power_state (vars m)) SM_POWER_RESET)
    then SM_POWER_OUT_STAY_ON
    else power_state (vars (after_power m)).
Proof.
  destruct (loop_body_cases m) as [[E ->] | [(N & L & ->) | (R & L & ->)]].
  - destruct E as [E | [[_ E] | [_ [E _]]]]; rewrite E; cbn;
      rewrite ?andb_false_r; reflexivity.
  - rewrite L. frame. reflexivity.
  - rewrite L. frame. rewrite stayon_sm_next.
    destruct (power_state (vars m)); try contradiction;
      cbn; rewrite andb_true_r; reflexivity.
Qed.

Lemma gesture_after_power m :
  gesture_completes (after_power m) =
    match stayon_state (vars m) with
    | SM_STAYON_WAIT_OFF =>
        negb (acc2_off_time (vars (loop_body m)) >? TCNT_3_0) && acc2_last (vol m)
    | _ => false
    end.
Proof.
  destruct (loop_body_times m) as (_ & _ & _ & ->).
  unfold gesture_completes, after_power. frame. reflexivity.
Qed.

Lemma after_power_next m :
  power_state (vars (after_power m)) =
    match power_state (vars m) with
    | SM_POWER_RESET => dispatch (IS_ACC1_ON m) (IS_ACC2_ON m)
    | SM_POWER_DOWN | SM_POWER_OUT_OFF | SM_POWER_OUT_ON =>
        dispatch (acc1_last (vol m)) (acc2_last (vol m))
    | SM_POWER_OUT_STAY_ON =>
        if acc1_last (vol m) then
          if negb (acc2_last (vol m)) &&
             (acc2_off_time (vars (loop_body m)) >? TCNT_0_5)
          then SM_POWER_OUT_OFF else SM_POWER_OUT_STAY_ON
        else SM_POWER_TIMER
    | SM_POWER_TIMER =>
        if acc1_last (vol m) then dispatch true (acc2_last (vol m))
        else if minutes (vol m) >=? wait_minutes (vars m) then SM_POWER_DOWN
        else SM_POWER_TIMER
    end.
Proof.
  destruct (loop_body_times m) as (_ & _ & _ & ->).
  unfold after_power. rewrite power_sm_next. unfold IS_ACC1_ON, IS_ACC2_ON. frame.
  destruct (power_state (vars m)); reflexivity.
Qed.

(** X1. The outputs after a poll cycle: OFF whenever the cycle starts in
    bring-up, [SM_POWER_DOWN] or [SM_POWER_OUT_OFF], ON whenever it starts
    in [SM_POWER_TIMER]; ON otherwise only from [SM_POWER_OUT_ON] or
    [SM_POWER_OUT_STAY_ON]. *)
Theorem relay_output (m : machine) :
  (power_state (vars m) = SM_POWER_RESET \/ power_state (vars m) = SM_POWER_DOWN \/
   power_state (vars m) = SM_POWER_OUT_OFF -> V12EN (regs (loop_body m)) = false) /\
  (power_state (vars m) = SM_POWER_TIMER -> V12EN (regs (loop_body m)) = true) /\
  (V12EN (regs (loop_body m)) = true ->
     power_state (vars m) = SM_POWER_OUT_ON \/
     power_state (vars m) = SM_POWER_OUT_STAY_ON \/
     power_state (vars m) = SM_POWER_TIMER).
Proof.
  rewrite loop_body_V12EN. unfold after_power.
  assert (E : V12EN (regs (fst (power_sm (snapshot m)))) =
              match power_state (vars m) with
              | SM_POWER_RESET | SM_POWER_DOWN | SM_POWER_OUT_OFF => false
              | SM_POWER_TIMER => true
              | _ => match prog_state (vars m) with
                     | SM_PROG_IND_OFF => false | _ => true end
              end).
  { assert (P : power_state (vars (snapshot m)) = power_state (vars m))
      by (frame; reflexivity).
    assert (G : prog_state (vars (snapshot m)) = prog_state (vars m))
      by (frame; reflexivity).
    rewrite <- P, <- G. generalize (snapshot m). intros x. destruct_machine x.
    unfold power_sm. rewrite power_reset_eq. cbn.
    destruct ps, gs; cbn; split_matches; reflexivity. }
  rewrite E. destruct (power_state (vars m)); repeat split;
    try (intros [H | [H | H]]; discriminate H); try discriminate; auto.
Qed.

(** After bring-up with ACC1 OFF the machine is in [SM_POWER_DOWN] and the
    next poll cycle leaves the outputs OFF. *)
Lemma relay_output_witness :
  let m := run [Poll] (boot false true 30 0) in
  power_state (vars m) = SM_POWER_DOWN /\ V12EN (regs (loop_body m)) = false.
Proof.
  intro m.
  assert (P : power_state (vars m) = SM_POWER_DOWN) by reflexivity.
  split; [exact P |].
  destruct (relay_output m) as (W & _).
  apply W. right. left. exact P.
Defined.

(** X2. The dispatch of a poll cycle that starts in [SM_POWER_DOWN],
    [SM_POWER_OUT_OFF] or [SM_POWER_OUT_ON]: ACC1 OFF leads to
    [SM_POWER_DOWN]; ACC1 ON with ACC2 OFF to [SM_POWER_OUT_OFF]; ACC1 ON with
    ACC2 ON to [SM_POWER_OUT_ON], unless the stay-on machine completes its
    gesture in this cycle, which leads to [SM_POWER_OUT_STAY_ON].  From
    [SM_POWER_DOWN] the gesture cannot complete. *)
Theorem ready_dispatch (m : machine) :
  reachable m ->
  power_state (vars m) = SM_POWER_DOWN \/ power_state (vars m) = SM_POWER_OUT_OFF \/
  power_state (vars m) = SM_POWER_OUT_ON ->
  let m' := loop_body m in
  (acc1_last (vol m) = false -> power_state (vars m') = SM_POWER_DOWN) /\
  (acc1_last (vol m) = true -> acc2_last (vol m) = false ->
     power_state (vars m') = SM_POWER_OUT_OFF) /\
  (acc1_last (vol m) = true -> acc2_last (vol m) = true ->
     power_state (vars m') =
       match stayon_state (vars m) with
       | SM_STAYON_WAIT_OFF =>
           if acc2_off_time (vars m') >? TCNT_3_0
           then SM_POWER_OUT_ON else SM_POWER_OUT_STAY_ON
       | _ => SM_POWER_OUT_ON
       end) /\
  (power_state (vars m) = SM_POWER_DOWN -> acc1_last (vol m) = true ->
     acc2_last (vol m) = true -> power_state (vars m') = SM_POWER_OUT_ON).
Proof.
  intros Hr P. apply reachable_inv in Hr. destruct Hr as (_ & _ & I3 & _). cbv zeta.
  rewrite loop_body_next, gesture_after_power, after_power_next.
  assert (D : power_state (vars m) = SM_POWER_DOWN ->
              stayon_state (vars m) = SM_STAYON_RESET).
  { intros D. apply I3. left. exact D. }
  destruct P as [P | [P | P]]; rewrite P in *; cbn [POWER_SM_eqb negb];
    rewrite ?andb_true_r;
    (split; [| split; [| split]]); try discriminate;
    try (intros ->; cbn; reflexivity);
    try (intros -> ->; cbn;
         destruct (stayon_state (vars m));
         try destruct (acc2_off_time (vars (loop_body m)) >? TCNT_3_0);
         reflexivity).
  intros _ -> ->. rewrite (D eq_refl). reflexivity.
Qed.

(** From power-down with ACC2 already ON, ACC1 turning ON leads straight to
    [SM_POWER_OUT_ON]. *)
Lemma ready_dispatch_witness :
  let m := run [Poll; ACC2_edge; ACC1_edge] (boot false false 30 0) in
  reachable m /\ power_state (vars m) = SM_POWER_DOWN /\
  power_state (vars (loop_body m)) = SM_POWER_OUT_ON.
Proof.
  intro m.
  assert (Hr : reachable m) by (apply reachable_run; constructor; lia).
  assert (P : power_state (vars m) = SM_POWER_DOWN) by reflexivity.
  split; [exact Hr | split; [exact P |]].
  destruct (ready_dispatch m Hr (or_introl P)) as (_ & _ & _ & W).
  apply W; reflexivity.
Defined.

(** A poll cycle in [SM_POWER_TIMER] with ACC1 OFF: it compares the clock
    with [wait_minutes] and touches neither of them. *)
Lemma loop_body_timer_idle m :
  power_state (vars m) = SM_POWER_TIMER -> acc1_last (vol m) = false ->
  let m' := loop_body m in
  power_state (vars m') =
    (if minutes (vol m) >=? wait_minutes (vars m)
     then SM_POWER_DOWN else SM_POWER_TIMER) /\
  minutes (vol m') = minutes (vol m) /\ seconds (vol m') = seconds (vol m) /\
  TCC4_CCC (regs m') = TCC4_CCC (regs m) /\
  wait_minutes (vars m') = wait_minutes (vars m) /\
  CCCINTLVL (regs m') = CCCINTLVL (regs m).
Proof.
  intros P L. cbv zeta.
  assert (Q : power_state (vars (snapshot m)) = SM_POWER_TIMER) by (frame; exact P).
  assert (L' : acc1_last (vol (snapshot m)) = false) by (frame; exact L).
  assert (K : minutes (vol (after_power m)) = minutes (vol m) /\
              seconds (vol (after_power m)) = seconds (vol m) /\
              TCC4_CCC (regs (after_power m)) = TCC4_CCC (regs m) /\
              wait_minutes (vars (after_power m)) = wait_minutes (vars m) /\
              CCCINTLVL (regs (after_power m)) = CCCINTLVL (regs m)).
  { assert (M : minutes (vol (snapshot m)) = minutes (vol m)) by (frame; reflexivity).
    assert (S' : seconds (vol (snapshot m)) = seconds (vol m)) by (frame; reflexivity).
    assert (C : TCC4_CCC (regs (snapshot m)) = TCC4_CCC (regs m)) by (frame; reflexivity).
    assert (W : wait_minutes (vars (snapshot m)) = wait_minutes (vars m))
      by (frame; reflexivity).
    assert (I : CCCINTLVL (regs (snapshot m)) = CCCINTLVL (regs m))
      by (frame; reflexivity).
    rewrite <- M, <- S', <- C, <- W, <- I. unfold after_power.
    revert Q L'. generalize (snapshot m). intros x. destruct_machine x.
    unfold power_sm. cbn. intros -> ->. split_matches; auto. }
  rewrite loop_body_next, after_power_next, P, L. cbn [andb].
  split; [reflexivity |].
  destruct (loop_body_cases m) as [[_ ->] | [(_ & _ & ->) | (_ & L2 & _)]];
    [exact K | frame; exact K | congruence].
Qed.

(** X3. A poll cycle that starts in [SM_POWER_TIMER]: with ACC1 back ON it
    dispatches on ACC2 alone; with ACC1 OFF it moves to [SM_POWER_DOWN]
    exactly when [minutes >= wait_minutes], otherwise it stays, and in both
    cases it leaves the clock, its compare value and [wait_minutes] as
    they are. *)
Theorem timer_step (m : machine) :
  reachable m ->
  power_state (vars m) = SM_POWER_TIMER ->
  let m' := loop_body m in
  (acc1_last (vol m) = true ->
     power_state (vars m') =
       if acc2_last (vol m) then SM_POWER_OUT_ON else SM_POWER_OUT_OFF) /\
  (acc1_last (vol m) = false ->
     power_state (vars m') =
       (if minutes (vol m) >=? wait_minutes (vars m)
        then SM_POWER_DOWN else SM_POWER_TIMER) /\
     minutes (vol m') = minutes (vol m) /\ seconds (vol m') = seconds (vol m) /\
     TCC4_CCC (regs m') = TCC4_CCC (regs m) /\
     wait_minutes (vars m') = wait_minutes (vars m)).
Proof.
  intros Hr P. apply reachable_inv in Hr. destruct Hr as (_ & _ & I3 & _). cbv zeta.
  destruct (I3 (or_intror P)) as [S _].
  split.
  - intros L. rewrite loop_body_next, gesture_after_power, after_power_next, P, L, S.
    cbn. reflexivity.
  - intros L.
    destruct (loop_body_timer_idle m P L) as (E1 & E2 & E3 & E4 & E5 & _). auto.
Qed.

(** Stay-on with the default 30 minutes, ACC1 dropped 60 ms ago: the poll
    cycle stays in [SM_POWER_TIMER]. *)
Lemma timer_step_witness :
  let m := run (stay_on_session ++ ACC1_edge :: ms 60) (boot true false 30 0) in
  reachable m /\ power_state (vars m) = SM_POWER_TIMER /\
  power_state (vars (loop_body m)) = SM_POWER_TIMER.
Proof.
  intro m.
  assert (Hr : reachable m) by (apply reachable_run; constructor; lia).
  assert (P : power_state (vars m) = SM_POWER_TIMER) by (vm_compute; reflexivity).
  split; [exact Hr | split; [exact P |]].
  destruct (timer_step m Hr P) as (_ & W).
  destruct W as (W & _); [vm_compute; reflexivity |].
  rewrite W. vm_compute. reflexivity.
Defined.

Lemma power_sm_enter_timer x :
  power_state (vars x) = SM_POWER_OUT_STAY_ON -> acc1_last (vol x) = false ->
  minutes (vol (fst (power_sm x))) = 0 /\ seconds (vol (fst (power_sm x))) = 0 /\
  TCC4_CCC (regs (fst (power_sm x))) = u16 (TCC4_CNT (regs x) + TCNT_1_0).
Proof.
  destruct_machine x. unfold power_sm. cbn. intros -> ->.
  destruct gs; cbn; auto.
Qed.

(** X4. The two latched states have one way in each.  A poll cycle ends in
    [SM_POWER_OUT_STAY_ON] only if it started there or the stay-on machine
    completed its gesture in it (ACC1 and ACC2 ON, [SM_STAYON_WAIT_OFF], OFF
    time at most 3000).  It ends in [SM_POWER_TIMER] only with ACC1 OFF, and
    only if it started there or in [SM_POWER_OUT_STAY_ON]; in the latter case
    it has cleared the clock and set the one-second compare 1000 ticks
    ahead. *)
Theorem latched_state_entries (m : machine) :
  let m' := loop_body m in
  (power_state (vars m') = SM_POWER_OUT_STAY_ON ->
     power_state (vars m) = SM_POWER_OUT_STAY_ON \/
     (acc1_last (vol m) = true /\ acc2_last (vol m) = true /\
      stayon_state (vars m) = SM_STAYON_WAIT_OFF /\
      acc2_off_time (vars m') <= TCNT_3_0)) /\
  (power_state (vars m') = SM_POWER_TIMER ->
     acc1_last (vol m) = false /\
     (power_state (vars m) = SM_POWER_TIMER \/
      (power_state (vars m) = SM_POWER_OUT_STAY_ON /\
       minutes (vol m') = 0 /\ seconds (vol m') = 0 /\
       TCC4_CCC (regs m') = u16 (TCC4_CNT (regs m) + TCNT_1_0)))).
Proof.
  cbv zeta. rewrite loop_body_next, gesture_after_power, after_power_next.
  split.
  - destruct (acc1_last (vol m) && _ && _) eqn:B.
    + intros _. right.
      apply andb_prop in B. destruct B as [B _].
      apply andb_prop in B. destruct B as [L G]. rewrite L.
      destruct (stayon_state (vars m)); try discriminate G.
      apply andb_prop in G. destruct G as [C L2].
      unfold TCNT_3_0 in *. repeat split; [exact L2 | lia].
    + clear B. destruct (power_state (vars m)); unfold dispatch; auto;
        repeat match goal with
               | |- context [if ?b then _ else _] => destruct b
               end; discriminate.
  - intros T.
    assert (A : acc1_last (vol m) = false /\
                (power_state (vars m) = SM_POWER_TIMER \/
                 power_state (vars m) = SM_POWER_OUT_STAY_ON)).
    { revert T.
      destruct (acc1_last (vol m)) eqn:L, (power_state (vars m)) eqn:P; cbn;
        unfold dispatch;
        try (destruct (IS_ACC1_ON m), (IS_ACC2_ON m));
        try (destruct (stayon_state (vars m)));
        try (destruct (acc2_last (vol m))); cbn;
        try (destruct (_ >? _)); cbn;
        try (destruct (_ >? _)); cbn;
        try discriminate; auto. }
    destruct A as [L [P | P]]; [auto |]. split; [exact L |]. right.
    split; [exact P |].
    assert (R : ~ ends_in_power_sm m).
    { intros [E | [[E _] | [E _]]]; congruence. }
    rewrite (loop_body_gate m R L). frame. unfold after_power.
    destruct (power_sm_enter_timer (snapshot m)) as (M & S & C);
      [frame; exact P | frame; exact L |].
    rewrite M, S, C. frame. auto.
Qed.

(** In stay-on, ACC1 dropped and de-bounced: the next poll cycle enters
    [SM_POWER_TIMER] with the clock cleared. *)
Lemma latched_state_entries_witness :
  let m := run (stay_on_session ++ ACC1_edge :: repeat Tick 50) (boot true false 30 0) in
  power_state (vars (loop_body m)) = SM_POWER_TIMER /\
  acc1_last (vol m) = false /\
  (power_state (vars m) = SM_POWER_TIMER \/
   (power_state (vars m) = SM_POWER_OUT_STAY_ON /\
    minutes (vol (loop_body m)) = 0 /\ seconds (vol (loop_body m)) = 0 /\
    TCC4_CCC (regs (loop_body m)) = u16 (TCC4_CNT (regs m) + TCNT_1_0))).
Proof.
  intro m.
  assert (T : power_state (vars (loop_body m)) = SM_POWER_TIMER)
    by (vm_compute; reflexivity).
  split; [exact T |].
  destruct (latched_state_entries m) as (_ & W).
  exact (W T).
Defined.

(** ** The stay-on period *)

(** The one-second compare interrupt stays enabled once bring-up has run. *)
Lemma reachable_CCCINTLVL m :
  reachable m -> power_state (vars m) <> SM_POWER_RESET -> CCCINTLVL (regs m) = true.
Proof.
  induction 1 as [a1 a2 ee w0 H | e m H IH]; [cbn; congruence |].
  pose proof (reachable_inv m H) as I.
  destruct e; cbn [step].
  - frame_ev. exact IH.
  - frame_ev. exact IH.
  - frame_ev. exact IH.
  - intros _.
    assert (D : power_state (vars m) = SM_POWER_RESET \/
                power_state (vars m) <> SM_POWER_RESET)
      by (destruct (power_state (vars m)); [left; reflexivity | right; discriminate ..]).
    destruct D as [P | R].
    + destruct (loop_body_bring_up m P) as (-> & _). rewrite power_reset_eq. reflexivity.
    + assert (R' : power_state (vars (snapshot m)) <> SM_POWER_RESET) by (frame; exact R).
      destruct (loop_body_cases m) as [[_ ->] | [(_ & _ & ->) | (_ & _ & ->)]];
        unfold after_power; frame; apply IH; exact R.
Qed.

(** The one-second handler, when it is due: it re-arms itself 1000 ticks
    ahead and advances the clock by one second, the minutes saturating at
    60. *)
Lemma CCC_interrupt_spec x :
  0 <= seconds (vol x) < 60 -> 0 <= minutes (vol x) <= 60 ->
  let due := PMIC_HILVLEN (regs x) && CCCINTLVL (regs x) &&
             (TCC4_CNT (regs x) =? TCC4_CCC (regs x)) in
  seconds (vol (CCC_interrupt x)) =
    (if due then if seconds (vol x) =? 59 then 0 else seconds (vol x) + 1
     else seconds (vol x)) /\
  minutes (vol (CCC_interrupt x)) =
    (if due && (seconds (vol x) =? 59) then Z.min 60 (minutes (vol x) + 1)
     else minutes (vol x)) /\
  TCC4_CCC (regs (CCC_interrupt x)) =
    (if due then u16 (TCC4_CNT (regs x) + TCNT_1_0) else TCC4_CCC (regs x)).
Proof.
  destruct_machine x. unfold CCC_interrupt, ISR_TCC4_CCC. cbn. intros Hs Hm.
  assert (E1 : u8 (sec + 1) = sec + 1) by (unfold u8; apply Z.mod_small; lia).
  assert (E2 : u8 (mn + 1) = mn + 1) by (unfold u8; apply Z.mod_small; lia).
  destruct (hi && ec && (cnt =? ccc)); cbn; [| auto].
  rewrite E1. destruct (sec =? 59) eqn:S.
  - apply Z.eqb_eq in S. subst sec. cbn. rewrite E2.
    destruct (mn + 1 >? 60) eqn:M; cbn; repeat split; lia.
  - apply Z.eqb_neq in S. destruct (sec + 1 =? 60) eqn:S'; [lia |]. cbn. auto.
Qed.

Lemma u16_due c r :
  0 <= r < 1000 ->
  (u16 (c + 1) =? u16 (c + TCNT_1_0 - r)) = (r =? 999).
Proof.
  unfold u16, TCNT_1_0. intros Hr.
  destruct (r =? 999) eqn:E.
  - apply Z.eqb_eq in E. subst r. apply Z.eqb_eq. f_equal. lia.
  - apply Z.eqb_neq in E. apply Z.eqb_neq. intros D.
    assert (D' : (c + 1000 - r - (c + 1)) mod 65536 = 0).
    { rewrite Zminus_mod, <- D, Z.sub_diag. reflexivity. }
    replace (c + 1000 - r - (c + 1)) with (999 - r) in D' by lia.
    rewrite Z.mod_small in D' by lia. lia.
Qed.

Lemma timing_tick w m s r :
  timing w m s r ->
  timing w (tick m) (if r =? 999 then s + 1 else s) (if r =? 999 then 0 else r + 1).
Proof.
  unfold timing. intros (P & L & H & C & W & Hs & Hr & S & M & A).
  assert (Rs : 0 <= seconds (vol m) < 60) by (rewrite S; apply Z.mod_pos_bound; lia).
  assert (Rm : 0 <= minutes (vol m) <= 60).
  { rewrite M. assert (0 <= s / 60) by (apply Z.div_pos; lia). lia. }
  assert (L' : acc1_last (vol (tick m)) = false).
  { change (level ACC1 (tick m) = false). rewrite tick_level.
    change (level ACC1 m) with (acc1_last (vol m)). rewrite L.
    destruct (debounce_fires ACC1 (TCC4_count m)); reflexivity. }
  assert (N : TCC4_CNT (regs (tick m)) = u16 (TCC4_CNT (regs m) + 1))
    by (frame_ev; reflexivity).
  split; [frame_ev; exact P |]. split; [exact L' |].
  split; [frame_ev; exact H |]. split; [frame_ev; exact C |].
  split; [frame_ev; exact W |].
  rewrite N. unfold tick.
  set (x := CCB_interrupt (CCA_interrupt (TCC4_count m))).
  assert (Xs : seconds (vol x) = seconds (vol m)) by (unfold x; frame_ev; reflexivity).
  assert (Xm : minutes (vol x) = minutes (vol m)) by (unfold x; frame_ev; reflexivity).
  assert (Xh : PMIC_HILVLEN (regs x) = true) by (unfold x; frame_ev; exact H).
  assert (Xc : CCCINTLVL (regs x) = true) by (unfold x; frame_ev; exact C).
  assert (Xa : TCC4_CCC (regs x) = TCC4_CCC (regs m)) by (unfold x; frame_ev; reflexivity).
  assert (Xn : TCC4_CNT (regs x) = u16 (TCC4_CNT (regs m) + 1))
    by (unfold x; frame_ev; reflexivity).
  destruct (CCC_interrupt_spec x) as (-> & -> & ->);
    [rewrite Xs; exact Rs | rewrite Xm; exact Rm |].
  rewrite Xs, Xm, Xh, Xc, Xa, Xn, A, u16_due by exact Hr. cbn [andb].
  pose proof (Z.div_mod s 60 ltac:(lia)) as Ds.
  pose proof (Z.mod_pos_bound s 60 ltac:(lia)) as Bs.
  destruct (r =? 999) eqn:E.
  - apply Z.eqb_eq in E.
    assert (Q : (s + 1) / 60 = (if s mod 60 =? 59 then s / 60 + 1 else s / 60) /\
                (s + 1) mod 60 = (if s mod 60 =? 59 then 0 else s mod 60 + 1)).
    { destruct (s mod 60 =? 59) eqn:F.
      - apply Z.eqb_eq in F. split; [symmetry; apply (Z.div_unique _ _ _ 0); lia |
                                     symmetry; apply (Z.mod_unique _ _ (s / 60 + 1)); lia].
      - apply Z.eqb_neq in F.
        split; [symmetry; apply (Z.div_unique _ _ _ (s mod 60 + 1)); lia |
                symmetry; apply (Z.mod_unique _ _ (s / 60)); lia]. }
    destruct Q as (Q1 & Q2). rewrite Q1, Q2, S.
    repeat split; try lia.
    + cbn [andb]. rewrite M. destruct (s mod 60 =? 59); lia.
    + f_equal. lia.
  - apply Z.eqb_neq in E. repeat split; try lia; try assumption.
    replace (u16 (TCC4_CNT (regs m) + 1) + TCNT_1_0 - (r + 1))
      with (u16 (TCC4_CNT (regs m) + 1) + (TCNT_1_0 - r) - 1) by lia.
    rewrite u16_shift. f_equal. lia.
Qed.

Lemma timing_poll w m s r :
  timing w m s r ->
  (minutes (vol m) < w -> timing w (loop_body m) s r) /\
  (w <= minutes (vol m) -> down_idle (loop_body m)).
Proof.
  unfold timing, down_idle. intros (P & L & H & C & W & Hs & Hr & S & M & A).
  assert (R : power_state (vars m) <> SM_POWER_RESET) by congruence.
  destruct (loop_body_timer_idle m P L) as (E1 & E2 & E3 & E4 & E5 & E6).
  destruct (loop_body_channel ACC1 m R) as (F1 & _ & _ & _ & F2 & F3).
  change (acc1_last (vol (loop_body m)) = acc1_last (vol m)) in F1.
  rewrite E1, E2, E3, E4, E5, E6, F1, F2, F3, W. split; intros Q.
  - destruct (minutes (vol m) >=? w) eqn:G; [lia |]. auto 12.
  - destruct (minutes (vol m) >=? w) eqn:G; [auto | lia].
Qed.

Lemma timing_acc2_edge w m s r :
  timing w m s r -> timing w (acc2_edge m) s r.
Proof.
  unfold timing. intros (P & L & H & C & W & Hs & Hr & S & M & A).
  destruct (edge_other ACC1 ACC2 m) as (F1 & _ & _ & _ & _ & _ & F2 & F3);
    [discriminate |].
  change (acc1_last (vol (acc2_edge m)) = acc1_last (vol m)) in F1.
  change (TCC4_CNT (regs (acc2_edge m)) = TCC4_CNT (regs m)) in F2.
  change (PMIC_HILVLEN (regs (acc2_edge m)) = PMIC_HILVLEN (regs m)) in F3.
  rewrite F1, F2, F3. frame_ev. auto 12.
Qed.

Lemma down_idle_step e m :
  is_edge ACC1 e = false -> down_idle m -> down_idle (step e m).
Proof.
  unfold down_idle. intros N (P & L). destruct e; try discriminate N; cbn [step].
  - split; [frame_ev; exact P |].
    change (level ACC1 (tick m) = false). rewrite tick_level.
    change (level ACC1 m) with (acc1_last (vol m)). rewrite L.
    destruct (debounce_fires ACC1 (TCC4_count m)); reflexivity.
  - destruct (edge_other ACC1 ACC2 m) as (F1 & _); [discriminate |].
    change (acc1_last (vol (acc2_edge m)) = acc1_last (vol m)) in F1.
    rewrite F1. frame_ev. auto.
  - assert (R : power_state (vars m) <> SM_POWER_RESET) by congruence.
    destruct (loop_body_channel ACC1 m R) as (F1 & _).
    change (acc1_last (vol (loop_body m)) = acc1_last (vol m)) in F1.
    rewrite F1, loop_body_next, after_power_next, P, L. auto.
Qed.

Lemma down_idle_run evs m :
  quiet ACC1 evs = true ->
  down_idle m -> down_idle (run evs m).
Proof.
  revert m. induction evs as [| e evs IH]; intros m N D; [exact D |].
  cbn in N. apply andb_prop in N. destruct N as [N1 N2].
  apply negb_true_iff in N1. cbn [run]. apply IH; [exact N2 |].
  apply down_idle_step; assumption.
Qed.

Lemma timing_start m :
  reachable m ->
  power_state (vars m) = SM_POWER_OUT_STAY_ON -> acc1_last (vol m) = false ->
  timing (wait_minutes (vars m)) (loop_body m) 0 0.
Proof.
  intros Hr P L.
  assert (R : power_state (vars m) <> SM_POWER_RESET) by congruence.
  assert (R' : power_state (vars (snapshot m)) <> SM_POWER_RESET) by (frame; exact R).
  pose proof (reachable_CCCINTLVL m Hr R) as C.
  apply reachable_inv in Hr.
  destruct (loop_body_channel ACC1 m R) as (F1 & _ & _ & _ & F2 & F3).
  change (acc1_last (vol (loop_body m)) = acc1_last (vol m)) in F1.
  unfold timing. rewrite F1, F2, F3.
  assert (T : power_state (vars (loop_body m)) = SM_POWER_TIMER)
    by (rewrite loop_body_next, after_power_next, P, L; reflexivity).
  assert (N : ~ ends_in_power_sm m).
  { intros [E | [[E _] | [E _]]]; congruence. }
  rewrite T, (loop_body_gate m N L). frame. unfold after_power.
  destruct (power_sm_enter_timer (snapshot m)) as (M & S & A);
    [frame; exact P | frame; exact L |].
  rewrite M, S, A. frame.
  destruct Hr as (_ & I2 & _).
  repeat split; auto; try lia.
  f_equal. lia.
Qed.

Lemma ticks_nonneg evs : 0 <= ticks evs.
Proof.
  induction evs as [| e evs IH]; cbn [ticks]; [lia |]. destruct e; lia.
Qed.

(** The timing invariant along a run without ACC1 edges: either the period
    is still being timed, with the clock showing every tick so far, or a
    poll has found it over and powered down. *)
Lemma timing_run w evs :
  forall m s r,
  timing w m s r ->
  quiet ACC1 evs = true ->
  let n := 1000 * s + r + ticks evs in
  timing w (run evs m) (n / 1000) (n mod 1000) \/
  (down_idle (run evs m) /\ w <= Z.min 60 (n / 60000)).
Proof.
  induction evs as [| e evs IH]; intros m s r T N; cbv zeta.
  - left. cbn [run ticks].
    assert (Hr : 0 <= r < 1000) by (destruct T as (_ & _ & _ & _ & _ & _ & Hr & _); exact Hr).
    replace ((1000 * s + r + 0) / 1000) with s
      by (apply (Z.div_unique _ _ _ r); lia).
    replace ((1000 * s + r + 0) mod 1000) with r
      by (apply (Z.mod_unique _ _ s); lia).
    exact T.
  - cbn in N. apply andb_prop in N. destruct N as [N1 N2].
    pose proof (ticks_nonneg evs) as Hn.
    destruct e; try discriminate N1; cbn [run step ticks].
    + pose proof (IH _ _ _ (timing_tick w m s r T) N2) as K. cbv zeta in K.
      assert (Hr : 0 <= r < 1000)
        by (destruct T as (_ & _ & _ & _ & _ & _ & Hr & _); exact Hr).
      replace (1000 * (if r =? 999 then s + 1 else s)
               + (if r =? 999 then 0 else r + 1) + ticks evs)
        with (1000 * s + r + (1 + ticks evs)) in K; [exact K |].
      destruct (r =? 999) eqn:E; [apply Z.eqb_eq in E |]; lia.
    + exact (IH _ _ _ (timing_acc2_edge w m s r T) N2).
    + destruct (timing_poll w m s r T) as [A B].
      destruct (Z.lt_ge_cases (minutes (vol m)) w) as [Q | Q].
      * exact (IH _ _ _ (A Q) N2).
      * right. split; [apply down_idle_run; [exact N2 | exact (B Q)] |].
        destruct T as (_ & _ & _ & _ & _ & Hs & Hr & _ & M & _).
        rewrite M in Q.
        assert (D : s / 60 <= (1000 * s + r + ticks evs) / 60000).
        { replace 60000 with (1000 * 60) by reflexivity.
          rewrite <- Z.div_div by lia.
          apply Z.div_le_mono; [lia |].
          apply Z.div_le_lower_bound; lia. }
        lia.
Qed.

(** X5. The length of the stay-on period.  A poll cycle in
    [SM_POWER_OUT_STAY_ON] that finds ACC1 OFF starts the period.  From
    then on, as long as ACC1 gives no edge and whatever ACC2 and the polling
    do, with [n] the number of timer ticks since: the machine is in
    [SM_POWER_TIMER] or [SM_POWER_DOWN]; it is still in [SM_POWER_TIMER]
    while [n] is below [wait_minutes] minutes; in [SM_POWER_TIMER] the clock
    shows [n] exactly, [seconds] being the whole seconds modulo 60 and
    [minutes] the whole minutes held at 60; and once [n] has reached
    [wait_minutes] minutes (at most 60), the next poll cycle leaves the
    machine in [SM_POWER_DOWN]. *)
Theorem stay_on_duration (m : machine) (evs : list event) :
  reachable m ->
  power_state (vars m) = SM_POWER_OUT_STAY_ON -> acc1_last (vol m) = false ->
  quiet ACC1 evs = true ->
  let w := wait_minutes (vars m) in
  let n := ticks evs in
  let m' := run evs (loop_body m) in
  (power_state (vars m') = SM_POWER_TIMER \/ power_state (vars m') = SM_POWER_DOWN) /\
  (n < 60000 * w -> power_state (vars m') = SM_POWER_TIMER) /\
  (power_state (vars m') = SM_POWER_TIMER ->
     minutes (vol m') = Z.min 60 (n / 60000) /\
     seconds (vol m') = (n / 1000) mod 60) /\
  (60000 * w <= n -> w <= 60 ->
     power_state (vars (loop_body m')) = SM_POWER_DOWN).
Proof.
  intros Hr P L N. cbv zeta.
  pose proof (timing_run _ evs _ _ _ (timing_start m Hr P L) N) as K.
  cbv zeta in K. change (1000 * 0 + 0 + ticks evs) with (ticks evs) in K.
  pose proof (ticks_nonneg evs) as Hn.
  assert (D : ticks evs / 1000 / 60 = ticks evs / 60000)
    by (rewrite Z.div_div by lia; reflexivity).
  destruct K as [T | [I Q]].
  - pose proof T as (T1 & _ & _ & _ & _ & _ & _ & S & M & _).
    rewrite D in M.
    split; [left; exact T1 |]. split; [intros _; exact T1 |].
    split; [intros _; split; assumption |].
    intros Q1 Q2. destruct (timing_poll _ _ _ _ T) as [_ B].
    apply B. rewrite M.
    assert (wait_minutes (vars m) <= ticks evs / 60000)
      by (apply Z.div_le_lower_bound; lia).
    lia.
  - pose proof I as (I1 & _).
    split; [right; exact I1 |].
    split; [intros Q1 |].
    { assert (ticks evs / 60000 < wait_minutes (vars m))
        by (apply Z.div_lt_upper_bound; lia).
      lia. }
    split; [intros T; congruence |].
    intros _ _. apply (down_idle_step Poll); [reflexivity | exact I].
Qed.

(** Stay-on with the default 30 minutes, ACC1 dropped and de-bounced: 2500
    ticks and polls later the machine is timing, the clock at 0:02. *)
Lemma stay_on_duration_witness :
  let m := run (stay_on_session ++ ACC1_edge :: repeat Tick 50) (boot true false 30 0) in
  let m' := run (ms 2500) (loop_body m) in
  reachable m /\ power_state (vars m) = SM_POWER_OUT_STAY_ON /\
  acc1_last (vol m) = false /\
  power_state (vars m') = SM_POWER_TIMER /\
  minutes (vol m') = 0 /\ seconds (vol m') = 2.
Proof.
  intros m m'.
  assert (Hr : reachable m) by (apply reachable_run; constructor; lia).
  assert (P : power_state (vars m) = SM_POWER_OUT_STAY_ON) by (vm_compute; reflexivity).
  assert (L : acc1_last (vol m) = false) by (vm_compute; reflexivity).
  assert (N : quiet ACC1 (ms 2500) = true)
    by (vm_compute; reflexivity).
  split; [exact Hr | split; [exact P | split; [exact L |]]].
  destruct (stay_on_duration m (ms 2500) Hr P L N) as (_ & A & B & _).
  assert (T : power_state (vars m') = SM_POWER_TIMER)
    by (apply A; vm_compute; reflexivity).
  split; [exact T |]. destruct (B T) as (B1 & B2).
  split.
  - etransitivity; [exact B1 | vm_compute; reflexivity].
  - etransitivity; [exact B2 | vm_compute; reflexivity].
Defined.

(** ** Levels and durations between polls *)

(** Without an edge on its pin a latched level that is OFF stays OFF; a poll
    cycle is the exception when it is bring-up, which reads ACC1. *)
Lemma step_level_off i e m :
  is_edge i e = false ->
  (e = Poll -> i = ACC2 \/ power_state (vars m) <> SM_POWER_RESET) ->
  level i m = false -> level i (step e m) = false.
Proof.
  intros N Q L. destruct e; cbn [step].
  - rewrite tick_level, L. destruct (debounce_fires i (TCC4_count m)); reflexivity.
  - destruct i; [discriminate N |].
    destruct (edge_other ACC2 ACC1 m) as (E & _); [discriminate |].
    cbn [edge step] in E. rewrite E. exact L.
  - destruct i; [| discriminate N].
    destruct (edge_other ACC1 ACC2 m) as (E & _); [discriminate |].
    cbn [edge step] in E. rewrite E. exact L.
  - assert (D : power_state (vars m) = SM_POWER_RESET \/
                power_state (vars m) <> SM_POWER_RESET)
      by (destruct (power_state (vars m)); [left; reflexivity | right; discriminate ..]).
    destruct D as [R | R].
    + destruct (Q eq_refl) as [-> | R']; [| contradiction].
      destruct (loop_body_bring_up m R) as (_ & _ & E & _).
      cbn [level] in *. rewrite E. exact L.
    + destruct (loop_body_channel i m R) as (E & _). rewrite E. exact L.
Qed.

Lemma run_level_off i evs :
  forall m, quiet i evs = true -> unpolled evs = true ->
  level i m = false -> level i (run evs m) = false.
Proof.
  induction evs as [| e evs IH]; intros m Q U L; [exact L |].
  cbn in Q, U. apply andb_prop in Q. destruct Q as [Q1 Q2].
  apply andb_prop in U. destruct U as [U1 U2].
  apply negb_true_iff in Q1. cbn [run]. apply IH; try assumption.
  apply step_level_off; try assumption.
  intros ->. discriminate U1.
Qed.

Lemma run_level_off_quiet i evs :
  forall m, inv m ->
  i = ACC2 \/ power_state (vars m) <> SM_POWER_RESET ->
  quiet i evs = true ->
  level i m = false -> level i (run evs m) = false.
Proof.
  induction evs as [| e evs IH]; intros m I G Q L; [exact L |].
  cbn in Q. apply andb_prop in Q. destruct Q as [Q1 Q2].
  apply negb_true_iff in Q1. cbn [run]. apply IH.
  - apply inv_step. exact I.
  - destruct G as [G | G]; [left; exact G | right].
    intros R. apply (step_power_state_reset e m I) in R. tauto.
  - exact Q2.
  - apply step_level_off; auto.
Qed.

(** X6. A latched level rises only on an edge of its own pin: once bring-up
    has run, a level that is OFF is OFF after any run of ticks, poll cycles
    and edges on the other pin.  For ACC2 this holds from power-up, bring-up
    included. *)
Theorem level_rises_only_on_edge (i : input) (m : machine) (evs : list event) :
  reachable m ->
  i = ACC2 \/ power_state (vars m) <> SM_POWER_RESET ->
  quiet i evs = true ->
  level i m = false -> level i (run evs m) = false.
Proof.
  intros Hr. apply run_level_off_quiet. apply reachable_inv. exact Hr.
Qed.

(** Power-up with both pins high: a second of ticks and polls later ACC2 is
    still latched OFF. *)
Lemma level_rises_only_on_edge_witness :
  let m := boot true true 30 0 in
  reachable m /\ level ACC2 m = false /\ level ACC2 (run (ms 1000) m) = false.
Proof.
  intro m.
  assert (Hr : reachable m) by (constructor; lia).
  split; [exact Hr | split; [reflexivity |]].
  apply (level_rises_only_on_edge ACC2 m (ms 1000) Hr);
    [left; reflexivity | vm_compute; reflexivity | reflexivity].
Defined.

(** One event that is neither a poll nor an edge on pin [i], seen from
    channel [i]: the counter advances with the ticks, and the anchor of the
    level is kept while the level is. *)
Lemma step_idle i e m :
  is_edge i e = false -> is_Poll e = false ->
  u16 (TCC4_CNT (regs (step e m))) = u16 (TCC4_CNT (regs m) + ticks [e]) /\
  (level i (step e m) = level i m -> anchor i (step e m) = anchor i m).
Proof.
  intros N U. unfold anchor. destruct e; try discriminate U; cbn [step ticks].
  - destruct (tick_channel i m) as (_ & On & Off & _ & _ & _ & T & _).
    destruct (TCC4_count_channel i m) as (Lx & Px & Onx & Offx & Tx).
    rewrite T, On, Off, debounce_interrupt_eq.
    split; [unfold u16; rewrite Z.mod_mod by lia; f_equal; lia |].
    rewrite tick_level. intros E. rewrite E.
    destruct (debounce_fires i (TCC4_count m)); [| rewrite Onx, Offx; reflexivity].
    destruct (debounce_ISR_spec i (TCC4_count m)) as (_ & -> & -> & _).
    rewrite Lx, Px, Onx, Offx.
    destruct (level i m) eqn:L; [reflexivity |]. reflexivity.
  - destruct i; [discriminate N |].
    destruct (edge_other ACC2 ACC1 m) as (E1 & E2 & E3 & _ & _ & _ & E4 & _);
      [discriminate |].
    cbn [edge step] in *. rewrite E1, E2, E3, E4, Z.add_0_r. auto.
  - destruct i; [| discriminate N].
    destruct (edge_other ACC1 ACC2 m) as (E1 & E2 & E3 & _ & _ & _ & E4 & _);
      [discriminate |].
    cbn [edge step] in *. rewrite E1, E2, E3, E4, Z.add_0_r. auto.
Qed.

Lemma run_idle i evs :
  forall m, quiet i evs = true -> unpolled evs = true ->
  level i (run evs m) = level i m ->
  u16 (TCC4_CNT (regs (run evs m))) = u16 (TCC4_CNT (regs m) + ticks evs) /\
  anchor i (run evs m) = anchor i m.
Proof.
  induction evs as [| e evs IH]; intros m Q U L.
  - cbn [run ticks]. rewrite Z.add_0_r. auto.
  - cbn in Q, U. apply andb_prop in Q. destruct Q as [Q1 Q2].
    apply andb_prop in U. destruct U as [U1 U2].
    apply negb_true_iff in Q1. apply negb_true_iff in U1.
    cbn [run] in *.
    destruct (step_idle i e m Q1 U1) as (C & A).
    assert (L1 : level i (step e m) = level i m).
    { destruct (level i m) eqn:Lm.
      - destruct (level i (step e m)) eqn:Ls; [reflexivity |].
        rewrite (run_level_off i evs _ Q2 U2 Ls) in L. discriminate L.
      - apply step_level_off; try assumption. intros ->. discriminate U1. }
    destruct (IH (step e m) Q2 U2) as (C' & A'); [congruence |].
    rewrite A', (A L1). split; [| reflexivity].
    rewrite C'. unfold u16 in *.
    rewrite <- Zplus_mod_idemp_l, C, Zplus_mod_idemp_l. f_equal.
    cbn [ticks]. destruct e; lia.
Qed.

(** Bring-up is never entered again. *)
Lemma loop_body_not_reset m :
  inv m -> power_state (vars (loop_body m)) <> SM_POWER_RESET.
Proof.
  intros I Rs. destruct (step_power_state_reset Poll m I Rs) as [N _].
  apply N. reflexivity.
Qed.

Lemma run_not_reset evs :
  forall m, inv m -> power_state (vars m) <> SM_POWER_RESET ->
  power_state (vars (run evs m)) <> SM_POWER_RESET.
Proof.
  induction evs as [| e evs IH]; intros m I R; [exact R |].
  cbn [run]. apply IH; [apply inv_step; exact I |].
  intros Rs. apply (step_power_state_reset e m I) in Rs. tauto.
Qed.

(** What a poll cycle leaves for channel [i]: the duration is the distance
    from the anchor of the level to the counter, saturated. *)
Lemma loop_body_duration i m :
  power_state (vars m) <> SM_POWER_RESET ->
  let m' := loop_body m in
  duration i m' = Z.min TCNT_65_0 (sub16 (TCC4_CNT (regs m)) (anchor i m)) /\
  duration i m' = sub16 (TCC4_CNT (regs m')) (anchor i m') /\
  level i m' = level i m.
Proof.
  intros R. cbv zeta.
  destruct (loop_body_channel i m R) as (L & _ & _ & _ & C & _).
  destruct (loop_body_measures m) as [M1 M2]. cbv zeta in M1, M2.
  pose proof (sub16_rewritten_anchor (TCC4_CNT (regs m))) as W.
  split; [| split; [| exact L]].
  - unfold duration, anchor.
    destruct i; cbn [level on_start off_start] in *; rewrite L;
      [destruct M1 as (B & G & S) | destruct M2 as (B & G & S)];
      unfold acc1_active_anchor, acc2_active_anchor, TCNT_65_0 in *;
      match goal with
      | |- _ = Z.min _ ?r =>
          destruct (Z_le_gt_dec r 65000) as [Q | Q];
            [destruct (S Q) as (-> & _) | destruct (G Q) as (-> & _)]; lia
      end.
  - unfold duration, anchor. rewrite C.
    destruct i; cbn [level on_start off_start] in *; rewrite L;
      [destruct M1 as (B & G & S) | destruct M2 as (B & G & S)];
      unfold acc1_active_anchor, acc2_active_anchor, TCNT_65_0 in *;
      match type of S with
      | ?r <= _ -> _ =>
          destruct (Z_le_gt_dec r 65000) as [Q | Q];
            [destruct (S Q) as (-> & ->); reflexivity
            | destruct (G Q) as (-> & ->); symmetry; exact W]
      end.
Qed.

(** X7. Durations count ticks.  Between a poll cycle and the next one, let
    the run hold no edge on pin [i] and let the latched level of [i] be the
    same at both ends.  Then the duration the second cycle computes for [i]
    is the duration the first one computed plus the number of ticks in
    between, held at 65000, provided this sum is below 65536, the range of
    the 16-bit counter. *)
Theorem duration_counts_ticks (i : input) (m : machine) (evs : list event) :
  reachable m -> power_state (vars m) <> SM_POWER_RESET ->
  let m1 := loop_body m in
  let m2 := run evs m1 in
  quiet i evs = true -> unpolled evs = true ->
  level i m2 = level i m1 ->
  duration i m1 + ticks evs < 65536 ->
  duration i (loop_body m2) = Z.min TCNT_65_0 (duration i m1 + ticks evs).
Proof.
  intros Hr R. cbv zeta. intros Q U L B.
  destruct (loop_body_duration i m R) as (D0 & D1 & _). cbv zeta in D0, D1.
  assert (R2 : power_state (vars (run evs (loop_body m))) <> SM_POWER_RESET).
  { apply reachable_inv in Hr.
    apply run_not_reset; [apply inv_loop_body; exact Hr |].
    apply loop_body_not_reset. exact Hr. }
  destruct (loop_body_duration i _ R2) as (D2 & _). cbv zeta in D2.
  destruct (run_idle i evs (loop_body m) Q U L) as (C & A).
  rewrite D2, A. f_equal.
  pose proof (ticks_nonneg evs) as Hn.
  assert (P0 : 0 <= duration i (loop_body m)).
  { rewrite D1. apply sub16_range. }
  rewrite D1 in *. unfold sub16, u16 in *.
  rewrite <- Zminus_mod_idemp_l, C, Zminus_mod_idemp_l.
  replace (TCC4_CNT (regs (loop_body m)) + ticks evs - anchor i (loop_body m))
    with (TCC4_CNT (regs (loop_body m)) - anchor i (loop_body m) + ticks evs) by lia.
  rewrite <- Zplus_mod_idemp_l. apply Z.mod_small. lia.
Qed.

(** Bring-up with ACC1 ON, a poll, then 250 ticks: the next poll cycle
    computes an ON time of 250 for ACC1. *)
Lemma duration_counts_ticks_witness :
  let m := run [Poll] (boot true false 30 0) in
  reachable m /\ power_state (vars m) <> SM_POWER_RESET /\
  duration ACC1 (loop_body (run (repeat Tick 250) (loop_body m))) = 250.
Proof.
  intro m.
  assert (Hr : reachable m) by (apply reachable_run; constructor; lia).
  assert (R : power_state (vars m) <> SM_POWER_RESET) by (vm_compute; discriminate).
  split; [exact Hr | split; [exact R |]].
  etransitivity.
  - apply (duration_counts_ticks ACC1 m (repeat Tick 250) Hr R);
      vm_compute; reflexivity.
  - vm_compute. reflexivity.
Defined.

(** ** The end sequence and the stored period *)

(** The programming switch in its last four states. *)
Lemma prog_sm_end_phase x :
  let x' := prog_sm x in
  (prog_state (vars x) = SM_PROG_END_ON ->
     (acc2_on_time (vars x') > TCNT_7_0 -> prog_state (vars x') = SM_PROG_RESET) /\
     (acc2_on_time (vars x') <= TCNT_7_0 -> acc2_last (vol x) = false ->
        (acc2_on_time (vars x') > TCNT_4_0 -> prog_state (vars x') = SM_PROG_END_OFF) /\
        (acc2_on_time (vars x') <= TCNT_4_0 -> prog_state (vars x') = SM_PROG_RESET)) /\
     (acc2_on_time (vars x') <= TCNT_7_0 -> acc2_last (vol x) = true ->
        prog_state (vars x') = SM_PROG_END_ON)) /\
  (prog_state (vars x) = SM_PROG_END_OFF ->
     (acc2_off_time (vars x') > TCNT_7_0 -> prog_state (vars x') = SM_PROG_RESET) /\
     (acc2_off_time (vars x') <= TCNT_7_0 -> acc2_last (vol x) = true ->
        (acc2_off_time (vars x') > TCNT_4_0 -> prog_state (vars x') = SM_PROG_IND_ON) /\
        (acc2_off_time (vars x') <= TCNT_4_0 -> prog_state (vars x') = SM_PROG_RESET)) /\
     (acc2_off_time (vars x') <= TCNT_7_0 -> acc2_last (vol x) = false ->
        prog_state (vars x') = SM_PROG_END_OFF)) /\
  (prog_state (vars x) = SM_PROG_IND_ON ->
     (acc2_last (vol x) = false -> prog_state (vars x') = SM_PROG_RESET) /\
     (acc2_last (vol x) = true ->
        (acc2_on_time (vars x') > TCNT_2_0 -> prog_state (vars x') = SM_PROG_IND_OFF) /\
        (acc2_on_time (vars x') <= TCNT_2_0 -> prog_state (vars x') = SM_PROG_IND_ON))) /\
  (prog_state (vars x) = SM_PROG_IND_OFF ->
     (acc2_last (vol x) = false -> prog_state (vars x') = SM_PROG_RESET) /\
     (acc2_last (vol x) = true ->
        (acc2_on_time (vars x') > TCNT_3_0 -> prog_state (vars x') = SM_PROG_RESET) /\
        (acc2_on_time (vars x') <= TCNT_3_0 -> prog_state (vars x') = SM_PROG_IND_OFF))).
Proof.
  cbv zeta. destruct_machine x. unfold prog_sm. cbn.
  unfold TCNT_2_0, TCNT_3_0, TCNT_4_0, TCNT_7_0.
  destruct gs; cbn; split_matches;
    (split; [| split; [| split]]); intros G; try discriminate G;
    repeat split; intros; try reflexivity; try congruence; try lia;
    subst; discriminate.
Qed.

(** X8. The end of the programming sequence, poll cycle by poll cycle, with
    ACC1 ON and the durations computed in the cycle.  In [SM_PROG_END_ON] an
    ON time above 7000 aborts to reset; otherwise, once ACC2 is OFF, an ON
    time above 4000 enters [SM_PROG_END_OFF] and a shorter one aborts.  In
    [SM_PROG_END_OFF] an OFF time above 7000 aborts; otherwise, once ACC2 is
    ON, an OFF time above 4000 enters [SM_PROG_IND_ON] and a shorter one
    aborts.  In [SM_PROG_IND_ON] ACC2 OFF aborts, and with ACC2 ON an ON time
    above 2000 enters [SM_PROG_IND_OFF].  In [SM_PROG_IND_OFF] ACC2 OFF or
    an ON time above 3000 ends the sequence in reset.  In every other case
    the state is kept. *)
Theorem prog_end_phase (m : machine) :
  reachable m -> acc1_last (vol m) = true ->
  let m' := loop_body m in
  (prog_state (vars m) = SM_PROG_END_ON ->
     (acc2_on_time (vars m') > TCNT_7_0 -> prog_state (vars m') = SM_PROG_RESET) /\
     (acc2_on_time (vars m') <= TCNT_7_0 -> acc2_last (vol m) = false ->
        (acc2_on_time (vars m') > TCNT_4_0 -> prog_state (vars m') = SM_PROG_END_OFF) /\
        (acc2_on_time (vars m') <= TCNT_4_0 -> prog_state (vars m') = SM_PROG_RESET)) /\
     (acc2_on_time (vars m') <= TCNT_7_0 -> acc2_last (vol m) = true ->
        prog_state (vars m') = SM_PROG_END_ON)) /\
  (prog_state (vars m) = SM_PROG_END_OFF ->
     (acc2_off_time (vars m') > TCNT_7_0 -> prog_state (vars m') = SM_PROG_RESET) /\
     (acc2_off_time (vars m') <= TCNT_7_0 -> acc2_last (vol m) = true ->
        (acc2_off_time (vars m') > TCNT_4_0 -> prog_state (vars m') = SM_PROG_IND_ON) /\
        (acc2_off_time (vars m') <= TCNT_4_0 -> prog_state (vars m') = SM_PROG_RESET)) /\
     (acc2_off_time (vars m') <= TCNT_7_0 -> acc2_last (vol m) = false ->
        prog_state (vars m') = SM_PROG_END_OFF)) /\
  (prog_state (vars m) = SM_PROG_IND_ON ->
     (acc2_last (vol m) = false -> prog_state (vars m') = SM_PROG_RESET) /\
     (acc2_last (vol m) = true ->
        (acc2_on_time (vars m') > TCNT_2_0 -> prog_state (vars m') = SM_PROG_IND_OFF) /\
        (acc2_on_time (vars m') <= TCNT_2_0 -> prog_state (vars m') = SM_PROG_IND_ON))) /\
  (prog_state (vars m) = SM_PROG_IND_OFF ->
     (acc2_last (vol m) = false -> prog_state (vars m') = SM_PROG_RESET) /\
     (acc2_last (vol m) = true ->
        (acc2_on_time (vars m') > TCNT_3_0 -> prog_state (vars m') = SM_PROG_RESET) /\
        (acc2_on_time (vars m') <= TCNT_3_0 -> prog_state (vars m') = SM_PROG_IND_OFF))).
Proof.
  intros Hr L. apply reachable_inv in Hr. cbv zeta.
  assert (R : power_state (vars m) <> SM_POWER_RESET).
  { intros R. apply Hr in R. destruct R as [R _]. congruence. }
  destruct (prog_sm_entry m R L) as (-> & <- & _ & <-).
  exact (prog_sm_end_phase (stayon_sm (after_power m))).
Qed.

(** A complete programming session of three flashes, ACC2 kept ON for
    2.5 s after the end sequence without a poll: the next poll cycle starts
    the OFF half of the indication. *)
Lemma prog_end_phase_witness :
  let m := run (program 2 ++ repeat Tick 2500) (boot true false 30 0) in
  reachable m /\ acc1_last (vol m) = true /\
  prog_state (vars m) = SM_PROG_IND_ON /\
  prog_state (vars (loop_body m)) = SM_PROG_IND_OFF.
Proof.
  intro m.
  assert (Hr : reachable m) by (apply reachable_run; constructor; lia).
  assert (L : acc1_last (vol m) = true) by (vm_compute; reflexivity).
  assert (P : prog_state (vars m) = SM_PROG_IND_ON) by (vm_compute; reflexivity).
  split; [exact Hr | split; [exact L | split; [exact P |]]].
  destruct (prog_end_phase m Hr L) as (_ & _ & W & _).
  destruct (W P) as (_ & W2).
  destruct W2 as (W3 & _); [vm_compute; reflexivity |].
  apply W3. vm_compute. reflexivity.
Defined.

(** The programming switch stores a byte in one place only, and the copy in
    RAM with it. *)
Lemma prog_sm_store x :
  let x' := prog_sm x in
  (eeprom_wait_minutes (regs x') = eeprom_wait_minutes (regs x) /\
   wait_minutes (vars x') = wait_minutes (vars x)) \/
  (prog_state (vars x) = SM_PROG_END_OFF /\ prog_state (vars x') = SM_PROG_IND_ON /\
   acc2_last (vol x) = true /\
   TCNT_4_0 < acc2_off_time (vars x') <= TCNT_7_0 /\
   eeprom_wait_minutes (regs x') = minutes_of_flashes (flash_count (vars x)) /\
   wait_minutes (vars x') = minutes_of_flashes (flash_count (vars x))).
Proof.
  cbv zeta. destruct_machine x. unfold prog_sm, minutes_of_flashes. cbn.
  unfold TCNT_4_0, TCNT_7_0.
  destruct gs; cbn; split_matches; auto; right; repeat split; auto; lia.
Qed.

(** X9. The stored stay-on period changes in one place only.  No tick and no
    edge changes the EEPROM byte or [wait_minutes]; a poll cycle changes them
    only when it completes the end sequence, that is with ACC1 and ACC2 ON,
    from [SM_PROG_END_OFF] to [SM_PROG_IND_ON], on an OFF time in
    (4000, 7000]; it then writes to both the same value, ten times the
    flash count held at 25, a multiple of ten between 0 and 250. *)
Theorem period_stored_on_confirm_only (m : machine) (e : event) :
  reachable m -> power_state (vars m) <> SM_POWER_RESET ->
  let m' := step e m in
  (eeprom_wait_minutes (regs m') = eeprom_wait_minutes (regs m) /\
   wait_minutes (vars m') = wait_minutes (vars m)) \/
  (e = Poll /\ acc1_last (vol m) = true /\ acc2_last (vol m) = true /\
   prog_state (vars m) = SM_PROG_END_OFF /\ prog_state (vars m') = SM_PROG_IND_ON /\
   TCNT_4_0 < acc2_off_time (vars m') <= TCNT_7_0 /\
   eeprom_wait_minutes (regs m') = minutes_of_flashes (flash_count (vars m)) /\
   wait_minutes (vars m') = minutes_of_flashes (flash_count (vars m)) /\
   exists k, 0 <= k <= 25 /\ minutes_of_flashes (flash_count (vars m)) = 10 * k).
Proof.
  intros Hr R. cbv zeta.
  pose proof (reachable_flash_count m Hr) as F.
  assert (R' : power_state (vars (snapshot m)) <> SM_POWER_RESET) by (frame; exact R).
  destruct e; cbn [step]; try (left; split; frame_ev; reflexivity).
  destruct (loop_body_cases m) as [[_ ->] | [(_ & _ & ->) | (_ & L & E)]].
  - left. unfold after_power. frame. auto.
  - left. unfold after_power. frame. auto.
  - destruct (prog_sm_entry m R L) as (-> & P & C & A). clear E.
    destruct (prog_sm_store (stayon_sm (after_power m))) as [[E1 E2] | K].
    + left. rewrite E1, E2. unfold after_power. frame. auto.
    + right. rewrite P, C, A in K.
      destruct K as (K1 & K2 & K3 & K4 & K5 & K6).
      repeat split; auto; try lia.
      apply minutes_of_flashes_range. exact F.
Qed.

(** The session of the source's header comment, up to the last poll: that
    poll cycle stores 20. *)
Lemma period_stored_on_confirm_only_witness :
  let m := run (Poll :: acc2_for 1000 ++ acc2_for 1000 ++ acc2_for 1000 ++
                acc2_for 5000 ++ acc2_for 5000 ++ acc2_for 5000 ++ [ACC2_edge])
               (boot true false 30 0) in
  reachable m /\ power_state (vars m) <> SM_POWER_RESET /\
  eeprom_wait_minutes (regs m) = 30 /\
  eeprom_wait_minutes (regs (step Poll m)) = 20 /\
  wait_minutes (vars (step Poll m)) = 20.
Proof.
  intro m.
  assert (Hr : reachable m) by (apply reachable_run; constructor; lia).
  assert (R : power_state (vars m) <> SM_POWER_RESET) by (vm_compute; discriminate).
  assert (E : eeprom_wait_minutes (regs m) = 30) by (vm_compute; reflexivity).
  assert (E' : eeprom_wait_minutes (regs (step Poll m)) = 20) by (vm_compute; reflexivity).
  assert (F : minutes_of_flashes (flash_count (vars m)) = 20) by (vm_compute; reflexivity).
  split; [exact Hr | split; [exact R | split; [exact E |]]].
  destruct (period_stored_on_confirm_only m Poll Hr R)
    as [[K _] | (_ & _ & _ & _ & _ & _ & K1 & K2 & _)].
  - rewrite E, E' in K. discriminate K.
  - rewrite F in K1, K2. split; assumption.
Defined.

Lemma prog_sm_keeps_copy x :
  wait_minutes (vars x) = eeprom_wait_minutes (regs x) ->
  wait_minutes (vars (prog_sm x)) = eeprom_wait_minutes (regs (prog_sm x)).
Proof.
  intros H. destruct (prog_sm_store x) as [[-> ->] | (_ & _ & _ & _ & -> & ->)];
    [exact H | reflexivity].
Qed.

(** X10. After bring-up [wait_minutes] always equals the EEPROM byte: the
    period the stay-on timer runs against is the stored one, and a period
    programmed in one session is the one in force after the next
    power-up. *)
Theorem wait_minutes_is_stored (m : machine) :
  reachable m -> power_state (vars m) <> SM_POWER_RESET ->
  wait_minutes (vars m) = eeprom_wait_minutes (regs m).
Proof.
  induction 1 as [a1 a2 ee w0 H | e m H IH]; [cbn; congruence |].
  destruct e; cbn [step].
  - frame_ev. exact IH.
  - frame_ev. exact IH.
  - frame_ev. exact IH.
  - intros _.
    assert (D : power_state (vars m) = SM_POWER_RESET \/
                power_state (vars m) <> SM_POWER_RESET)
      by (destruct (power_state (vars m)); [left; reflexivity | right; discriminate ..]).
    destruct D as [P | R].
    + destruct (loop_body_bring_up m P) as (-> & _). rewrite power_reset_eq.
      cbn. reflexivity.
    + assert (R' : power_state (vars (snapshot m)) <> SM_POWER_RESET) by (frame; exact R).
      destruct (loop_body_cases m) as [[_ ->] | [(_ & _ & ->) | (_ & _ & ->)]].
      * unfold after_power. frame. apply IH. exact R.
      * unfold after_power. frame. apply IH. exact R.
      * apply prog_sm_keeps_copy. unfold after_power. frame. apply IH. exact R.
Qed.

(** After a power-up with 40 in EEPROM and an arbitrary byte in RAM, one
    poll cycle later the period in force is 40 minutes. *)
Lemma wait_minutes_is_stored_witness :
  let m := run [Poll] (boot false false 40 7) in
  reachable m /\ power_state (vars m) <> SM_POWER_RESET /\ wait_minutes (vars m) = 40.
Proof.
  intro m.
  assert (Hr : reachable m) by (apply reachable_run; constructor; lia).
  assert (R : power_state (vars m) <> SM_POWER_RESET) by (vm_compute; discriminate).
  split; [exact Hr | split; [exact R |]].
  rewrite (wait_minutes_is_stored m Hr R). vm_compute. reflexivity.
Defined.

(** ** Power-up *)

(** Until the first poll cycle nothing is latched: the machine stays in
    bring-up with interrupts masked, so ticks and edges leave the levels,
    the sequence machines and the EEPROM byte alone. *)
Lemma run_before_bring_up evs :
  forall m, inv m -> unpolled evs = true ->
  power_state (vars m) = SM_POWER_RESET ->
  inv (run evs m) /\ power_state (vars (run evs m)) = SM_POWER_RESET /\
  eeprom_wait_minutes (regs (run evs m)) = eeprom_wait_minutes (regs m).
Proof.
  induction evs as [| e evs IH]; intros m I U R; [auto |].
  cbn in U. apply andb_prop in U. destruct U as [U1 U2].
  cbn [run].
  assert (K : power_state (vars (step e m)) = SM_POWER_RESET /\
              eeprom_wait_minutes (regs (step e m)) = eeprom_wait_minutes (regs m)).
  { destruct e; try discriminate U1; cbn [step]; frame_ev; auto. }
  destruct K as (K1 & K2).
  destruct (IH (step e m) (inv_step e m I) U2 K1) as (J1 & J2 & J3).
  rewrite J3, K2. auto.
Qed.

(** X11. Power-up.  Whatever ticks and edges precede the first poll cycle,
    they are not latched; that cycle is bring-up, which leaves the outputs
    OFF, the watchdog and the interrupts enabled, the clock at zero with its
    compare 1000 ticks ahead, [wait_minutes] read from EEPROM, the level of
    ACC1 read from its pin and the level of ACC2 untouched, and dispatches on
    the two pins as they read at that moment.  Bring-up is not executed
    again, whatever follows. *)
Theorem power_up (a1 a2 : bool) (ee w0 : Z) (evs : list event) :
  unpolled evs = true ->
  let m0 := run evs (boot a1 a2 ee w0) in
  let m := loop_body m0 in
  (power_state (vars m0) = SM_POWER_RESET /\
   level ACC1 m0 = false /\ level ACC2 m0 = false) /\
  (power_state (vars m) = dispatch (pin ACC1 m0) (pin ACC2 m0) /\
   level ACC1 m = pin ACC1 m0 /\ level ACC2 m = false /\
   wait_minutes (vars m) = ee /\ minutes (vol m) = 0 /\ seconds (vol m) = 0 /\
   TCC4_CCC (regs m) = u16 (TCC4_CNT (regs m0) + TCNT_1_0) /\
   V12EN (regs m) = false /\ PMIC_HILVLEN (regs m) = true /\
   WDT_ENABLE (regs m) = true) /\
  forall evs', bring_ups evs' m = O.
Proof.
  intros U. cbv zeta.
  destruct (run_before_bring_up evs (boot a1 a2 ee w0) (inv_boot a1 a2 ee w0) U eq_refl)
    as (I & R & E).
  change (eeprom_wait_minutes (regs (boot a1 a2 ee w0))) with ee in E.
  set (m0 := run evs (boot a1 a2 ee w0)) in *.
  pose proof I as (I1 & _). destruct (I1 R) as (L1 & L2 & _).
  split; [auto |].
  assert (D : power_state (vars (loop_body m0)) = dispatch (pin ACC1 m0) (pin ACC2 m0)).
  { rewrite (bring_up_dispatch m0 R). reflexivity. }
  split.
  - split; [exact D |].
    destruct (loop_body_bring_up m0 R) as (-> & _). rewrite power_reset_eq.
    cbn. frame. rewrite E, L2. repeat split; reflexivity.
  - intros evs'. apply bring_ups_done; [apply inv_loop_body; exact I |].
    rewrite D. unfold dispatch. destruct (pin ACC1 m0), (pin ACC2 m0); discriminate.
Qed.

(** ACC1 goes high 20 ticks after power-up, before the first poll: that
    poll finds it ON and dispatches to [SM_POWER_OUT_OFF]. *)
Lemma power_up_witness :
  let m0 := run (repeat Tick 20 ++ [ACC1_edge]) (boot false false 30 0) in
  level ACC1 m0 = false /\
  power_state (vars (loop_body m0)) = SM_POWER_OUT_OFF /\
  level ACC1 (loop_body m0) = true.
Proof.
  intro m0.
  assert (U : unpolled (repeat Tick 20 ++ [ACC1_edge]) = true) by reflexivity.
  destruct (power_up false false 30 0 _ U) as ((_ & L & _) & (D & L' & _) & _).
  split; [exact L | split].
  - etransitivity; [exact D | reflexivity].
  - etransitivity; [exact L' | reflexivity].
Defined.

(** ** De-bouncing to OFF *)

Lemma u16_due_in c d r :
  0 <= r < d -> d <= 65536 ->
  (u16 (c + 1) =? u16 (c + d - r)) = (r =? d - 1).
Proof.
  unfold u16. intros Hr Hd.
  destruct (r =? d - 1) eqn:E.
  - apply Z.eqb_eq in E. subst r. apply Z.eqb_eq. f_equal. lia.
  - apply Z.eqb_neq in E. apply Z.eqb_neq. intros D.
    assert (D' : (c + d - r - (c + 1)) mod 65536 = 0).
    { rewrite Zminus_mod, <- D, Z.sub_diag. reflexivity. }
    replace (c + d - r - (c + 1)) with (d - 1 - r) in D' by lia.
    rewrite Z.mod_small in D' by lia. lia.
Qed.

(** One event other than an edge on pin [i] while [i] is being de-bounced:
    the 50th tick latches OFF, every other event keeps the de-bounce
    going. *)
Lemma debouncing_step i e m k :
  inv m -> is_edge i e = false -> debouncing i m k ->
  match e with
  | Tick =>
      if k <? 49 then debouncing i (step e m) (k + 1)
      else level i (step e m) = false /\
           power_state (vars (step e m)) <> SM_POWER_RESET
  | _ => debouncing i (step e m) k
  end.
Proof.
  unfold debouncing, TCNT_DEBOUNCE. intros I N (R & L & P & A & H & Hk & C).
  destruct e; cbn [step].
  - (* Tick *)
    destruct (tick_channel i m) as (_ & _ & _ & A' & C' & P' & T' & H').
    assert (F : debounce_fires i (TCC4_count m) = (k =? 49)).
    { rewrite debounce_fires_eq, H, A, C. cbn [andb]. apply u16_due_in; lia. }
    assert (Rt : power_state (vars (tick m)) <> SM_POWER_RESET) by (frame_ev; exact R).
    assert (Ax : armed i (TCC4_count m) = armed i m) by (destruct i; reflexivity).
    destruct (k <? 49) eqn:K.
    + apply Z.ltb_lt in K.
      assert (F' : debounce_fires i (TCC4_count m) = false)
        by (rewrite F; apply Z.eqb_neq; lia).
      rewrite tick_level, A', debounce_interrupt_eq, F', C', P', T', H', Ax.
      repeat split; auto; try lia.
      rewrite C.
      replace (u16 (TCC4_CNT (regs m) + 1) + 50 - (k + 1))
        with (u16 (TCC4_CNT (regs m) + 1) + (50 - k) - 1) by lia.
      rewrite u16_shift. f_equal. lia.
    + apply Z.ltb_ge in K.
      assert (F' : debounce_fires i (TCC4_count m) = true)
        by (rewrite F; apply Z.eqb_eq; lia).
      rewrite tick_level, F', L, P. auto.
  - (* ACC1_edge *)
    destruct i; [discriminate N |].
    destruct (edge_other ACC2 ACC1 m) as (E1 & _ & _ & E2 & E3 & E4 & E5 & E6);
      [discriminate |].
    cbn [edge step] in *. rewrite E1, E2, E3, E4, E5, E6.
    repeat split; auto; try lia. frame_ev. exact R.
  - (* ACC2_edge *)
    destruct i; [| discriminate N].
    destruct (edge_other ACC1 ACC2 m) as (E1 & _ & _ & E2 & E3 & E4 & E5 & E6);
      [discriminate |].
    cbn [edge step] in *. rewrite E1, E2, E3, E4, E5, E6.
    repeat split; auto; try lia. frame_ev. exact R.
  - (* Poll *)
    destruct (loop_body_channel i m R) as (E1 & E2 & E3 & E4 & E5 & E6).
    rewrite E1, E2, E3, E4, E5, E6.
    repeat split; auto; try lia. apply loop_body_not_reset. exact I.
Qed.

Lemma debouncing_run i evs :
  forall m k, inv m -> quiet i evs = true -> debouncing i m k ->
  (k + ticks evs < TCNT_DEBOUNCE -> debouncing i (run evs m) (k + ticks evs)) /\
  (TCNT_DEBOUNCE <= k + ticks evs -> level i (run evs m) = false).
Proof.
  unfold TCNT_DEBOUNCE.
  induction evs as [| e evs IH]; intros m k I Q D.
  - cbn [run ticks]. rewrite Z.add_0_r. split; [intros _; exact D |].
    destruct D as (_ & _ & _ & _ & _ & Hk & _). unfold TCNT_DEBOUNCE in Hk. lia.
  - cbn in Q. apply andb_prop in Q. destruct Q as [Q1 Q2].
    apply negb_true_iff in Q1.
    pose proof (debouncing_step i e m k I Q1 D) as S.
    pose proof (inv_step e m I) as I'.
    pose proof (ticks_nonneg evs) as Hn.
    assert (Hk : 0 <= k < 50)
      by (destruct D as (_ & _ & _ & _ & _ & Hk & _); exact Hk).
    cbn [run].
    destruct e; cbn [ticks];
      try (destruct (IH _ k I' Q2 S) as (A & B); split; assumption).
    destruct (k <? 49) eqn:K.
    + destruct (IH _ (k + 1) I' Q2 S) as (A & B).
      replace (k + (1 + ticks evs)) with (k + 1 + ticks evs) by lia.
      split; assumption.
    + apply Z.ltb_ge in K. destruct S as (L & R).
      split; [lia | intros _].
      apply run_level_off_quiet; auto.
Qed.

(** X12. De-bouncing to OFF.  After bring-up, let pin [i] fall while its
    level is latched ON and give no further edge.  Whatever else happens
    (ticks, poll cycles, edges on the other pin), the level is still ON
    while fewer than 50 ticks have passed since the edge, and it is OFF once
    50 have. *)
Theorem debounce_latches_off (i : input) (m : machine) (evs : list event) :
  reachable m -> power_state (vars m) <> SM_POWER_RESET ->
  pin i m = true -> quiet i evs = true ->
  let m' := run evs (step (edge i) m) in
  (ticks evs < TCNT_DEBOUNCE -> level i m' = true) /\
  (TCNT_DEBOUNCE <= ticks evs -> level i m' = false).
Proof.
  intros Hr R P Q. cbv zeta. apply reachable_inv in Hr.
  pose proof Hr as (_ & I2 & _).
  destruct (edge_own i m (I2 R)) as (E1 & E2 & E3 & _ & _ & E4 & E5 & E6).
  assert (D : debouncing i (step (edge i) m) 0).
  { unfold debouncing. rewrite E1, E2, E3, E4, E5, E6, P.
    repeat split; auto; try (unfold TCNT_DEBOUNCE; lia).
    - destruct i; cbn [edge step]; frame_ev; exact R.
    - f_equal. lia. }
  destruct (debouncing_run i evs _ 0 (inv_step _ m Hr) Q D) as (A & B).
  rewrite Z.add_0_l in A, B. split; [| exact B].
  intros K. destruct (A K) as (_ & L & _). exact L.
Qed.

(** ACC1 ON at power-up, then its pin falls: 49 ms later ACC1 is still
    latched ON, 50 ms later it is OFF. *)
Lemma debounce_latches_off_witness :
  let m := run [Poll] (boot true false 30 0) in
  reachable m /\ power_state (vars m) <> SM_POWER_RESET /\ pin ACC1 m = true /\
  level ACC1 (run (ms 49) (step (edge ACC1) m)) = true /\
  level ACC1 (run (ms 50) (step (edge ACC1) m)) = false.
Proof.
  intro m.
  assert (Hr : reachable m) by (apply reachable_run; constructor; lia).
  assert (R : power_state (vars m) <> SM_POWER_RESET) by (vm_compute; discriminate).
  assert (P : pin ACC1 m = true) by reflexivity.
  split; [exact Hr | split; [exact R | split; [exact P | split]]].
  - destruct (debounce_latches_off ACC1 m (ms 49) Hr R P eq_refl) as (W & _).
    apply W. reflexivity.
  - destruct (debounce_latches_off ACC1 m (ms 50) Hr R P eq_refl) as (_ & W).
    apply W. vm_compute. discriminate.
Defined.

(** ** Holding ON *)

(** X13. A level latched ON is held while its pin reads high: after
    bring-up, with the pin high and no edge on it, no run of ticks, poll
    cycles and edges on the other pin changes the level or the pin, also when
    a de-bounce compare left armed by an earlier glitch comes due. *)
Theorem level_held_while_pin_high (i : input) (m : machine) (evs : list event) :
  reachable m -> power_state (vars m) <> SM_POWER_RESET ->
  level i m = true -> pin i m = true -> quiet i evs = true ->
  level i (run evs m) = true /\ pin i (run evs m) = true.
Proof.
  intros Hr. apply reachable_inv in Hr. revert m Hr.
  induction evs as [| e evs IH]; intros m I R L P Q; [auto |].
  cbn in Q. apply andb_prop in Q. destruct Q as [Q1 Q2].
  apply negb_true_iff in Q1. cbn [run].
  assert (K : level i (step e m) = true /\ pin i (step e m) = true).
  { destruct e; cbn [step].
    - destruct (tick_pin_high i m P) as (E & _).
      destruct (tick_channel i m) as (_ & _ & _ & _ & _ & E' & _).
      rewrite E, E'. auto.
    - destruct i; [discriminate Q1 |].
      destruct (edge_other ACC2 ACC1 m) as (E1 & _ & _ & E2 & _); [discriminate |].
      cbn [edge step] in *. rewrite E1, E2. auto.
    - destruct i; [| discriminate Q1].
      destruct (edge_other ACC1 ACC2 m) as (E1 & _ & _ & E2 & _); [discriminate |].
      cbn [edge step] in *. rewrite E1, E2. auto.
    - destruct (loop_body_channel i m R) as (E1 & E2 & _). rewrite E1, E2. auto. }
  destruct K as (K1 & K2).
  apply IH; auto using inv_step.
  intros Rs. apply (step_power_state_reset e m I) in Rs. tauto.
Qed.

(** A 10 ms glitch on ACC1: its level is ON again at the second edge, and
    is still ON a second later, across the de-bounce expiry. *)
Lemma level_held_while_pin_high_witness :
  let m := run (Poll :: ACC1_edge :: ms 10 ++ [ACC1_edge]) (boot true false 30 0) in
  reachable m /\ power_state (vars m) <> SM_POWER_RESET /\
  level ACC1 m = true /\ pin ACC1 m = true /\
  level ACC1 (run (ms 1000) m) = true.
Proof.
  intro m.
  assert (Hr : reachable m) by (apply reachable_run; constructor; lia).
  assert (R : power_state (vars m) <> SM_POWER_RESET) by (vm_compute; discriminate).
  assert (L : level ACC1 m = true) by (vm_compute; reflexivity).
  assert (P : pin ACC1 m = true) by (vm_compute; reflexivity).
  split; [exact Hr | split; [exact R | split; [exact L | split; [exact P |]]]].
  destruct (level_held_while_pin_high ACC1 m (ms 1000) Hr R L P) as (W & _);
    [vm_compute; reflexivity | exact W].
Defined.

(** ** The debounce engine: edges, expiry and the timer *)

(** The outcome of a tick for channel [i], by whether its de-bounce compare
    expires in it. *)
Lemma tick_expiry i m :
  debounce_fires i (TCC4_count m) = true ->
  level i (tick m) = level i m && pin i m /\
  off_start i (tick m) =
    (if level i m && negb (pin i m) then TCC4_CNT (regs (tick m)) else off_start i m) /\
  on_start i (tick m) = on_start i m /\
  armed i (tick m) = false.
Proof.
  intros F.
  destruct (tick_channel i m) as (L & On & Off & A & _ & _ & T & _).
  destruct (TCC4_count_channel i m) as (Lx & Px & Onx & Offx & Tx).
  rewrite debounce_interrupt_eq, F in L, On, Off, A.
  destruct (debounce_ISR_spec i (TCC4_count m)) as (S1 & S2 & S3 & S4).
  rewrite L, On, Off, A, S1, S2, S3, S4, Lx, Px, Onx, Offx, Tx, T. auto.
Qed.

Lemma tick_no_expiry i m :
  debounce_fires i (TCC4_count m) = false ->
  level i (tick m) = level i m /\
  off_start i (tick m) = off_start i m /\
  on_start i (tick m) = on_start i m /\
  armed i (tick m) = armed i m.
Proof.
  intros F.
  destruct (tick_channel i m) as (L & On & Off & A & _ & _ & T & _).
  destruct (TCC4_count_channel i m) as (Lx & Px & Onx & Offx & Tx).
  rewrite debounce_interrupt_eq, F in L, On, Off, A.
  rewrite L, On, Off, A, Lx, Onx, Offx.
  repeat split; destruct i; reflexivity.
Qed.

Lemma rearmed_fires i m k :
  rearmed i m k ->
  debounce_fires i (TCC4_count m) = (k =? TCNT_DEBOUNCE - 1).
Proof.
  unfold rearmed, TCNT_DEBOUNCE. intros (_ & _ & A & H & Hk & C).
  rewrite debounce_fires_eq, H, A, C. cbn [andb]. apply u16_due_in; lia.
Qed.

Lemma settled_quiet i m :
  settled i m -> debounce_fires i (TCC4_count m) = false.
Proof.
  intros (_ & A & _). rewrite debounce_fires_eq, A, andb_false_r. reflexivity.
Qed.

(** One event other than an edge on pin [i], seen from channel [i]: the pin
    keeps its reading. *)
Lemma step_pin i e m :
  is_edge i e = false -> power_state (vars m) <> SM_POWER_RESET ->
  pin i (step e m) = pin i m.
Proof.
  intros N R. destruct e; cbn [step].
  - destruct (tick_channel i m) as (_ & _ & _ & _ & _ & P & _). exact P.
  - destruct i; [discriminate N |].
    destruct (edge_other ACC2 ACC1 m) as (_ & _ & _ & P & _); [discriminate |]. exact P.
  - destruct i; [| discriminate N].
    destruct (edge_other ACC1 ACC2 m) as (_ & _ & _ & P & _); [discriminate |]. exact P.
  - destruct (loop_body_channel i m R) as (_ & P & _). exact P.
Qed.

Lemma step_not_reset e m :
  inv m -> power_state (vars m) <> SM_POWER_RESET ->
  power_state (vars (step e m)) <> SM_POWER_RESET.
Proof.
  intros I R Rs. apply (step_power_state_reset e m I) in Rs. tauto.
Qed.

Lemma settled_step i e m :
  inv m -> is_edge i e = false -> settled i m -> settled i (step e m).
Proof.
  intros I N S. pose proof (settled_quiet i m S) as F.
  destruct S as (R & A & L). unfold settled.
  rewrite (step_pin i e m N R).
  split; [apply step_not_reset; assumption |].
  destruct e; cbn [step].
  - destruct (tick_no_expiry i m F) as (-> & _ & _ & ->). auto.
  - destruct i; [discriminate N |].
    destruct (edge_other ACC2 ACC1 m) as (E1 & _ & _ & _ & _ & E2 & _);
      [discriminate |].
    cbn [edge step] in E1, E2. rewrite E1, E2. auto.
  - destruct i; [| discriminate N].
    destruct (edge_other ACC1 ACC2 m) as (E1 & _ & _ & _ & _ & E2 & _);
      [discriminate |].
    cbn [edge step] in E1, E2. rewrite E1, E2. auto.
  - destruct (loop_body_channel i m R) as (-> & _ & _ & -> & _). auto.
Qed.

Lemma rearmed_step i e m k :
  inv m -> is_edge i e = false -> rearmed i m k ->
  match e with
  | Tick =>
      if k <? TCNT_DEBOUNCE - 1 then rearmed i (step e m) (k + 1)
      else settled i (step e m)
  | _ => rearmed i (step e m) k
  end.
Proof.
  intros I N D. pose proof (rearmed_fires i m k D) as F.
  destruct D as (R & L & A & H & Hk & C).
  pose proof (step_not_reset e m I R) as R'.
  pose proof (step_pin i e m N R) as P'.
  unfold rearmed, settled, TCNT_DEBOUNCE in *.
  destruct e; cbn [step] in *.
  - destruct (tick_channel i m) as (_ & _ & _ & _ & C' & _ & T' & H').
    change (50 - 1) with 49 in *.
    destruct (k <? 49) eqn:K.
    + apply Z.ltb_lt in K.
      assert (F' : debounce_fires i (TCC4_count m) = false)
        by (rewrite F; apply Z.eqb_neq; lia).
      destruct (tick_no_expiry i m F') as (-> & _ & _ & ->).
      rewrite C', T', H', C.
      repeat split; auto; try lia.
      replace (u16 (TCC4_CNT (regs m) + 1) + 50 - (k + 1))
        with (u16 (TCC4_CNT (regs m) + 1) + (50 - k) - 1) by lia.
      rewrite u16_shift. f_equal. lia.
    + apply Z.ltb_ge in K.
      assert (F' : debounce_fires i (TCC4_count m) = true)
        by (rewrite F; apply Z.eqb_eq; lia).
      destruct (tick_expiry i m F') as (-> & _ & _ & ->).
      rewrite P', L. auto.
  - destruct i; [discriminate N |].
    destruct (edge_other ACC2 ACC1 m) as (E1 & _ & _ & _ & E3 & E4 & E5 & E6);
      [discriminate |].
    cbn [edge step] in *. rewrite E1, E3, E4, E5, E6. auto 10.
  - destruct i; [| discriminate N].
    destruct (edge_other ACC1 ACC2 m) as (E1 & _ & _ & _ & E3 & E4 & E5 & E6);
      [discriminate |].
    cbn [edge step] in *. rewrite E1, E3, E4, E5, E6. auto 10.
  - destruct (loop_body_channel i m R) as (E1 & _ & E3 & E4 & E5 & E6).
    rewrite E1, E3, E4, E5, E6. auto 10.
Qed.

Lemma settled_run i evs :
  forall m, inv m -> quiet i evs = true -> settled i m -> settled i (run evs m).
Proof.
  induction evs as [| e evs IH]; intros m I Q S; [exact S |].
  cbn in Q. apply andb_prop in Q. destruct Q as [Q1 Q2].
  apply negb_true_iff in Q1. cbn [run].
  apply IH; [apply inv_step; exact I | exact Q2 | apply settled_step; assumption].
Qed.

Lemma rearmed_run i evs :
  forall m k, inv m -> quiet i evs = true -> rearmed i m k ->
  (k + ticks evs < TCNT_DEBOUNCE -> rearmed i (run evs m) (k + ticks evs)) /\
  (TCNT_DEBOUNCE <= k + ticks evs -> settled i (run evs m)).
Proof.
  induction evs as [| e evs IH]; intros m k I Q D.
  - cbn [run ticks]. rewrite Z.add_0_r. split; [intros _; exact D |].
    destruct D as (_ & _ & _ & _ & Hk & _). lia.
  - cbn in Q. apply andb_prop in Q. destruct Q as [Q1 Q2].
    apply negb_true_iff in Q1.
    pose proof (rearmed_step i e m k I Q1 D) as S.
    pose proof (inv_step e m I) as I'.
    pose proof (ticks_nonneg evs) as Hn.
    assert (Hk : 0 <= k < TCNT_DEBOUNCE)
      by (destruct D as (_ & _ & _ & _ & Hk & _); exact Hk).
    cbn [run].
    destruct e; cbn [ticks];
      try (destruct (IH _ k I' Q2 S) as (A & B); split; assumption).
    unfold TCNT_DEBOUNCE in *. change (50 - 1) with 49 in S.
    destruct (k <? 49) eqn:K.
    + destruct (IH _ (k + 1) I' Q2 S) as (A & B).
      replace (k + (1 + ticks evs)) with (k + 1 + ticks evs) by lia.
      split; assumption.
    + apply Z.ltb_ge in K. split; [lia | intros _].
      apply settled_run; assumption.
Qed.

Lemma run_pin i evs :
  forall m, inv m -> power_state (vars m) <> SM_POWER_RESET ->
  quiet i evs = true -> pin i (run evs m) = pin i m.
Proof.
  induction evs as [| e evs IH]; intros m I R Q; [reflexivity |].
  cbn in Q. apply andb_prop in Q. destruct Q as [Q1 Q2].
  apply negb_true_iff in Q1. cbn [run].
  rewrite IH; [apply step_pin; assumption | apply inv_step; exact I | | exact Q2].
  apply step_not_reset; assumption.
Qed.

(** C2. The debounce engine of input [i], on any run from power-up.

    Edges: once bring-up has enabled interrupts, every edge re-arms the
    de-bounce compare 50 ticks ahead and, if the latched level was OFF,
    latches ON with the ON anchor at the current tick.

    Expiry: a tick in which the de-bounce compare of [i] expires disarms it
    (the timer is one-shot) and keeps the ON anchor; if the level is ON and
    the pin reads low it latches OFF with the OFF anchor at the tick of the
    expiry, and otherwise it changes neither the level nor the OFF anchor.  A
    tick without expiry changes nothing of the channel.  A tick at which the
    pin reads high changes neither the level nor the anchors.

    Only at expiry: the level goes from ON to OFF only in a tick whose
    de-bounce compare expires with the pin reading low; the OFF anchor is
    then the tick of the expiry, and at least 50 ticks have passed since the
    last edge.

    The timer: after an edge and with no further edge on the pin, whatever
    else happens, the level stays ON and the compare stays armed for the
    next 49 ticks, the 50th tick is the expiry, and from then on the compare
    is disarmed and does not expire again, and the level is what the pin
    reads: OFF after a fall, ON after a rise. *)
Theorem debounce_engine (i : input) (a1 a2 : bool) (ee w0 : Z) (evs : list event) :
  let m := run evs (boot a1 a2 ee w0) in
  (power_state (vars m) <> SM_POWER_RESET ->
     level i (step (edge i) m) = true /\
     on_start i (step (edge i) m) =
       (if level i m then on_start i m else TCC4_CNT (regs m)) /\
     off_start i (step (edge i) m) = off_start i m /\
     armed i (step (edge i) m) = true /\
     compare i (step (edge i) m) = u16 (TCC4_CNT (regs m) + TCNT_DEBOUNCE)) /\
  (pin i m = true ->
     level i (step Tick m) = level i m /\
     on_start i (step Tick m) = on_start i m /\
     off_start i (step Tick m) = off_start i m) /\
  (forall e : event,
     level i m = true -> level i (step e m) = false ->
     e = Tick /\ pin i m = false /\
     debounce_fires i (TCC4_count m) = true /\
     off_start i (step e m) = TCC4_CNT (regs (step e m)) /\
     on_start i (step e m) = on_start i m /\
     exists k, quiet_ticks i (evs ++ [e]) = Some k /\ TCNT_DEBOUNCE <= Z.of_nat k) /\
  (debounce_fires i (TCC4_count m) = true ->
     armed i (step Tick m) = false /\
     on_start i (step Tick m) = on_start i m /\
     (level i m = true -> pin i m = false ->
        level i (step Tick m) = false /\
        off_start i (step Tick m) = TCC4_CNT (regs (step Tick m))) /\
     (level i m = false \/ pin i m = true ->
        level i (step Tick m) = level i m /\
        off_start i (step Tick m) = off_start i m)) /\
  (debounce_fires i (TCC4_count m) = false ->
     level i (step Tick m) = level i m /\
     on_start i (step Tick m) = on_start i m /\
     off_start i (step Tick m) = off_start i m /\
     armed i (step Tick m) = armed i m) /\
  (power_state (vars m) <> SM_POWER_RESET ->
   forall evs' : list event, quiet i evs' = true ->
     let m' := run evs' (step (edge i) m) in
     pin i m' = negb (pin i m) /\
     (ticks evs' < TCNT_DEBOUNCE ->
        level i m' = true /\ armed i m' = true /\
        compare i m' = u16 (TCC4_CNT (regs m') + TCNT_DEBOUNCE - ticks evs') /\
        debounce_fires i (TCC4_count m') = (ticks evs' =? TCNT_DEBOUNCE - 1)) /\
     (TCNT_DEBOUNCE <= ticks evs' ->
        level i m' = negb (pin i m) /\ armed i m' = false /\
        debounce_fires i (TCC4_count m') = false)).
Proof.
  cbv zeta.
  destruct (run_pending i evs (boot a1 a2 ee w0) None (inv_boot _ _ _ _)
              (pending_boot i _ _ _ _)) as [I Pd].
  set (m := run evs (boot a1 a2 ee w0)) in *.
  split; [| split; [| split; [| split; [| split]]]].
  - intros R. assert (H : PMIC_HILVLEN (regs m) = true) by (apply I; exact R).
    destruct (edge_own i _ H) as (L & A & C & On & Off & _). auto.
  - apply tick_pin_high.
  - intros e L L'.
    destruct (level_drop i e _ _ I Pd L L') as (E & P & F & Off & On & k & Q & K).
    repeat split; try assumption.
    exists k. unfold quiet_ticks. rewrite since_edge_app. split; [exact Q |].
    unfold TCNT_DEBOUNCE. lia.
  - intros F. cbn [step].
    destruct (tick_expiry i m F) as (L & Off & On & A).
    rewrite L, Off, On, A.
    split; [reflexivity | split; [reflexivity | split]].
    + intros -> ->. auto.
    + intros [-> | ->]; [auto |]. rewrite andb_true_r, andb_false_r. auto.
  - intros F. cbn [step].
    destruct (tick_no_expiry i m F) as (L & Off & On & A). auto.
  - intros R evs' Q.
    assert (H : PMIC_HILVLEN (regs m) = true) by (apply I; exact R).
    destruct (edge_own i m H) as (E1 & E2 & E3 & _ & _ & E4 & E5 & E6).
    pose proof (inv_step (edge i) m I) as I'.
    assert (R' : power_state (vars (step (edge i) m)) <> SM_POWER_RESET)
      by (apply step_not_reset; assumption).
    assert (D : rearmed i (step (edge i) m) 0).
    { unfold rearmed. rewrite E1, E2, E3, E5, E6.
      repeat split; auto; try (unfold TCNT_DEBOUNCE; lia).
      f_equal. lia. }
    destruct (rearmed_run i evs' _ 0 I' Q D) as (A & B).
    rewrite Z.add_0_l in A, B.
    rewrite (run_pin i evs' _ I' R' Q), E4.
    split; [reflexivity | split].
    + intros K. pose proof (A K) as D'.
      pose proof (rearmed_fires i _ _ D') as F.
      destruct D' as (_ & L & Ar & _ & _ & C). auto.
    + intros K. pose proof (B K) as S.
      pose proof (settled_quiet i _ S) as F.
      destruct S as (_ & Ar & L).
      rewrite L, (run_pin i evs' _ I' R' Q), E4. auto.
Qed.

(** Power-up with ACC1 high.  Its pin falls right after bring-up: the level
    is still ON 49 ticks later and latched OFF by the 50th, anchored there.
    ACC2 rises and falls again: 50 ms after the fall its level is OFF and
    its compare disarmed. *)
Lemma debounce_engine_witness :
  let evs := [Poll; ACC1_edge] ++ repeat Tick 49 in
  let m := run evs (boot true false 30 0) in
  let evs2 := [Poll; ACC2_edge] in
  let m2 := run evs2 (boot true false 30 0) in
  (level ACC1 m = true /\ level ACC1 (step Tick m) = false /\
   off_start ACC1 (step Tick m) = 50 /\
   quiet_ticks ACC1 (evs ++ [Tick]) = Some 50%nat) /\
  (power_state (vars m2) <> SM_POWER_RESET /\
   level ACC2 m2 = true /\ pin ACC2 m2 = true /\
   level ACC2 (run (ms 49) (step (edge ACC2) m2)) = true /\
   level ACC2 (run (ms 50) (step (edge ACC2) m2)) = false /\
   armed ACC2 (run (ms 50) (step (edge ACC2) m2)) = false).
Proof.
  intros evs m evs2 m2. split.
  - assert (L : level ACC1 m = true) by (vm_compute; reflexivity).
    assert (L' : level ACC1 (step Tick m) = false) by (vm_compute; reflexivity).
    split; [exact L | split; [exact L' |]].
    destruct (debounce_engine ACC1 true false 30 0 evs) as (_ & _ & D & _).
    destruct (D Tick L L') as (_ & _ & _ & Off & _ & k & Q & K).
    split; [| vm_compute; reflexivity].
    transitivity (TCC4_CNT (regs (step Tick m))); [exact Off | vm_compute; reflexivity].
  - assert (R : power_state (vars m2) <> SM_POWER_RESET) by (vm_compute; discriminate).
    split; [exact R | split; [reflexivity | split; [reflexivity |]]].
    destruct (debounce_engine ACC2 true false 30 0 evs2) as (_ & _ & _ & _ & _ & T).
    split; [| split].
    + destruct (T R (ms 49) eq_refl) as (_ & W & _).
      destruct W as (W & _); [vm_compute; reflexivity | exact W].
    + destruct (T R (ms 50) eq_refl) as (_ & _ & W).
      destruct W as (W & _); [vm_compute; discriminate | exact W].
    + destruct (T R (ms 50) eq_refl) as (_ & _ & W).
      destruct W as (_ & W & _); [vm_compute; discriminate | exact W].
Defined.
